(* ===== verification/_CoqProject ===== *)
-Q . S2P
Prelude.v
BitString.v
Circuit.v
GateLaws.v
Oracle.v
GroverOp.v
Iterations.v
Amplification.v
Pipeline.v
ClassicalSearch.v
Sampler.v
Visualization.v
Shots.v
Runtime.v
