(* ===== verification/Prelude.v ===== *)
(** * Verification of frazerhope/grovers_algorithm (src/main_2.py)

    The program is one Python script with two parts.

    - A classical toy (lines 1-22): [my_list] is a random permutation of
      [0 .. 9]; [the_oracle] tests an entry against the winner [7]; a loop
      calls it on each entry, prints the winning index and the number of
      calls, and breaks.
    - A Grover search built with Qiskit (lines 24-102):
      [grover_oracle(marked_states)] builds a phase oracle from bit
      strings, one X / MCMT(Z) / X block per marked state (lines 38-66);
      [GroverOperator(oracle)] adds the diffusion (line 74); the iteration
      count is [floor(pi/4 sqrt(2^n / len(marked_states)))] (lines 77-79);
      the final circuit is an H layer, the operator's [power], and
      [measure_all] (lines 80-86).  The circuit is then sampled on the
      least busy IBM simulator in a runtime session, the distribution
      plotted and the session closed (lines 36, 89-102).

    Data flow: marked strings -> oracle -> Grover operator -> count ->
    assembled circuit -> (runtime session, sampler) -> distribution ->
    plot.

    ** Files, in dependency order

    - [Prelude]: the [result] monad for Python's exceptions ([py_error],
      [Ok] / [Err], and [x <- c ;; k] in [grover_scope]).  It also holds
      sums over an [n]-qubit register ([sum_pow2]), the [grover] hint
      databases, and the generic lemmas on lists, sums and [1/sqrt 2].
    - [BitString] (Module [PyStr]): the string operations of the oracle
      loop, [target[::-1]] ([py_reverse]), [str.startswith] and the
      comprehension [zero_inds].  Also the index a bit string marks, and
      its agreement with the string read in binary.
    - [Circuit] (Module [Circuit]): the Qiskit circuit value ([circuit]:
      width, classical bits, instruction list, global phase pi or not).
      It models the builders the script calls ([QuantumCircuit], [x],
      [h], [z], [mcx], [compose], [MCMT_Z], [power], [inverse],
      [measure_all]), each returning Qiskit's error where Qiskit raises.
      The semantics acts on state vectors [Z -> R], where bit [q] of the
      index is qubit [q] (Qiskit's ordering); all amplitudes are real,
      since the gates are X, Z, H and multi-controlled X and Z.  The
      [PhaseOracle] class is the interface between the oracle and the
      Grover operator.
    - [GateLaws]: the algebra of the gates, H H = 1, H MCX H = MCZ, open
      controls, linearity, and the H layer on [|0>] and on a general
      state.
    - [Oracle] (Module [Oracle]): [grover_oracle] and its loop
      ([mark_target], [mark_all]).  [grover_oracle_phase] gives its
      unitary (a sign on the parity of the matching targets),
      [grover_oracle_marks] the marking for well-formed input, and
      [grover_oracle_result] every error branch.  It also has the
      theorems behind the findings (duplicates, unequal lengths,
      non-binary characters, a one-character first string that raises
      [AttributeError], an empty one that raises [CircuitError]).  It discharges [PhaseOracle].
    - [GroverOp] (Module [GroverOp]): Qiskit's [GroverOperator], modelled
      from the library's construction, and [build_grover_op], script
      lines 71 and 74.  [run_GroverOperator] is the refinement lemma:
      against any [PhaseOracle], the operator is the inversion about the
      mean after the phase flip ([reflect_mean]);
      [grover_operator_diffusion] states it for the script's operator.
      [power] of a circuit of gates repeats it ([run_power]), and an
      oracle of no qubit makes [GroverOperator] raise [IndexError].
    - [Iterations]: the iteration count with exact reals ([PI], [sqrt],
      [Zfloor]) and Python's errors: [ZeroDivisionError] with no marked
      state, and the [OverflowError] of the int true division
      [2**n / len(marked_states)] when the quotient rounds past the
      largest double ([int_true_div_overflows]).  It has the floor
      characterised by integer inequalities, the bound [k^2 < 2^n],
      monotonicity, and the exact condition of each error.
    - [Amplification]: the states reached by repeated operators.  They
      are two-level states ([two_level]) with amplitudes following
      [amp_step]; the closed form gives success probability
      [sin^2 ((2k+1) theta)].  On distinct well-formed input the oracle
      marks exactly [len(marked_states)] basis states
      ([oracle_marks_length]).
    - [Pipeline]: [grover_circuit], script lines 71-86 composed as
      written.  It holds the state the circuit prepares for any marked
      list, the success probability [sin^2 ((2k+1) theta)] of the
      assembled circuit on any well-formed input, the end-to-end
      distribution for the script's input (1/2 on [011] and on [100]),
      and the structure the spec counts (three H gates, one operator
      block of one oracle and one diffusion, three measurements).
    - [ClassicalSearch] (stdpp): the toy loop with its prints and oracle
      calls as explicit state, both as a function ([search_loop], equal
      to [list_find]) and as a step relation ([loop_step]) whose runs
      keep the invariant "calls made = index".
    - [Sampler]: lines 97-99, the keys of the sampled distribution as
      [binary_probabilities] writes them ([to_bitstring]).
    - [Visualization]: line 99, the bars [plot_distribution] draws: the
      keys sorted as Python sorts strings ([sorted_labels]), each with its
      value ([plot_bars]).  On the keys of a register Python's string
      order is the order of the outcomes.
    - [Shots]: line 97, a finite run of the sampler: the counts dict of a
      shot record ([counts_of]) and the quasi-distribution [c / shots]
      ([sampled_quasi_dist]).  For any circuit the plot of a run shows one
      bar per outcome that occurred, in increasing order, with its
      frequency; for the script every run plots at most the bars
      ["011"] and ["100"], in that order, with frequencies adding up to 1.
    - [Runtime]: lines 36 and 89-102, the IBM runtime statements on an
      explicitly passed service ([service]: the backends the account sees
      and the shot record a backend returns for a job).  The script's
      variables are a state ([rt_state]) and the session objects a store
      the sampler shares with [sim_session].  The statements ([rt_op]:
      [least_busy], print, [Session], [Sampler], [run], plot, [close])
      are executed by [rt_exec], each with its error.  It has
      [least_busy] against its specification (the first candidate with
      the fewest pending jobs, [first_min]), the script's own run end to
      end on the circuit of [Pipeline] for any record the backend
      returns, and its error path when no backend qualifies.

    ** Modelling choices

    - Python's floats are exact reals, except that the int true division
      of line 78 raises [OverflowError] exactly where CPython's correctly
      rounded quotient passes the largest double.  The float floor of
      [pi/4 sqrt(q)] can differ from the exact floor when the exact value
      is within rounding of an integer (for instance at [n = 1024],
      [len(marked_states) = 2]); the theorems about the count are about
      the exact floor.  The script's own count has a margin of 0.4 from
      the next integer, so rounding cannot change it.
    - Measurement is the squared amplitude ([probability]).  Barriers and
      measurements leave amplitudes unchanged because [measure_all] comes
      last.  There is no fuel: every loop of the script is structural
      recursion over a list, and the iteration count is the [Nat.iter]
      of the operator.
    - The random draw [rand.sample] is any permutation ([is_sample]).

    - [qc.append] checks the qubit range and Qiskit's duplicate-argument
      rule ([check_dups]).

    ** Not modelled

    The network behind the runtime service (the backends an account sees
    and the record a backend returns are inputs of the model; queueing
    and job status are not modelled); which shot record the backend
    draws (a run is any record of possible outcomes, and the probability
    of each record is not modelled); the drawings of lines 72, 75 and 87
    ([draw("mpl")] of the oracle, of [grover_op.decompose()] and of the
    circuit) and the rendering of the plot by [plt.show()] (line 100),
    which produce pictures only; the imports (lines 1-3, 25-33); and
    [power] with a negative exponent (the count is never negative). *)

From Stdlib Require Import ZArith Reals Lra Lia List String Ascii Morphisms.
Import ListNotations.

Declare Scope grover_scope.
Delimit Scope grover_scope with grover.
Open Scope grover_scope.

(** ** Python exceptions and the result monad *)

(** The exceptions the script can raise while it builds its circuit. *)
Inductive py_error : Type :=
| IndexError          (** [marked_states[0]] on an empty list *)
| AttributeError      (** Qiskit's [MCMT] guard: zero control or target qubits *)
| ZeroDivisionError   (** [2**n / len(marked_states)] with no marked state *)
| CircuitError        (** Qiskit's qubit range and width checks *)
| NameError           (** a script variable read before it is bound *)
| QiskitBackendNotFoundError  (** [least_busy] with no candidate backend *)
| SessionClosedError  (** a job run on a closed runtime session *)
| ValueError          (** the sampler's check of a circuit's measurements *)
| OverflowError.      (** an int true division past the range of a double *)

Inductive result (A : Type) : Type :=
| Ok (a : A)
| Err (e : py_error).
Arguments Ok {A} a.
Arguments Err {A} e.

Definition bind {A B : Type} (c : result A) (k : A -> result B) : result B :=
  match c with
  | Ok a => k a
  | Err e => Err e
  end.

Notation "x <- c ;; k" := (bind c (fun x => k))
  (at level 61, c at next level, right associativity) : grover_scope.

(** ** Sums over the basis of an [n]-qubit register *)

(** [sum_pow2 n f] is the sum of [f y] for [y] in [0, 2^n), split the way
    a register splits on its top qubit. *)
Fixpoint sum_pow2 (n : nat) (f : Z -> R) : R :=
  match n with
  | O => f 0%Z
  | S k => (sum_pow2 k f + sum_pow2 k (fun y => f (y + 2 ^ Z.of_nat k)%Z))%R
  end.

Lemma bind_Ok {A B} (a : A) (k : A -> result B) : bind (Ok a) k = k a.
Proof. reflexivity. Qed.

Lemma bind_Err {A B} (e : py_error) (k : A -> result B) : bind (Err e) k = Err e.
Proof. reflexivity. Qed.

Lemma bind_Ok_inv {A B} (c : result A) (k : A -> result B) (b : B) :
  bind c k = Ok b -> exists a, c = Ok a /\ k a = Ok b.
Proof. destruct c; simpl; [eauto | discriminate]. Qed.

Create HintDb grover discriminated.
Create Rewrite HintDb grover_rw.
#[export] Hint Rewrite @bind_Ok @bind_Err : grover_rw.

(** Decompose every [bind _ _ = Ok _] hypothesis into its steps. *)
Ltac inv_bind :=
  repeat match goal with
  | H : bind ?c ?k = Ok _ |- _ =>
      let a := fresh "a" in let Ha := fresh "Ha" in
      apply bind_Ok_inv in H; destruct H as [a [Ha H]]
  | H : Ok _ = Ok _ |- _ => injection H as H; subst
  | H : Err _ = Ok _ |- _ => discriminate H
  end.

(** ** Generic list lemmas *)

Lemma forallb_map_comp {A B : Type} (f : B -> bool) (g : A -> B) (l : list A) :
  forallb f (map g l) = forallb (fun a => f (g a)) l.
Proof. induction l as [|a l IH]; simpl; [reflexivity|]. now rewrite IH. Qed.

Lemma forallb_ext_in {A : Type} (f g : A -> bool) (l : list A) :
  (forall a, In a l -> f a = g a) -> forallb f l = forallb g l.
Proof.
  induction l as [|a l IH]; intros H; simpl; [reflexivity|].
  rewrite H by (simpl; auto). rewrite IH by (intros; apply H; simpl; auto).
  reflexivity.
Qed.

(** Over a list without duplicates, the parity of the matches is
    membership. *)
Lemma xor_fold_NoDup (i : Z) (l : list Z) :
  NoDup l -> fold_right (fun x acc => xorb (Z.eqb i x) acc) false l = existsb (Z.eqb i) l.
Proof.
  induction l as [|x l IH]; intros Hnd; simpl; [reflexivity|].
  inversion Hnd as [|? ? Hnin Hnd']; subst. rewrite IH by exact Hnd'.
  destruct (Z.eqb_spec i x) as [->|]; simpl; [|reflexivity].
  destruct (existsb (Z.eqb x) l) eqn:He; [|reflexivity].
  apply existsb_exists in He as [y [Hy Hxy]]. apply Z.eqb_eq in Hxy; subst. contradiction.
Qed.

(** ** Sums *)

Lemma sum_pow2_ext (n : nat) : forall (f g : Z -> R),
  (forall y, (0 <= y < 2 ^ Z.of_nat n)%Z -> f y = g y) -> sum_pow2 n f = sum_pow2 n g.
Proof.
  induction n as [|k IH]; intros f g H; simpl.
  - apply H. simpl. lia.
  - assert (Hk : (2 ^ Z.of_nat (S k) = 2 * 2 ^ Z.of_nat k)%Z)
      by (rewrite Nat2Z.inj_succ, Z.pow_succ_r; lia).
    assert (Hp : (0 < 2 ^ Z.of_nat k)%Z) by (apply Z.pow_pos_nonneg; lia).
    f_equal; apply IH; intros y Hy; apply H; lia.
Qed.

Lemma sum_pow2_plus (n : nat) : forall (f g : Z -> R),
  sum_pow2 n (fun y => f y + g y)%R = (sum_pow2 n f + sum_pow2 n g)%R.
Proof.
  induction n as [|k IH]; intros f g; simpl; [reflexivity|].
  rewrite (IH f g), (IH (fun y => f (y + _)%Z) (fun y => g (y + _)%Z)). ring.
Qed.

Lemma sum_pow2_scale (n : nat) : forall (c : R) (f : Z -> R),
  sum_pow2 n (fun y => c * f y)%R = (c * sum_pow2 n f)%R.
Proof.
  induction n as [|k IH]; intros c f; simpl; [reflexivity|].
  rewrite (IH c f), (IH c (fun y => f (y + _)%Z)). ring.
Qed.

Lemma sum_pow2_const (n : nat) (c : R) : sum_pow2 n (fun _ => c) = (2 ^ n * c)%R.
Proof. induction n as [|k IH]; simpl; [ring|]. rewrite IH. ring. Qed.

(** ** The factor 1/sqrt 2 of a Hadamard gate *)

Lemma sqrt2_sq : (sqrt 2 * sqrt 2 = 2)%R.
Proof. apply sqrt_sqrt. lra. Qed.

Lemma div_sqrt2_plus (u v : R) : ((u / sqrt 2 + v / sqrt 2) / sqrt 2 = (u + v) / 2)%R.
Proof.
  unfold Rdiv. rewrite <- Rmult_plus_distr_r, Rmult_assoc, <- Rinv_mult, sqrt2_sq.
  reflexivity.
Qed.

Lemma div_sqrt2_minus (u v : R) : ((u / sqrt 2 - v / sqrt 2) / sqrt 2 = (u - v) / 2)%R.
Proof.
  unfold Rdiv. rewrite <- Rmult_minus_distr_r, Rmult_assoc, <- Rinv_mult, sqrt2_sq.
  reflexivity.
Qed.

Lemma inv_sqrt2_pow_twice (n : nat) : ((/ sqrt 2) ^ n * (/ sqrt 2) ^ n = / 2 ^ n)%R.
Proof.
  rewrite <- Rpow_mult_distr, <- Rinv_mult, sqrt2_sq, pow_inv. reflexivity.
Qed.

Lemma inv_sqrt2_pow_sq (n : nat) : (((/ sqrt 2) ^ n) ^ 2 = / 2 ^ n)%R.
Proof. rewrite <- inv_sqrt2_pow_twice. ring. Qed.

Lemma seq_last_split (n : nat) : (1 <= n)%nat -> seq 0 n = seq 0 (n - 1) ++ [n - 1].
Proof. intros Hn. replace n with (S (n - 1)) at 1 by lia. now rewrite seq_S. Qed.
