(* ===== verification/BitString.v ===== *)
(** * BitString: the Python string operations of [grover_oracle]

    [grover_oracle] (src/main_2.py:56-60) reads each marked state as a
    Python string: it reverses it ([target[::-1]]) and keeps the indices
    [ind] in [range(num_qubits)] at which [rev_target.startswith("0", ind)].
    Module [PyStr] models these three operations on [String.string];
    [marked_index] is the basis index whose phase the oracle flips (bit [i]
    set unless position [i] of the reversed string is a ['0']), and
    [bin_value] is Python's [int(s, 2)] on a string of ['0']/['1'], the
    spec's reading of a marked state. *)

From Stdlib Require Import ZArith List String Ascii Lia Bool.
From S2P Require Import Prelude.
Import ListNotations.

Module PyStr.

(** [target[::-1]] *)
Definition py_reverse (s : string) : string :=
  string_of_list_ascii (rev (list_ascii_of_string s)).

(** [s.startswith(prefix, start)]: the prefix test on [s[start:]]. *)
Definition py_startswith (s prefix : string) (start : nat) : bool :=
  String.prefix prefix (substring start (String.length s - start) s).

(** [[ind for ind in range(num_qubits) if rev_target.startswith("0", ind)]] *)
Definition zero_inds (rev_target : string) (num_qubits : nat) : list nat :=
  filter (fun ind => py_startswith rev_target "0" ind) (seq 0 num_qubits).

(** The value qubit [i] must hold in the state the oracle marks: the
    open controls are the zero indices, every other qubit is a closed one. *)
Definition oracle_bit (rev_target : string) (i : nat) : bool :=
  negb (py_startswith rev_target "0" i).

(** The little-endian number whose bit [i] is [f i], for [i < n]. *)
Fixpoint bits_value (f : nat -> bool) (n : nat) : Z :=
  match n with
  | O => 0%Z
  | S k => (2 * bits_value (fun i => f (S i)) k + Z.b2z (f O))%Z
  end.

(** The basis index (Qiskit ordering: qubit [i] is bit [i]) that the
    oracle built for [target] on [num_qubits] qubits flips. *)
Definition marked_index (target : string) (num_qubits : nat) : Z :=
  bits_value (oracle_bit (py_reverse target)) num_qubits.

(** A string over the characters ['0'] and ['1']. *)
Definition is_bitstring (s : string) : bool :=
  forallb (fun c => (c =? "0")%char || (c =? "1")%char) (list_ascii_of_string s).

(** [int(s, 2)] on a bit string: the first character is the most
    significant bit. *)
Definition bin_value (s : string) : Z :=
  fold_left (fun acc c => 2 * acc + if (c =? "1")%char then 1 else 0)%Z
            (list_ascii_of_string s) 0%Z.

(** ** Lemmas *)

Lemma get_list_ascii (s : string) (i : nat) :
  String.get i s = nth_error (list_ascii_of_string s) i.
Proof. revert i; induction s as [|c s IH]; intros [|i]; simpl; auto. Qed.

(** [s.startswith("0", i)] tests the character at [i]; past the end it is
    [False], as in Python. *)
Lemma py_startswith_zero (s : string) (i : nat) :
  py_startswith s "0" i =
  match String.get i s with Some c => (c =? "0")%char | None => false end.
Proof.
  unfold py_startswith. revert i.
  induction s as [|c s IH]; intros [|i]; try reflexivity.
  - cbn [String.length substring Nat.sub String.prefix String.get].
    destruct (ascii_dec "0" c) as [<-|Hne]; [now destruct (substring _ _ _)|].
    symmetry. apply Ascii.eqb_neq. congruence.
  - exact (IH i).
Qed.

Lemma get_py_reverse (s : string) (i : nat) :
  String.get i (py_reverse s) = nth_error (rev (list_ascii_of_string s)) i.
Proof.
  unfold py_reverse. rewrite get_list_ascii, list_ascii_of_string_of_list_ascii.
  reflexivity.
Qed.

(** The zero indices are the positions below [num_qubits] that hold ['0']. *)
Lemma zero_inds_spec (r : string) (n i : nat) :
  In i (zero_inds r n) <-> (i < n)%nat /\ py_startswith r "0" i = true.
Proof. unfold zero_inds. rewrite filter_In, in_seq. intuition lia. Qed.

Lemma zero_inds_NoDup (r : string) (n : nat) : NoDup (zero_inds r n).
Proof. apply NoDup_filter, seq_NoDup. Qed.

Lemma bits_value_testbit (n : nat) : forall (f : nat -> bool) (i : Z),
  (0 <= i)%Z ->
  Z.testbit (bits_value f n) i = ((i <? Z.of_nat n)%Z && f (Z.to_nat i))%bool.
Proof.
  induction n as [|k IH]; intros f i Hi; cbn [bits_value].
  - rewrite Z.testbit_0_l. replace (i <? Z.of_nat 0)%Z with false; [reflexivity|].
    symmetry. apply Z.ltb_ge. lia.
  - destruct (Z.eq_dec i 0) as [->|Hne].
    + rewrite Z.testbit_0_r. reflexivity.
    + replace i with (Z.succ (i - 1)) by lia.
      rewrite Z.testbit_succ_r, IH by lia.
      replace (Z.to_nat (Z.succ (i - 1))) with (S (Z.to_nat (i - 1))) by lia.
      f_equal. apply Bool.eq_iff_eq_true. rewrite !Z.ltb_lt. lia.
Qed.

Lemma bits_value_range (n : nat) : forall (f : nat -> bool),
  (0 <= bits_value f n < 2 ^ Z.of_nat n)%Z.
Proof.
  induction n as [|k IH]; intros f; cbn [bits_value]; [simpl; lia|].
  rewrite Nat2Z.inj_succ, Z.pow_succ_r by lia.
  specialize (IH (fun i => f (S i))). destruct (f O); cbn [Z.b2z]; lia.
Qed.

Lemma bits_value_ext (n : nat) : forall (f g : nat -> bool),
  (forall i, (i < n)%nat -> f i = g i) -> bits_value f n = bits_value g n.
Proof.
  induction n as [|k IH]; intros f g H; simpl; [reflexivity|].
  rewrite (IH (fun i => f (S i)) (fun i => g (S i))) by (intros; apply H; lia).
  rewrite H by lia. reflexivity.
Qed.

(** The character of a bit string read as a bit: ['1'] is 1, ['0'] is 0. *)
Lemma bitstring_char (c : ascii) :
  ((c =? "0")%char || (c =? "1")%char)%bool = true ->
  negb (c =? "0")%char = (c =? "1")%char.
Proof.
  intros H. apply Bool.orb_true_iff in H as [H|H];
    apply Ascii.eqb_eq in H; subst; reflexivity.
Qed.

(** Bit [i] of the marked index: set exactly when the reversed string has
    no ['0'] at position [i] (below [num_qubits]). *)
Lemma marked_index_testbit (target : string) (n : nat) (i : Z) :
  (0 <= i)%Z ->
  Z.testbit (marked_index target n) i =
  ((i <? Z.of_nat n)%Z && oracle_bit (py_reverse target) (Z.to_nat i))%bool.
Proof. intros Hi. apply bits_value_testbit; exact Hi. Qed.

Lemma marked_index_range (target : string) (n : nat) :
  (0 <= marked_index target n < 2 ^ Z.of_nat n)%Z.
Proof. apply bits_value_range. Qed.

Lemma bits_value_rev_bitstring (l : list ascii) :
  forallb (fun c => (c =? "0")%char || (c =? "1")%char) l = true ->
  bits_value (fun i => negb match nth_error (rev l) i with
                            | Some c => (c =? "0")%char | None => false end)
             (List.length l) =
  fold_left (fun acc c => 2 * acc + if (c =? "1")%char then 1 else 0)%Z l 0%Z.
Proof.
  induction l as [|c l IH] using rev_ind; intros Hb; [reflexivity|].
  rewrite forallb_app in Hb. apply Bool.andb_true_iff in Hb as [Hl Hc].
  simpl in Hc. rewrite Bool.andb_true_r in Hc.
  rewrite length_app, Nat.add_1_r, rev_app_distr, fold_left_app. cbn [bits_value].
  cbn [rev app nth_error fold_left]. rewrite <- (IH Hl), (bitstring_char c Hc).
  destruct (c =? "1")%char; reflexivity.
Qed.

Lemma length_list_ascii (s : string) :
  List.length (list_ascii_of_string s) = String.length s.
Proof. induction s; simpl; auto. Qed.

(** The index a bit string marks is its binary value. *)
Lemma marked_index_binary (s : string) :
  is_bitstring s = true -> marked_index s (String.length s) = bin_value s.
Proof.
  intros Hb. unfold marked_index, bin_value.
  rewrite <- length_list_ascii, <- (bits_value_rev_bitstring _ Hb).
  apply bits_value_ext. intros i _.
  unfold oracle_bit. rewrite py_startswith_zero, get_py_reverse. reflexivity.
Qed.

(** C17: On a bit string of the circuit's width, the index the oracle marks is
    the string read as a binary number, most significant character first:
    the last character is qubit 0, the spec's bit-ordering convention. *)
Theorem marked_index_bin_value (s : string) :
  is_bitstring s = true -> marked_index s (String.length s) = bin_value s.
Proof. exact (marked_index_binary s). Qed.

Lemma marked_index_bin_value_witness :
  is_bitstring "011"%string = true /\ marked_index "011"%string 3 = bin_value "011"%string.
Proof.
  split; [reflexivity|]. exact (marked_index_bin_value "011"%string eq_refl).
Defined.

End PyStr.
