(* ===== verification/Circuit.v ===== *)
(** * Circuit: Qiskit's [QuantumCircuit] as the script uses it

    The script builds every circuit through a handful of Qiskit calls:
    [QuantumCircuit(n)], [qc.x(qubits)], [qc.h(qubits)], [qc.z(q)],
    [qc.mcx(ctrls, t)], [qc.compose(other, inplace=True)], [MCMT(ZGate(),
    k, 1)], [qc.inverse()], [qc.power(k)] and [qc.measure_all()].  Qiskit
    is a library and not part of the repository, so these are modelled from
    its documented behaviour (and spec section 4): a circuit is a record of
    its width, its classical bits, its instruction list and its global phase
    (0 or pi, the only phases the script creates); every builder returns a
    [result], failing with [CircuitError] where Qiskit checks qubit
    indices or widths (and a negative count of [MCMT] controls), and with
    [AttributeError] where [MCMT]'s guard rejects a count of zero control
    or target qubits.

    The second half gives the gates their meaning on state vectors.  A
    state of the register is a function [Z -> R] from basis indices to
    real amplitudes (every gate the script uses has a real matrix); qubit
    [q] is bit [q] of the index (Qiskit's little-endian ordering).  States
    are compared pointwise ([≡]), and every operation respects that
    equivalence. *)

From Stdlib Require Import ZArith Reals Lra Lia List String Bool Morphisms.
From S2P Require Import Prelude.
Import ListNotations.

Module Circuit.

(** ** Syntax *)

Inductive gate : Type :=
| XGate (q : nat)
| ZGate (q : nat)
| HGate (q : nat)
| MCZ (ctrls : list nat) (t : nat)   (** Z on [t] controlled by [ctrls] *)
| MCX (ctrls : list nat) (t : nat).  (** X on [t] controlled by [ctrls] *)

Definition gate_qubits (g : gate) : list nat :=
  match g with
  | XGate q | ZGate q | HGate q => [q]
  | MCZ cs t | MCX cs t => cs ++ [t]
  end.

Inductive instr : Type :=
| Op (g : gate)
| Block (name : string) (body : list gate) (neg : bool)
    (** a sub-circuit appended as one gate ([to_gate]); [neg] is its
        global phase pi *)
| Barrier (qs : list nat)
| Measure (q c : nat).

Definition instr_qubits (i : instr) : list nat :=
  match i with
  | Op g => gate_qubits g
  | Block _ body _ => flat_map gate_qubits body
  | Barrier qs => qs
  | Measure q _ => [q]
  end.

Record circuit : Type := mk_circuit {
  num_qubits : nat;
  num_clbits : nat;
  data : list instr;
  phase_pi : bool   (** global phase: pi when [true], 0 otherwise *)
}.

(** ** Builders *)

(** [QuantumCircuit(n)] *)
Definition QuantumCircuit (n : nat) : circuit := mk_circuit n 0 [] false.

Definition with_data (qc : circuit) (d : list instr) : circuit :=
  mk_circuit (num_qubits qc) (num_clbits qc) d (phase_pi qc).

(** [QuantumCircuit._check_dups]: no qubit argument repeated. *)
Fixpoint check_dups (qs : list nat) : bool :=
  match qs with
  | [] => true
  | q :: qs' => negb (existsb (Nat.eqb q) qs') && check_dups qs'
  end.

(** What [qc.append(instr)] checks before it appends: every qubit index
    inside the circuit, and the qubit arguments of a gate distinct. *)
Definition append_check (qc : circuit) (i : instr) : bool :=
  forallb (fun q => q <? num_qubits qc)%nat (instr_qubits i) &&
  match i with Op g => check_dups (gate_qubits g) | _ => true end.

(** [qc.append(instr)]: Qiskit raises [CircuitError] on a qubit index
    outside the circuit and on duplicate qubit arguments. *)
Definition append (qc : circuit) (i : instr) : result circuit :=
  if append_check qc i
  then Ok (with_data qc (data qc ++ [i]))
  else Err CircuitError.

Fixpoint append_all (qc : circuit) (ins : list instr) : result circuit :=
  match ins with
  | [] => Ok qc
  | i :: ins' => qc' <- append qc i ;; append_all qc' ins'
  end.

(** [qc.x(qubits)] and [qc.h(qubits)] broadcast over the list, in order;
    an empty list appends nothing. *)
Definition x (qc : circuit) (qs : list nat) : result circuit :=
  append_all qc (map (fun q => Op (XGate q)) qs).

Definition h (qc : circuit) (qs : list nat) : result circuit :=
  append_all qc (map (fun q => Op (HGate q)) qs).

Definition z (qc : circuit) (q : nat) : result circuit := append qc (Op (ZGate q)).

Definition mcx (qc : circuit) (ctrls : list nat) (t : nat) : result circuit :=
  append qc (Op (MCX ctrls t)).

(** [qc.compose(other, inplace=True)] with the default qubit map: [other]
    must not be wider than [qc]; its instructions are appended and the
    global phases add up. *)
Definition compose (qc other : circuit) : result circuit :=
  if (num_qubits other <=? num_qubits qc)%nat && (num_clbits other <=? num_clbits qc)%nat
  then Ok (mk_circuit (num_qubits qc) (num_clbits qc) (data qc ++ data other)
                      (xorb (phase_pi qc) (phase_pi other)))
  else Err CircuitError.

(** [MCMT(ZGate(), num_ctrl_qubits, num_target_qubits)] with one target:
    controls [0 .. k-1], target [k].  Qiskit's guard raises
    [AttributeError] for no control or no target qubit; a negative count
    of controls passes the guard and fails when the control register is
    built, with [CircuitError].  Only the single target the script asks
    for is modelled; another target count is refused here. *)
Definition MCMT_Z (num_ctrl_qubits num_target_qubits : Z) : result circuit :=
  if ((num_ctrl_qubits =? 0) || (num_target_qubits =? 0))%Z then Err AttributeError
  else if ((num_ctrl_qubits <? 0) || negb (num_target_qubits =? 1))%Z then Err CircuitError
  else let k := Z.to_nat num_ctrl_qubits in
       Ok (mk_circuit (S k) 0 [Op (MCZ (seq 0 k) k)] false).

(** [qc.measure_all()]: a new classical register of [n] bits, a barrier
    on every qubit, and qubit [i] measured into the new bit [i]. *)
Definition measure_all (qc : circuit) : circuit :=
  let n := num_qubits qc in
  mk_circuit n (num_clbits qc + n)
    (data qc ++ Barrier (seq 0 n)
             :: map (fun q => Measure q (num_clbits qc + q)) (seq 0 n))
    (phase_pi qc).

(** The gates of a unitary circuit, blocks inlined, with the global phase
    they accumulate; [None] on a barrier or a measurement, which
    [to_gate] refuses. *)
Fixpoint gates_of (ins : list instr) : option (list gate * bool) :=
  match ins with
  | [] => Some ([], false)
  | Op g :: ins' =>
      match gates_of ins' with Some (gs, p) => Some (g :: gs, p) | None => None end
  | Block _ body neg :: ins' =>
      match gates_of ins' with Some (gs, p) => Some (body ++ gs, xorb neg p) | None => None end
  | _ :: _ => None
  end.

(** [qc.to_gate()]: the whole circuit as one instruction. *)
Definition to_gate (name : string) (qc : circuit) : result instr :=
  match gates_of (data qc) with
  | Some (gs, p) => Ok (Block name gs (xorb (phase_pi qc) p))
  | None => Err CircuitError
  end.

(** [qc.power(k)] for an integer [k >= 0] is [qc.repeat(k)]: a circuit of
    the same width holding [k] copies of [qc.to_gate()] (none for [k = 0]).
    A negative power takes Qiskit's matrix-power path, which is not
    modelled. *)
Definition power (name : string) (qc : circuit) (k : Z) : result circuit :=
  if (k <? 0)%Z then Err CircuitError
  else if (k =? 0)%Z then Ok (mk_circuit (num_qubits qc) (num_clbits qc) [] false)
  else g <- to_gate name qc ;;
       Ok (mk_circuit (num_qubits qc) (num_clbits qc) (repeat g (Z.to_nat k)) false).

(** [qc.inverse()] of a unitary circuit: the gates in reverse order, each
    inverted.  Every gate of this development is its own inverse, and a
    phase of pi is its own negative. *)
Definition inverse (qc : circuit) : result circuit :=
  match gates_of (data qc) with
  | Some (gs, p) =>
      Ok (mk_circuit (num_qubits qc) (num_clbits qc) (map Op (rev gs))
                     (xorb (phase_pi qc) p))
  | None => Err CircuitError
  end.

(** ** Semantics on state vectors *)

Definition state : Type := Z -> R.

(** Pointwise equality of states. *)
Definition st_equiv (psi phi : state) : Prop := forall i, psi i = phi i.

Declare Scope qstate_scope.
Delimit Scope qstate_scope with qs.
Infix "≡" := st_equiv (at level 70, no associativity) : qstate_scope.
Open Scope qstate_scope.

(** Value of qubit [q] in basis state [i], and [i] with qubit [q] flipped. *)
Definition bit (i : Z) (q : nat) : bool := Z.testbit i (Z.of_nat q).
Definition flip (q : nat) (i : Z) : Z := Z.lxor i (2 ^ Z.of_nat q).

(** [sgn b r] is [r] multiplied by [-1] when [b]. *)
Definition sgn (b : bool) (r : R) : R := if b then (- r)%R else r.

(** The basis state [|i>] and the zero vector. *)
Definition basis (i : Z) : state := fun j => if (j =? i)%Z then 1%R else 0%R.

(** Each gate as the map it applies to the amplitudes:
    [(U psi) i = sum_j U_ij psi j], written for the gate's sparse matrix.
    [H] on [q] pairs [i] with qubit [q] cleared and set:
    [(H psi) i = (psi i0 + (-1)^(i_q) psi i1) / sqrt 2]. *)
Definition apply_gate (g : gate) (psi : state) : state :=
  match g with
  | XGate q => fun i => psi (flip q i)
  | ZGate q => fun i => sgn (bit i q) (psi i)
  | HGate q => fun i =>
      ((psi (Z.clearbit i (Z.of_nat q))
        + sgn (bit i q) (psi (Z.setbit i (Z.of_nat q)))) / sqrt 2)%R
  | MCZ cs t => fun i => sgn (forallb (bit i) (t :: cs)) (psi i)
  | MCX cs t => fun i => if forallb (bit i) cs then psi (flip t i) else psi i
  end.

(** A gate list applied first to last. *)
Definition run_gates (gs : list gate) (psi : state) : state :=
  fold_left (fun st g => apply_gate g st) gs psi.

Definition neg_if (b : bool) (psi : state) : state := fun i => sgn b (psi i).

(** An instruction list acting on the quantum register.  Barriers and
    measurements do not change the amplitudes before measurement; the
    distribution of a circuit that ends in [measure_all] is read off the
    final amplitudes ([probability]). *)
Definition apply_instr (ins : instr) (psi : state) : state :=
  match ins with
  | Op g => apply_gate g psi
  | Block _ body neg => neg_if neg (run_gates body psi)
  | Barrier _ | Measure _ _ => psi
  end.

Definition run_instrs (ins : list instr) (psi : state) : state :=
  fold_left (fun st i => apply_instr i st) ins psi.

(** The unitary of a circuit, its global phase included. *)
Definition run (qc : circuit) (psi : state) : state :=
  neg_if (phase_pi qc) (run_instrs (data qc) psi).

(** The state a circuit prepares from [|0...0>]. *)
Definition final_state (qc : circuit) : state := run qc (basis 0).

(** The probability of reading the classical outcome [i] (bit [q] of [i]
    is qubit [q]) when every qubit is measured at the end, as
    [measure_all] does: the squared amplitude. *)
Definition probability (qc : circuit) (i : Z) : R := (final_state qc i ^ 2)%R.

(** A state of an [n]-qubit register has no amplitude outside [0, 2^n). *)
Definition in_range (n : nat) (i : Z) : bool := (0 <=? i)%Z && (i <? 2 ^ Z.of_nat n)%Z.
Definition supported (n : nat) (psi : state) : Prop :=
  forall i, in_range n i = false -> psi i = 0%R.

(** ** Signed-permutation semantics

    Every gate but [H] maps a basis state to a basis state up to a sign, so
    a circuit without [H] is described by where it reads each amplitude
    from: [pull gs i = Some (s, j)] means [(run_gates gs psi) i = sgn s (psi j)]
    for every [psi].  This is executable, and it is how the oracle is
    checked on concrete inputs. *)
Definition pull_gate (g : gate) (i : Z) : option (bool * Z) :=
  match g with
  | XGate q => Some (false, flip q i)
  | ZGate q => Some (bit i q, i)
  | HGate _ => None
  | MCZ cs t => Some (forallb (bit i) (t :: cs), i)
  | MCX cs t => Some (false, if forallb (bit i) cs then flip t i else i)
  end.

Fixpoint pull (gs : list gate) (i : Z) : option (bool * Z) :=
  match gs with
  | [] => Some (false, i)
  | g :: gs' =>
      match pull gs' i with
      | Some (s, j) =>
          match pull_gate g j with
          | Some (s', k) => Some (xorb s s', k)
          | None => None
          end
      | None => None
      end
  end.

(** The basis index a layer of X gates on [qs] reads from. *)
Definition flips (qs : list nat) (i : Z) : Z := fold_right flip i qs.

(** Every qubit a gate list touches is below [n] (Qiskit's append check). *)
Definition gates_in_range (n : nat) (gs : list gate) : bool :=
  forallb (fun g => forallb (fun q => q <? n)%nat (gate_qubits g)) gs.

(** ** Interface: a phase oracle

    What [GroverOperator] needs from the circuit it is given, and what
    [grover_oracle] provides: a circuit of at least one qubit, with no
    classical bits and no global phase, made of gates [po_gates] that
    multiply the amplitude of [|i>] by [-1] exactly when [f i]. *)
Class PhaseOracle (oracle : circuit) (f : Z -> bool) : Type := {
  po_gates : list gate;
  po_width : (1 <= num_qubits oracle)%nat;
  po_clbits : num_clbits oracle = 0%nat;
  po_unphased : phase_pi oracle = false;
  po_data : data oracle = map Op po_gates;
  po_phase : forall psi, run_gates po_gates psi ≡ (fun i => sgn (f i) (psi i))
}.

(** ** Lemmas: the state setoid *)

#[export] Instance st_equiv_Equivalence : Equivalence st_equiv.
Proof.
  split; [intros psi i; reflexivity | intros psi phi H i; symmetry; apply H
         | intros a b c H1 H2 i; rewrite H1; apply H2].
Qed.

#[export] Instance apply_gate_Proper (g : gate) :
  Proper (st_equiv ==> st_equiv) (apply_gate g).
Proof. intros psi phi H i; destruct g; simpl; rewrite ?H; reflexivity. Qed.

#[export] Instance run_gates_Proper (gs : list gate) :
  Proper (st_equiv ==> st_equiv) (run_gates gs).
Proof.
  unfold run_gates. induction gs as [|g gs IH]; intros psi phi H; simpl; [exact H|].
  apply IH. now rewrite H.
Qed.

#[export] Instance neg_if_Proper (b : bool) : Proper (st_equiv ==> st_equiv) (neg_if b).
Proof. intros psi phi H i. unfold neg_if. now rewrite H. Qed.

#[export] Instance apply_instr_Proper (ins : instr) :
  Proper (st_equiv ==> st_equiv) (apply_instr ins).
Proof. intros psi phi H. destruct ins; simpl; now rewrite ?H. Qed.

#[export] Instance run_instrs_Proper (ins : list instr) :
  Proper (st_equiv ==> st_equiv) (run_instrs ins).
Proof.
  unfold run_instrs. induction ins as [|i ins IH]; intros psi phi H; simpl; [exact H|].
  apply IH. now rewrite H.
Qed.

#[export] Instance run_Proper (qc : circuit) : Proper (st_equiv ==> st_equiv) (run qc).
Proof. intros psi phi H. unfold run. now rewrite H. Qed.

(** ** Lemmas: signs *)

Lemma sgn_xorb (a b : bool) (r : R) : sgn a (sgn b r) = sgn (xorb a b) r.
Proof. destruct a, b; simpl; lra. Qed.

Lemma sgn_mult (b : bool) (c r : R) : sgn b (c * r) = (c * sgn b r)%R.
Proof. destruct b; simpl; lra. Qed.

Lemma sgn_plus (b : bool) (r1 r2 : R) : sgn b (r1 + r2) = (sgn b r1 + sgn b r2)%R.
Proof. destruct b; simpl; lra. Qed.

Lemma sgn_0 (b : bool) : sgn b 0 = 0%R.
Proof. destruct b; simpl; lra. Qed.

#[export] Hint Rewrite sgn_xorb sgn_0 : grover_rw.

(** ** Lemmas: sequencing *)

Lemma run_gates_app (gs1 gs2 : list gate) (psi : state) :
  run_gates (gs1 ++ gs2) psi = run_gates gs2 (run_gates gs1 psi).
Proof. apply fold_left_app. Qed.

Lemma run_gates_cons (g : gate) (gs : list gate) (psi : state) :
  run_gates (g :: gs) psi = run_gates gs (apply_gate g psi).
Proof. reflexivity. Qed.

Lemma run_instrs_app (is1 is2 : list instr) (psi : state) :
  run_instrs (is1 ++ is2) psi = run_instrs is2 (run_instrs is1 psi).
Proof. apply fold_left_app. Qed.

Lemma run_instrs_ops (gs : list gate) (psi : state) :
  run_instrs (map Op gs) psi = run_gates gs psi.
Proof. revert psi; induction gs as [|g gs IH]; intros psi; simpl; auto. Qed.

(** ** Lemmas: the signed-permutation semantics is sound *)

Lemma pull_gate_sound (g : gate) (psi : state) (i j : Z) (s : bool) :
  pull_gate g i = Some (s, j) -> apply_gate g psi i = sgn s (psi j).
Proof.
  destruct g; simpl; intros H; try discriminate; injection H as <- <-;
    try reflexivity.
  destruct (forallb _ _); reflexivity.
Qed.

Lemma pull_sound (gs : list gate) : forall (psi : state) (i j : Z) (s : bool),
  pull gs i = Some (s, j) -> run_gates gs psi i = sgn s (psi j).
Proof.
  induction gs as [|g gs IH]; intros psi i j s H; simpl in H.
  - injection H as <- <-. reflexivity.
  - destruct (pull gs i) as [[s1 k]|] eqn:Hp; [|discriminate].
    destruct (pull_gate g k) as [[s2 l]|] eqn:Hg; [|discriminate].
    injection H as <- <-. rewrite run_gates_cons, (IH _ _ _ _ Hp).
    rewrite (pull_gate_sound _ _ _ _ _ Hg). apply sgn_xorb.
Qed.

(** ** Lemmas: builders *)

Lemma append_ok (qc : circuit) (i : instr) :
  append_check qc i = true -> append qc i = Ok (with_data qc (data qc ++ [i])).
Proof. intros H. unfold append. now rewrite H. Qed.

Lemma append_check_single (qc : circuit) (g : gate) (q : nat) :
  gate_qubits g = [q] -> append_check qc (Op g) = (q <? num_qubits qc)%nat.
Proof. intros Hg. unfold append_check. cbn [instr_qubits]. rewrite Hg. simpl. now rewrite !andb_true_r. Qed.

Lemma check_dups_seq (a n : nat) : check_dups (seq a n) = true.
Proof.
  revert a; induction n as [|n IH]; intros a; simpl; [reflexivity|]. rewrite IH, andb_true_r.
  apply negb_true_iff, Bool.not_true_iff_false. rewrite existsb_exists.
  intros (x & Hx & Hax). apply Nat.eqb_eq in Hax. subst. apply in_seq in Hx. lia.
Qed.

Lemma append_all_ok (qc : circuit) (ins : list instr) :
  forallb (append_check qc) ins = true ->
  append_all qc ins = Ok (with_data qc (data qc ++ ins)).
Proof.
  revert qc; induction ins as [|i ins IH]; intros qc H; simpl in *.
  - rewrite app_nil_r. now destruct qc.
  - apply andb_true_iff in H as [Hi H]. unfold append. rewrite Hi, bind_Ok, IH by exact H.
    unfold with_data; simpl. now rewrite <- app_assoc.
Qed.

Lemma x_ok (qc : circuit) (qs : list nat) :
  forallb (fun q => q <? num_qubits qc)%nat qs = true ->
  x qc qs = Ok (with_data qc (data qc ++ map (fun q => Op (XGate q)) qs)).
Proof.
  intros H. apply append_all_ok. rewrite forallb_map_comp.
  erewrite forallb_ext_in; [exact H|]. intros q _. now apply append_check_single.
Qed.

Lemma h_ok (qc : circuit) (qs : list nat) :
  forallb (fun q => q <? num_qubits qc)%nat qs = true ->
  h qc qs = Ok (with_data qc (data qc ++ map (fun q => Op (HGate q)) qs)).
Proof.
  intros H. apply append_all_ok. rewrite forallb_map_comp.
  erewrite forallb_ext_in; [exact H|]. intros q _. now apply append_check_single.
Qed.

Lemma compose_ok (qc other : circuit) :
  (num_qubits other <= num_qubits qc)%nat -> (num_clbits other <= num_clbits qc)%nat ->
  compose qc other = Ok (mk_circuit (num_qubits qc) (num_clbits qc) (data qc ++ data other)
                                    (xorb (phase_pi qc) (phase_pi other))).
Proof.
  intros H1 H2. unfold compose.
  now replace ((num_qubits other <=? num_qubits qc)%nat && (num_clbits other <=? num_clbits qc)%nat)
    with true by (symmetry; apply andb_true_iff; split; apply Nat.leb_le; lia).
Qed.

(** ** Lemmas: the register's index range *)

(** An index is in range exactly when it has no bit set at or above [n]
    (a negative index has infinitely many). *)
Lemma in_range_bits (n : nat) (i : Z) :
  in_range n i = true <-> (forall k, (Z.of_nat n <= k)%Z -> Z.testbit i k = false).
Proof.
  unfold in_range. rewrite andb_true_iff, Z.leb_le, Z.ltb_lt. split.
  - intros Hr k Hk. rewrite <- (Z.mod_small i (2 ^ Z.of_nat n)) by exact Hr.
    apply Z.mod_pow2_bits_high. lia.
  - intros Hb. assert (Hm : (i mod 2 ^ Z.of_nat n = i)%Z).
    { apply Z.bits_inj'. intros k Hk. rewrite Z.testbit_mod_pow2 by lia.
      destruct (Z.ltb_spec k (Z.of_nat n)); [reflexivity|]. now rewrite Hb by lia. }
    rewrite <- Hm. apply Z.mod_pos_bound. lia.
Qed.

(** ** Lemmas: bits and X layers *)

Lemma bit_flip (q q' : nat) (i : Z) : bit (flip q' i) q = xorb (bit i q) (q' =? q)%nat.
Proof.
  unfold bit, flip. rewrite Z.lxor_spec, Z.pow2_bits_eqb by lia. f_equal.
  apply Bool.eq_iff_eq_true. rewrite Z.eqb_eq, Nat.eqb_eq. lia.
Qed.

Lemma flip_flip (q : nat) (i : Z) : flip q (flip q i) = i.
Proof. unfold flip. now rewrite Z.lxor_assoc, Z.lxor_nilpotent, Z.lxor_0_r. Qed.

Lemma flip_comm (q q' : nat) (i : Z) : flip q (flip q' i) = flip q' (flip q i).
Proof. unfold flip. rewrite !Z.lxor_assoc. f_equal. apply Z.lxor_comm. Qed.

Lemma flips_flip (qs : list nat) (q : nat) (i : Z) : flips qs (flip q i) = flip q (flips qs i).
Proof. induction qs as [|q' qs IH]; simpl; [reflexivity|]. now rewrite IH, flip_comm. Qed.

Lemma flips_involutive (qs : list nat) (i : Z) : flips qs (flips qs i) = i.
Proof.
  induction qs as [|q qs IH]; simpl; [reflexivity|].
  now rewrite flips_flip, flip_flip, IH.
Qed.

Lemma bit_flips (qs : list nat) (q : nat) (i : Z) :
  NoDup qs -> bit (flips qs i) q = xorb (bit i q) (existsb (Nat.eqb q) qs).
Proof.
  induction qs as [|q' qs IH]; intros Hnd; simpl; [now rewrite xorb_false_r|].
  inversion Hnd as [|? ? Hnin Hnd']; subst.
  rewrite bit_flip, IH by exact Hnd'. rewrite Nat.eqb_sym.
  destruct (Nat.eqb_spec q q') as [->|Hne]; simpl.
  - replace (existsb (Nat.eqb q') qs) with false.
    + now destruct (bit i q').
    + symmetry. apply Bool.not_true_iff_false. rewrite existsb_exists.
      intros [y [Hy Heq]]. apply Nat.eqb_eq in Heq. subst. contradiction.
  - now rewrite xorb_false_r.
Qed.

Lemma run_x_layer (qs : list nat) (psi : state) :
  run_gates (map XGate qs) psi ≡ (fun i => psi (flips qs i)).
Proof.
  revert psi. induction qs as [|q qs IH]; intros psi i; [reflexivity|].
  cbn [map]. rewrite run_gates_cons, IH. reflexivity.
Qed.

End Circuit.
