(* ===== verification/GateLaws.v ===== *)
(** * GateLaws: the algebra of the gate semantics

    Laws of [Circuit.apply_gate] that the oracle and the Grover operator
    are built from: the bit-level facts behind [flip], [Z.setbit] and
    [Z.clearbit]; [H] in terms of [flip] and [H H = I]; [H MCX H = MCZ]
    (how Qiskit builds the reflection about zero); a layer of X gates
    around a multi-controlled Z as a phase flip; the Hadamard layer of a
    register applied to [|0...0>] and its inverse read at [|0...0>] as a
    normalised sum; linearity; and that gates acting inside an [n]-qubit
    register keep states inside it. *)

From Stdlib Require Import ZArith Reals Lra Lia List Bool Morphisms.
From S2P Require Import Prelude Circuit.
Import ListNotations Circuit.
Open Scope qstate_scope.

Module GateLaws.

(** [qc.h(qs)] as gates. *)
Definition hadamards (qs : list nat) : list gate := map HGate qs.

(** No bit of [x] is set below position [k]. *)
Definition low_zero (k : nat) (x : Z) : Prop :=
  forall j, (0 <= j < Z.of_nat k)%Z -> Z.testbit x j = false.

(** The linear combination [a psi + b phi]. *)
Definition lin (a : R) (psi : state) (b : R) (phi : state) : state :=
  fun i => (a * psi i + b * phi i)%R.

(** ** Bits *)

Ltac bits_at q k :=
  unfold flip, bit in *;
  rewrite ?Z.setbit_eqb, ?Z.clearbit_eqb, ?Z.lxor_spec, ?Z.pow2_bits_eqb by lia;
  destruct (Z.eqb_spec (Z.of_nat q) k) as [<-|]; simpl.

Ltac bits_close q := intros Hb; apply Z.bits_inj'; intros ?k ?Hk; bits_at q k;
  rewrite ?Hb, ?andb_true_r, ?xorb_false_r; reflexivity.

Lemma setbit_flip (i : Z) (q : nat) : bit i q = false -> Z.setbit i (Z.of_nat q) = flip q i.
Proof. bits_close q. Qed.

Lemma setbit_id (i : Z) (q : nat) : bit i q = true -> Z.setbit i (Z.of_nat q) = i.
Proof. bits_close q. Qed.

Lemma clearbit_id (i : Z) (q : nat) : bit i q = false -> Z.clearbit i (Z.of_nat q) = i.
Proof. bits_close q. Qed.

Lemma clearbit_flip (i : Z) (q : nat) : bit i q = true -> Z.clearbit i (Z.of_nat q) = flip q i.
Proof. bits_close q. Qed.

Lemma bit_flip_same (q : nat) (i : Z) : bit (flip q i) q = negb (bit i q).
Proof. rewrite bit_flip, Nat.eqb_refl. now destruct (bit i q). Qed.

Lemma flip_add (q : nat) (i : Z) : bit i q = false -> flip q i = (i + 2 ^ Z.of_nat q)%Z.
Proof.
  intros Hb. unfold flip. rewrite Z.add_nocarry_lxor; [reflexivity|].
  apply Z.bits_inj'. intros k Hk. rewrite Z.land_spec, Z.testbit_0_l, Z.pow2_bits_eqb by lia.
  destruct (Z.eqb_spec (Z.of_nat q) k) as [<-|]; [exact (f_equal (fun b => b && true) Hb)|].
  apply andb_false_r.
Qed.

Lemma in_range_flip (n q : nat) (i : Z) :
  (q < n)%nat -> in_range n (flip q i) = in_range n i.
Proof.
  intros Hq. apply Bool.eq_iff_eq_true. rewrite !in_range_bits.
  split; intros H k Hk; specialize (H k Hk); unfold flip in *;
    rewrite Z.lxor_spec, Z.pow2_bits_false in * by lia; now rewrite xorb_false_r in *.
Qed.

(** ** Single gates *)

(** [H] on qubit [q] pairs [|i>] with [|flip q i>]. *)
Lemma apply_H (q : nat) (psi : state) (i : Z) :
  apply_gate (HGate q) psi i =
  (if bit i q then (psi (flip q i) - psi i) / sqrt 2 else (psi i + psi (flip q i)) / sqrt 2)%R.
Proof.
  cbn [apply_gate]. destruct (bit i q) eqn:Hb.
  - rewrite clearbit_flip, setbit_id by exact Hb. reflexivity.
  - rewrite clearbit_id, setbit_flip by exact Hb. reflexivity.
Qed.

Lemma apply_MCX (cs : list nat) (t : nat) (psi : state) (i : Z) :
  apply_gate (MCX cs t) psi i = if forallb (bit i) cs then psi (flip t i) else psi i.
Proof. reflexivity. Qed.

Lemma H_H (q : nat) (psi : state) : apply_gate (HGate q) (apply_gate (HGate q) psi) ≡ psi.
Proof.
  intros i. rewrite !apply_H, !bit_flip_same, !flip_flip.
  destruct (bit i q); simpl; [rewrite div_sqrt2_minus | rewrite div_sqrt2_plus]; lra.
Qed.

Lemma controls_flip (cs : list nat) (t : nat) (i : Z) :
  ~ In t cs -> forallb (bit (flip t i)) cs = forallb (bit i) cs.
Proof.
  intros Hn. apply forallb_ext_in. intros q Hq. rewrite bit_flip.
  destruct (Nat.eqb_spec t q) as [->|]; [contradiction | apply xorb_false_r].
Qed.

(** Conjugating the target of a multi-controlled X by [H] gives the
    multi-controlled Z: the construction of Qiskit's reflection about
    zero. *)
Lemma H_MCX_H (cs : list nat) (t : nat) (psi : state) :
  ~ In t cs -> run_gates [HGate t; MCX cs t; HGate t] psi ≡ apply_gate (MCZ cs t) psi.
Proof.
  intros Hn i. cbn [run_gates fold_left].
  rewrite apply_H, !apply_MCX, controls_flip by exact Hn.
  rewrite !apply_H, !bit_flip_same, !flip_flip. cbn [apply_gate forallb].
  destruct (forallb (bit i) cs), (bit i t); cbn [negb andb sgn];
    first [rewrite div_sqrt2_minus | rewrite div_sqrt2_plus]; lra.
Qed.

(** A layer of X gates on [zs] around a Z controlled by qubits
    [0 .. n-2] on target [n-1] flips the phase of the basis states whose
    qubits, each negated when it is in [zs], are all 1: the open and
    closed controls of [grover_oracle] and of the reflection about zero. *)
Lemma run_open_controls (n : nat) (zs : list nat) (psi : state) :
  (1 <= n)%nat -> NoDup zs ->
  run_gates (map XGate zs ++ [MCZ (seq 0 (n - 1)) (n - 1)] ++ map XGate zs) psi ≡
  (fun i => sgn (forallb (fun q => xorb (bit i q) (existsb (Nat.eqb q) zs)) (seq 0 n)) (psi i)).
Proof.
  intros Hn Hnd i. rewrite !run_gates_app, run_x_layer, run_gates_cons.
  cbn [run_gates fold_left apply_gate].
  rewrite (run_x_layer _ psi (flips _ i)), flips_involutive. f_equal.
  rewrite (seq_last_split n Hn), forallb_app. cbn [forallb].
  rewrite andb_true_r, andb_comm, !bit_flips by exact Hnd. f_equal.
  apply forallb_ext_in. intros q _. now rewrite bit_flips by exact Hnd.
Qed.

(** ** The register's range *)

Lemma in_range_bit_high (k : nat) (i : Z) : bit i k = true -> in_range k i = false.
Proof.
  intros Hb. apply Bool.not_true_iff_false. rewrite in_range_bits. intros H.
  unfold bit in Hb. rewrite H in Hb by lia. discriminate.
Qed.

Lemma in_range_succ_clear (k : nat) (i : Z) :
  bit i k = false -> in_range (S k) i = in_range k i.
Proof.
  intros Hb. apply Bool.eq_iff_eq_true. rewrite !in_range_bits. unfold bit in Hb.
  split; intros H j Hj; [|apply H; lia].
  destruct (Z.eq_dec j (Z.of_nat k)) as [->|]; [exact Hb | apply H; lia].
Qed.

Lemma in_range_succ_set (k : nat) (i : Z) :
  bit i k = true -> in_range (S k) i = in_range k (flip k i).
Proof.
  intros Hb. apply Bool.eq_iff_eq_true. rewrite !in_range_bits. unfold flip, bit in *.
  split; intros H j Hj; rewrite ?Z.lxor_spec, ?Z.pow2_bits_eqb in * by lia.
  - destruct (Z.eqb_spec (Z.of_nat k) j) as [<-|]; [now rewrite Hb | rewrite H by lia; reflexivity].
  - specialize (H j ltac:(lia)). rewrite Z.lxor_spec, Z.pow2_bits_eqb in H by lia.
    rewrite (proj2 (Z.eqb_neq _ _)) in H by lia. now rewrite xorb_false_r in H.
Qed.

(** ** Linearity *)

Lemma apply_gate_lin (g : gate) (a b : R) (psi phi : state) :
  apply_gate g (lin a psi b phi) ≡ lin a (apply_gate g psi) b (apply_gate g phi).
Proof.
  intros i. unfold lin. destruct g.
  - reflexivity.
  - cbn [apply_gate]. destruct (bit i q); simpl; ring.
  - rewrite !apply_H. cbv beta. destruct (bit i q); unfold Rdiv; ring.
  - cbn [apply_gate]. destruct (forallb _ _); simpl; ring.
  - cbn [apply_gate]. destruct (forallb _ _); reflexivity.
Qed.

Lemma run_gates_lin (gs : list gate) (a b : R) : forall (psi phi : state),
  run_gates gs (lin a psi b phi) ≡ lin a (run_gates gs psi) b (run_gates gs phi).
Proof.
  induction gs as [|g gs IH]; intros psi phi; [reflexivity|]. rewrite !run_gates_cons.
  etransitivity; [apply run_gates_Proper, apply_gate_lin | apply IH].
Qed.

(** ** Support *)

Lemma apply_gate_supported (n : nat) (g : gate) (psi : state) :
  forallb (fun q => q <? n)%nat (gate_qubits g) = true ->
  supported n psi -> supported n (apply_gate g psi).
Proof.
  intros Hg Hs i Hi. destruct g; cbn [gate_qubits] in Hg;
    rewrite ?forallb_app in Hg; cbn [forallb] in Hg;
    repeat match goal with H : (_ && _)%bool = true |- _ => apply andb_true_iff in H as [? ?] end.
  - cbn [apply_gate]. apply Hs. rewrite in_range_flip; [exact Hi | now apply Nat.ltb_lt].
  - cbn [apply_gate]. now rewrite Hs, sgn_0.
  - assert (Hf : psi (flip q i) = 0%R)
      by (apply Hs; rewrite in_range_flip; [exact Hi | now apply Nat.ltb_lt]).
    rewrite apply_H, (Hs i Hi), Hf. destruct (bit i q); unfold Rdiv; ring.
  - cbn [apply_gate]. now rewrite Hs, sgn_0.
  - rewrite apply_MCX. destruct (forallb (bit i) ctrls); apply Hs; try exact Hi.
    rewrite in_range_flip; [exact Hi | now apply Nat.ltb_lt].
Qed.

Lemma run_gates_supported (n : nat) (gs : list gate) : forall (psi : state),
  gates_in_range n gs = true -> supported n psi -> supported n (run_gates gs psi).
Proof.
  induction gs as [|g gs IH]; intros psi Hg Hs; [exact Hs|].
  apply andb_true_iff in Hg as [Hg1 Hg2]. rewrite run_gates_cons.
  apply IH; [exact Hg2 | now apply apply_gate_supported].
Qed.

(** ** Hadamard layers *)

Lemma hadamards_seq_S (k : nat) :
  hadamards (seq 0 (S k)) = hadamards (seq 0 k) ++ [HGate k].
Proof. unfold hadamards. now rewrite seq_S, map_app. Qed.

Lemma hadamards_rev_seq_S (k : nat) :
  hadamards (rev (seq 0 (S k))) = HGate k :: hadamards (rev (seq 0 k)).
Proof. unfold hadamards. now rewrite seq_S, rev_app_distr. Qed.

(** The layer undone by its inverse: [A A^dagger = I]. *)
Lemma run_hadamards_inverse (k : nat) : forall (psi : state),
  run_gates (hadamards (rev (seq 0 k)) ++ hadamards (seq 0 k)) psi ≡ psi.
Proof.
  induction k as [|k IH]; intros psi; [reflexivity|].
  rewrite hadamards_rev_seq_S, hadamards_seq_S, <- app_comm_cons, app_assoc,
    run_gates_cons, run_gates_app.
  cbn [run_gates fold_left].
  etransitivity; [apply apply_gate_Proper, IH | apply H_H].
Qed.

(** The layer on [|0...0>]: the uniform superposition of the register. *)
Lemma run_hadamards_zero (k : nat) :
  run_gates (hadamards (seq 0 k)) (basis 0) ≡
  (fun i => if in_range k i then ((/ sqrt 2) ^ k)%R else 0%R).
Proof.
  induction k as [|k IH]; intros i.
  - change (run_gates (hadamards (seq 0 0)) (basis 0) i) with (basis 0 i). unfold basis.
    destruct (Z.eqb_spec i 0) as [->|Hne]; [reflexivity|].
    replace (in_range 0 i) with false; [reflexivity|]. symmetry.
    unfold in_range. change (2 ^ Z.of_nat 0)%Z with 1%Z. apply andb_false_iff.
    destruct (Z.leb_spec 0 i); [right; apply Z.ltb_ge|left]; lia.
  - rewrite hadamards_seq_S, run_gates_app. cbn [run_gates fold_left].
    rewrite apply_H. change (fold_left _ _ ?p) with (run_gates [] p). cbn [run_gates fold_left].
    rewrite (IH i), (IH (flip k i)). destruct (bit i k) eqn:Hb.
    + rewrite (in_range_bit_high k i Hb), (in_range_succ_set k i Hb).
      destruct (in_range k (flip k i)); simpl; unfold Rdiv; ring.
    + rewrite (in_range_bit_high k (flip k i)) by (rewrite bit_flip_same, Hb; reflexivity).
      rewrite (in_range_succ_clear k i Hb). destruct (in_range k i); simpl; unfold Rdiv; ring.
Qed.

(** Adding a number below [2^k] to one with no bit below [k+1] leaves bit
    [k] clear. *)
Lemma bit_add_low (k : nat) (x y : Z) :
  low_zero (S k) x -> (0 <= y < 2 ^ Z.of_nat k)%Z -> bit (x + y) k = false.
Proof.
  intros Hx Hy.
  assert (Hyb : forall j, (Z.of_nat k <= j)%Z -> Z.testbit y j = false).
  { apply in_range_bits. unfold in_range. apply andb_true_iff; split; [apply Z.leb_le | apply Z.ltb_lt]; lia. }
  rewrite Z.add_nocarry_lxor.
  - unfold bit. rewrite Z.lxor_spec, Hx, Hyb by lia. reflexivity.
  - apply Z.bits_inj'. intros j Hj. rewrite Z.land_spec, Z.testbit_0_l.
    destruct (Z.ltb_spec j (Z.of_nat (S k))); [rewrite Hx by lia | rewrite (Hyb j) by lia];
      [reflexivity | apply andb_false_r].
Qed.

(** The inverse layer read at an index with no low bits: the normalised
    sum of the amplitudes it pairs with. *)
Lemma run_hadamards_rev_sum (k : nat) : forall (psi : state) (x : Z),
  low_zero k x ->
  run_gates (hadamards (rev (seq 0 k))) psi x =
  ((/ sqrt 2) ^ k * sum_pow2 k (fun y => psi (x + y)%Z))%R.
Proof.
  induction k as [|k IH]; intros psi x Hx.
  - cbn. rewrite Z.add_0_r. ring.
  - rewrite hadamards_rev_seq_S, run_gates_cons, IH by (intros j Hj; apply Hx; lia).
    rewrite (sum_pow2_ext k _ (fun y => (/ sqrt 2) * (psi (x + y)%Z + psi (x + y + 2 ^ Z.of_nat k)%Z))%R).
    + rewrite sum_pow2_scale, sum_pow2_plus. cbn [sum_pow2 pow].
      rewrite (sum_pow2_ext k (fun y => psi (x + y + 2 ^ Z.of_nat k)%Z)
                             (fun y => psi (x + (y + 2 ^ Z.of_nat k))%Z))
        by (intros y _; now rewrite Z.add_assoc).
      ring.
    + intros y Hy. rewrite apply_H, (bit_add_low k x y Hx Hy), flip_add
        by exact (bit_add_low k x y Hx Hy).
      unfold Rdiv. ring.
Qed.

End GateLaws.
