(* ===== verification/Oracle.v ===== *)
(** * Oracle: [grover_oracle] (src/main_2.py:38-66)

    [grover_oracle] wraps a single string into a list, takes the width
    from the first marked state, and for each target appends X gates on
    the zero indices of the reversed string, the [MCMT(ZGate(), n-1, 1)]
    phase flip, and the same X gates again.  [mark_target] is one round of
    the [for] loop and [mark_all] the loop itself, threading the circuit
    being built.

    Main results: on every success the oracle's unitary multiplies the
    amplitude of basis state [i] by [-1] exactly when an odd number of the
    targets match [i] ([grover_oracle_phase]); for distinct well-formed
    targets this is "flip iff [i] is marked" ([grover_oracle_marks]); the
    failures are an [IndexError] on an empty list, and for a first marked
    state of one character the [AttributeError] of [MCMT]'s guard (no
    control qubit), for an empty one the [CircuitError] of a negative
    control count ([grover_oracle_result]). *)

From Stdlib Require Import ZArith Reals Lra Lia List String Bool Morphisms.
From S2P Require Import Prelude BitString Circuit GateLaws.
Import ListNotations.
Import PyStr Circuit GateLaws.
Open Scope qstate_scope.

Module Oracle.

(** The argument of [grover_oracle]: a string or a list of strings. *)
Inductive marked_input : Type :=
| MarkedStr (s : string)
| MarkedList (l : list string).

(** [if not isinstance(marked_states, list): marked_states = [marked_states]] *)
Definition as_list (m : marked_input) : list string :=
  match m with
  | MarkedStr s => [s]
  | MarkedList l => l
  end.

(** One iteration of the loop, for [target]. *)
Definition mark_target (num_qubits : nat) (qc : circuit) (target : string)
  : result circuit :=
  let rev_target := py_reverse target in
  let zero_inds := zero_inds rev_target num_qubits in
  qc <- x qc zero_inds ;;
  mcmt <- MCMT_Z (Z.of_nat num_qubits - 1) 1 ;;
  qc <- compose qc mcmt ;;
  x qc zero_inds.

(** [for target in marked_states: ...] *)
Fixpoint mark_all (num_qubits : nat) (qc : circuit) (targets : list string)
  : result circuit :=
  match targets with
  | [] => Ok qc
  | target :: rest => qc' <- mark_target num_qubits qc target ;; mark_all num_qubits qc' rest
  end.

Definition grover_oracle (marked_states : marked_input) : result circuit :=
  let marked_states := as_list marked_states in
  match marked_states with
  | [] => Err IndexError
  | first :: _ =>
      let num_qubits := String.length first in
      let qc := QuantumCircuit num_qubits in
      mark_all num_qubits qc marked_states
  end.

(** ** Specification *)

(** Basis state [i] agrees with [target] on the [n] low qubits, under
    the code's reading of the string (reversed, ['0'] is an open
    control, anything else a closed one). *)
Definition matches (n : nat) (target : string) (i : Z) : bool :=
  forallb (fun q => Bool.eqb (bit i q) (oracle_bit (py_reverse target) q)) (seq 0 n).

(** Whether an odd number of targets match [i]: the phase the oracle
    gives to [|i>]. *)
Definition phase_parity (n : nat) (targets : list string) (i : Z) : bool :=
  fold_right (fun t acc => xorb (matches n t i) acc) false targets.

(** The gates one loop iteration appends. *)
Definition target_gates (n : nat) (target : string) : list gate :=
  let zs := zero_inds (py_reverse target) n in
  map XGate zs ++ [MCZ (seq 0 (n - 1)) (n - 1)] ++ map XGate zs.

Definition oracle_gates (n : nat) (targets : list string) : list gate :=
  flat_map (target_gates n) targets.

(** The script's input: [marked_states = ["011", "100"]]. *)
Definition marked_states : list string := ["011"%string; "100"%string].

(** The oracle the script builds from it. *)
Definition script_oracle : circuit :=
  mk_circuit 3 0 (map Op (oracle_gates 3 marked_states)) false.

(** One qubit: no control, Qiskit's [AttributeError]; no qubit: [-1]
    controls, a [CircuitError]. *)
Definition narrow_error (n : nat) : py_error :=
  if (n =? 1)%nat then AttributeError else CircuitError.

(** ** Construction: what the loop appends *)

Lemma zero_inds_in_range (r : string) (n : nat) :
  forallb (fun q => q <? n)%nat (zero_inds r n) = true.
Proof.
  apply forallb_forall. intros q Hq. apply Nat.ltb_lt.
  now apply zero_inds_spec in Hq as [Hq _].
Qed.

Lemma MCMT_Z_ok (n : nat) :
  (2 <= n)%nat ->
  MCMT_Z (Z.of_nat n - 1) 1 = Ok (mk_circuit n 0 [Op (MCZ (seq 0 (n - 1)) (n - 1))] false).
Proof.
  intros Hn. unfold MCMT_Z.
  replace (Z.of_nat n - 1 =? 0)%Z with false by (symmetry; apply Z.eqb_neq; lia).
  replace (Z.of_nat n - 1 <? 0)%Z with false by (symmetry; apply Z.ltb_ge; lia).
  simpl. replace (Z.to_nat (Z.of_nat n - 1)) with (n - 1)%nat by lia.
  now replace (S (n - 1)) with n by lia.
Qed.

Lemma MCMT_Z_err (n : nat) : (n <= 1)%nat -> MCMT_Z (Z.of_nat n - 1) 1 = Err (narrow_error n).
Proof. intros Hn. destruct n as [|[|n]]; [reflexivity | reflexivity | lia]. Qed.

Lemma mark_target_ok (n : nat) (qc : circuit) (t : string) :
  (2 <= n)%nat -> num_qubits qc = n ->
  mark_target n qc t = Ok (with_data qc (data qc ++ map Op (target_gates n t))).
Proof.
  intros Hn Hq. unfold mark_target, target_gates.
  rewrite x_ok by (rewrite Hq; apply zero_inds_in_range). rewrite bind_Ok, MCMT_Z_ok by exact Hn.
  rewrite bind_Ok, compose_ok by (simpl; lia).
  rewrite bind_Ok, x_ok by (simpl; rewrite Hq; apply zero_inds_in_range).
  unfold with_data; simpl. rewrite xorb_false_r, !map_app, !map_map, <- !app_assoc.
  simpl. now rewrite map_map.
Qed.

Lemma mark_all_ok (n : nat) (ts : list string) : forall (qc : circuit),
  (2 <= n)%nat -> num_qubits qc = n ->
  mark_all n qc ts = Ok (with_data qc (data qc ++ map Op (oracle_gates n ts))).
Proof.
  induction ts as [|t ts IH]; intros qc Hn Hq; simpl.
  - rewrite app_nil_r. now destruct qc.
  - rewrite mark_target_ok, bind_Ok, IH by (simpl; auto).
    unfold with_data, oracle_gates; simpl. now rewrite map_app, app_assoc.
Qed.

Lemma mark_all_err (n : nat) (t : string) (ts : list string) (qc : circuit) :
  (n <= 1)%nat -> num_qubits qc = n -> mark_all n qc (t :: ts) = Err (narrow_error n).
Proof.
  intros Hn Hq. simpl. unfold mark_target.
  rewrite x_ok by (rewrite Hq; apply zero_inds_in_range).
  now rewrite bind_Ok, MCMT_Z_err.
Qed.

(** ** Semantics of the appended gates *)

Lemma existsb_zero_inds (r : string) (n q : nat) :
  (q < n)%nat -> existsb (Nat.eqb q) (zero_inds r n) = py_startswith r "0" q.
Proof.
  intros Hq. apply Bool.eq_iff_eq_true. rewrite existsb_exists. split.
  - intros [y [Hy Heq]]. apply Nat.eqb_eq in Heq; subst. now apply zero_inds_spec in Hy.
  - intros H. exists q. split; [apply zero_inds_spec; auto | apply Nat.eqb_refl].
Qed.

(** The phase flip of one iteration: [X^zs; MCZ; X^zs] flips exactly the
    basis states that match the target. *)
Lemma run_target_gates (n : nat) (t : string) (psi : state) :
  (1 <= n)%nat -> run_gates (target_gates n t) psi ≡ (fun i => sgn (matches n t i) (psi i)).
Proof.
  intros Hn i. unfold target_gates.
  rewrite (run_open_controls n _ psi Hn (zero_inds_NoDup _ _) i). f_equal.
  unfold matches. apply forallb_ext_in. intros q Hq. apply in_seq in Hq.
  rewrite existsb_zero_inds by lia. unfold oracle_bit.
  destruct (bit i q), (py_startswith _ _ _); reflexivity.
Qed.

Lemma run_oracle_gates (n : nat) (ts : list string) (psi : state) :
  (1 <= n)%nat ->
  run_gates (oracle_gates n ts) psi ≡ (fun i => sgn (phase_parity n ts i) (psi i)).
Proof.
  intros Hn. revert psi. induction ts as [|t ts IH]; intros psi i; [reflexivity|].
  unfold oracle_gates. cbn [flat_map]. rewrite run_gates_app.
  rewrite (run_gates_Proper _ _ _ (run_target_gates n t psi Hn)).
  fold (oracle_gates n ts). rewrite IH. cbn [phase_parity fold_right].
  now rewrite sgn_xorb, xorb_comm.
Qed.

(** In range, matching the target is being its marked index. *)
Lemma matches_in_range (n : nat) (t : string) (i : Z) :
  in_range n i = true -> matches n t i = (i =? marked_index t n)%Z.
Proof.
  intros Hr. apply Bool.eq_iff_eq_true. unfold matches.
  rewrite forallb_forall, Z.eqb_eq. split.
  - intros H. apply Z.bits_inj'. intros k Hk.
    rewrite marked_index_testbit by exact Hk. destruct (Z.ltb_spec k (Z.of_nat n)).
    + specialize (H (Z.to_nat k) ltac:(apply in_seq; lia)).
      apply Bool.eqb_prop in H. unfold bit in H. now rewrite Z2Nat.id in H by lia.
    + now apply (proj1 (in_range_bits n i) Hr).
  - intros -> q Hq. apply in_seq in Hq. apply Bool.eqb_true_iff. unfold bit.
    rewrite marked_index_testbit, Nat2Z.id by lia.
    replace (Z.of_nat q <? Z.of_nat n)%Z with true by (symmetry; apply Z.ltb_lt; lia).
    reflexivity.
Qed.

(** ** Main theorems *)

(** [grover_oracle] on every input, by cases on the list. *)
Lemma grover_oracle_cases (m : marked_input) :
  grover_oracle m =
  match as_list m with
  | [] => Err IndexError
  | first :: _ =>
      let n := String.length first in
      if (2 <=? n)%nat
      then Ok (mk_circuit n 0 (map Op (oracle_gates n (as_list m))) false)
      else Err (if (n =? 1)%nat then AttributeError else CircuitError)
  end.
Proof.
  unfold grover_oracle. destruct (as_list m) as [|t ts]; [reflexivity|].
  cbv zeta. destruct (Nat.leb_spec 2 (String.length t)).
  - now rewrite mark_all_ok.
  - apply mark_all_err; simpl; lia.
Qed.

(** For distinct bit strings of width [n], the parity of the matches is
    membership among their binary values. *)
Lemma phase_parity_marks (n : nat) (ts : list string) (i : Z) :
  Forall (fun t => is_bitstring t = true /\ String.length t = n) ts ->
  NoDup (map bin_value ts) -> in_range n i = true ->
  phase_parity n ts i = existsb (Z.eqb i) (map bin_value ts).
Proof.
  intros Hwf Hnd Hr. rewrite <- (xor_fold_NoDup i _ Hnd). unfold phase_parity.
  clear Hnd. induction Hwf as [|t ts [Hb Hlen] _ IH]; [reflexivity|]. simpl.
  rewrite IH, matches_in_range by exact Hr. rewrite <- Hlen, marked_index_binary by exact Hb.
  reflexivity.
Qed.

(** The oracle's unitary, read off the gates of [grover_oracle_cases]. *)
Lemma run_grover_oracle (m : marked_input) (qc : circuit) :
  grover_oracle m = Ok qc ->
  forall psi, run qc psi ≡ (fun i => sgn (phase_parity (num_qubits qc) (as_list m) i) (psi i)).
Proof.
  rewrite grover_oracle_cases. destruct (as_list m) as [|t ts]; [discriminate|].
  cbv zeta. destruct (Nat.leb_spec 2 (String.length t)); [|discriminate].
  intros Hqc; injection Hqc as <-. intros psi i.
  unfold run, neg_if. cbn [phase_pi data num_qubits sgn].
  rewrite run_instrs_ops. exact (run_oracle_gates (String.length t) (t :: ts) psi ltac:(lia) i).
Qed.

(** C15: [grover_oracle] on every input: [IndexError] on an empty list,
    [AttributeError] (Qiskit's [MCMT] guard against no control qubit) when
    the first marked state has one character, [CircuitError] (a register
    of [-1] control qubits) when it is empty, and otherwise an [n]-qubit
    circuit, [n] the length of the first marked state, with no global
    phase, holding
    exactly the gates the loop appends for each marked state in order. *)
Theorem grover_oracle_result (m : marked_input) :
  grover_oracle m =
  match as_list m with
  | [] => Err IndexError
  | first :: _ =>
      let n := String.length first in
      if (2 <=? n)%nat
      then Ok (mk_circuit n 0 (map Op (oracle_gates n (as_list m))) false)
      else Err (if (n =? 1)%nat then AttributeError else CircuitError)
  end.
Proof. exact (grover_oracle_cases m). Qed.

(** C3: The oracle's unitary multiplies the amplitude of [|i>] by [-1] exactly
    when an odd number of the marked states match [i]. *)
Theorem grover_oracle_phase (m : marked_input) (qc : circuit) :
  grover_oracle m = Ok qc ->
  forall psi, run qc psi ≡ (fun i => sgn (phase_parity (num_qubits qc) (as_list m) i) (psi i)).
Proof. exact (run_grover_oracle m qc). Qed.

(** C4: For well-formed marked states (bit strings of the circuit's width, no
    two equal), the oracle flips the phase of a basis state of the register
    exactly when it is one of the marked states read as binary numbers. *)
Theorem grover_oracle_marks (ts : list string) (qc : circuit) :
  grover_oracle (MarkedList ts) = Ok qc ->
  Forall (fun t => is_bitstring t = true /\ String.length t = num_qubits qc) ts ->
  NoDup (map bin_value ts) ->
  forall psi i, in_range (num_qubits qc) i = true ->
  run qc psi i = sgn (existsb (Z.eqb i) (map bin_value ts)) (psi i).
Proof.
  intros Hqc Hwf Hnd psi i Hr. rewrite (run_grover_oracle _ _ Hqc psi i).
  f_equal. exact (phase_parity_marks _ ts i Hwf Hnd Hr).
Qed.

(** C20: A marked state listed twice is not marked at all: the two phase flips
    cancel, and the oracle is the identity. *)
Theorem grover_oracle_duplicate_cancels (t : string) (qc : circuit) :
  grover_oracle (MarkedList [t; t]) = Ok qc -> forall psi, run qc psi ≡ psi.
Proof.
  intros Hqc psi i. rewrite (run_grover_oracle _ _ Hqc psi i).
  simpl. now destruct (matches _ t i).
Qed.

(** C22: A marked state of one character makes [MCMT(ZGate(), 0, 1)]
    raise [AttributeError] (no control qubit), so the script cannot search
    a one-qubit space, where the spec (section 8) asks for a valid oracle;
    the empty string fails differently, with [CircuitError]. *)
Theorem grover_oracle_one_qubit (t : string) :
  String.length t = 1%nat ->
  grover_oracle (MarkedStr t) = Err AttributeError /\ grover_oracle (MarkedStr "") = Err CircuitError.
Proof.
  intros Hlen. split; [|reflexivity]. rewrite grover_oracle_cases. cbn [as_list]. cbv zeta.
  now rewrite Hlen.
Qed.

(** ** Concrete runs *)

Lemma script_oracle_built : grover_oracle (MarkedList marked_states) = Ok script_oracle.
Proof. vm_compute. reflexivity. Qed.

(** The spec's exhaustive check on three qubits: the signed-permutation
    reading of the gates the script appends sends every basis state to
    itself, with a sign exactly on [|011>] (index 3) and [|100>] (index 4). *)
Example script_oracle_table :
  map (pull (oracle_gates 3 marked_states)) [0; 1; 2; 3; 4; 5; 6; 7]%Z =
  [Some (false, 0); Some (false, 1); Some (false, 2); Some (true, 3);
   Some (true, 4); Some (false, 5); Some (false, 6); Some (false, 7)]%Z.
Proof. vm_compute. reflexivity. Qed.

Lemma grover_oracle_phase_witness :
  grover_oracle (MarkedList marked_states) = Ok script_oracle /\
  run script_oracle (basis 3) ≡
    (fun i => sgn (phase_parity (num_qubits script_oracle) (as_list (MarkedList marked_states)) i)
                  (basis 3 i)).
Proof.
  split; [exact script_oracle_built|].
  exact (grover_oracle_phase (MarkedList marked_states) script_oracle script_oracle_built (basis 3)).
Defined.

Lemma grover_oracle_marks_witness :
  grover_oracle (MarkedList marked_states) = Ok script_oracle /\
  Forall (fun t => is_bitstring t = true /\ String.length t = num_qubits script_oracle)
         marked_states /\
  NoDup (map bin_value marked_states) /\
  in_range (num_qubits script_oracle) 3 = true /\
  run script_oracle (basis 3) 3%Z = sgn (existsb (Z.eqb 3) (map bin_value marked_states)) (basis 3 3%Z).
Proof.
  assert (Hwf : Forall (fun t => is_bitstring t = true /\ String.length t = num_qubits script_oracle)
                       marked_states) by (repeat constructor).
  assert (Hnd : NoDup (map bin_value marked_states))
    by (vm_compute; constructor; [intros [H|[]]; discriminate | repeat constructor; intros []]).
  split; [exact script_oracle_built|]. split; [exact Hwf|]. split; [exact Hnd|].
  split; [reflexivity|].
  exact (grover_oracle_marks marked_states script_oracle script_oracle_built Hwf Hnd (basis 3) 3%Z
           eq_refl).
Defined.

Lemma grover_oracle_duplicate_cancels_witness :
  grover_oracle (MarkedList ["011"%string; "011"%string]) =
    Ok (mk_circuit 3 0 (map Op (oracle_gates 3 ["011"%string; "011"%string])) false) /\
  run (mk_circuit 3 0 (map Op (oracle_gates 3 ["011"%string; "011"%string])) false) (basis 3) ≡ basis 3.
Proof.
  assert (H : grover_oracle (MarkedList ["011"%string; "011"%string]) =
              Ok (mk_circuit 3 0 (map Op (oracle_gates 3 ["011"%string; "011"%string])) false))
    by (vm_compute; reflexivity).
  split; [exact H|]. exact (grover_oracle_duplicate_cancels "011"%string _ H (basis 3)).
Defined.

Lemma grover_oracle_one_qubit_witness :
  String.length "1"%string = 1%nat /\
  grover_oracle (MarkedStr "1"%string) = Err AttributeError /\ grover_oracle (MarkedStr "") = Err CircuitError.
Proof. split; [reflexivity | exact (grover_oracle_one_qubit "1"%string eq_refl)]. Defined.

(** C21: Marked states of different lengths are not rejected: with
    [["01", "101"]] the width is 2, the extra leading ['1'] of ["101"] is
    never read, both strings mark [|01>], and the two flips cancel. *)
Theorem grover_oracle_unequal_lengths :
  exists qc, grover_oracle (MarkedList ["01"%string; "101"%string]) = Ok qc /\
             forall psi, run qc psi ≡ psi.
Proof.
  pose (qc := mk_circuit 2 0 (map Op (oracle_gates 2 ["01"%string; "101"%string])) false).
  assert (H : grover_oracle (MarkedList ["01"%string; "101"%string]) = Ok qc)
    by (vm_compute; reflexivity).
  exists qc. split; [exact H|]. intros psi i.
  rewrite (run_grover_oracle _ qc H psi i).
  cbn [num_qubits qc as_list phase_parity fold_right].
  replace (matches 2 "101"%string i) with (matches 2 "01"%string i) by reflexivity.
  now destruct (matches 2 "01"%string i).
Qed.

(** C23: Characters other than ['0'] are read as ['1']: ["0a"] marks [|01>],
    the state of ["01"]. *)
Theorem grover_oracle_non_binary :
  exists qc qc', grover_oracle (MarkedStr "0a"%string) = Ok qc /\
                 grover_oracle (MarkedStr "01"%string) = Ok qc' /\
                 forall psi, run qc psi ≡ run qc' psi.
Proof.
  pose (qc := mk_circuit 2 0 (map Op (oracle_gates 2 ["0a"%string])) false).
  pose (qc' := mk_circuit 2 0 (map Op (oracle_gates 2 ["01"%string])) false).
  assert (H : grover_oracle (MarkedStr "0a"%string) = Ok qc) by (vm_compute; reflexivity).
  assert (H' : grover_oracle (MarkedStr "01"%string) = Ok qc') by (vm_compute; reflexivity).
  exists qc, qc'. split; [exact H|]. split; [exact H'|]. intros psi i.
  rewrite (run_grover_oracle _ qc H psi i), (run_grover_oracle _ qc' H' psi i).
  reflexivity.
Qed.

(** ** The oracle meets the [PhaseOracle] interface *)

Lemma grover_oracle_phase_oracle (m : marked_input) (qc : circuit) :
  grover_oracle m = Ok qc -> PhaseOracle qc (phase_parity (num_qubits qc) (as_list m)).
Proof.
  rewrite grover_oracle_cases. destruct (as_list m) as [|t ts]; [discriminate|].
  cbv zeta. destruct (2 <=? String.length t)%nat eqn:Hn; [|discriminate].
  apply Nat.leb_le in Hn. intros Hqc; injection Hqc as <-.
  refine {| po_gates := oracle_gates (String.length t) (t :: ts) |}; try reflexivity.
  - simpl. lia.
  - intros psi. exact (run_oracle_gates (String.length t) (t :: ts) psi ltac:(lia)).
Defined.

Lemma script_oracle_phase_oracle : PhaseOracle script_oracle (phase_parity 3 marked_states).
Proof.
  exact (grover_oracle_phase_oracle (MarkedList marked_states) script_oracle script_oracle_built).
Defined.
#[export] Existing Instance script_oracle_phase_oracle.

End Oracle.
