(* ===== verification/GroverOp.v ===== *)
(** * GroverOp: Qiskit's [GroverOperator(oracle)] (script line 74)

    [GroverOperator] is a library circuit; it is modelled here from
    Qiskit's construction (spec section 4.2): [state_preparation] is [H]
    on every qubit, [zero_reflection] flips the phase of [|0...0>] with X
    gates around a multi-controlled Z (a [Z] for one qubit, [H MCX H]
    otherwise), and the operator composes the oracle, the inverse state
    preparation, the zero reflection and the state preparation, then sets
    its global phase to pi.

    The abstract specification is the inversion about the mean
    ([reflect_mean]); [run_GroverOperator] proves that the circuit
    implements it after the oracle's phase flip, for any oracle meeting the
    [PhaseOracle] interface, and [grover_operator_diffusion] states it
    for the operator [build_grover_op] returns (script lines 71 and 74).
    [run_power] shows that [power] repeats a circuit of gates (the
    pipeline uses it for the script's [grover_op.power(optimal_num_iterations)]);
    [GroverOperator_zero_width] is the [IndexError] of an oracle of no
    qubit. *)

From Stdlib Require Import ZArith Reals Lra Lia List String Bool Morphisms.
From S2P Require Import Prelude BitString Circuit GateLaws Oracle.
Import ListNotations Circuit GateLaws Oracle.
Open Scope qstate_scope.

Module GroverOp.

(** [qubits[-1]]: Python raises [IndexError] on an empty list. *)
Definition py_last (l : list nat) : result nat :=
  match rev l with
  | [] => Err IndexError
  | q :: _ => Ok q
  end.

(** The default [state_preparation]: [hadamards.h(reflection_qubits)]. *)
Definition state_preparation (n : nat) : result circuit := h (QuantumCircuit n) (seq 0 n).

(** [_zero_reflection(num_state_qubits, qubits)] with no ancilla. *)
Definition zero_reflection (n : nat) : result circuit :=
  let qubits := seq 0 n in
  reflection <- x (QuantumCircuit n) qubits ;;
  reflection <-
    (if (List.length qubits =? 1)%nat
     then z reflection 0
     else t <- py_last qubits ;;
          reflection <- h reflection [t] ;;
          reflection <- mcx reflection (removelast qubits) t ;;
          h reflection [t]) ;;
  x reflection qubits.

(** [GroverOperator(oracle)]: oracle, inverse preparation, zero
    reflection, preparation, and [self.global_phase = numpy.pi]. *)
Definition GroverOperator (oracle : circuit) : result circuit :=
  let n := num_qubits oracle in
  sp <- state_preparation n ;;
  sp_inv <- inverse sp ;;
  s0 <- zero_reflection n ;;
  qc <- compose (QuantumCircuit n) oracle ;;
  qc <- compose qc sp_inv ;;
  qc <- compose qc s0 ;;
  qc <- compose qc sp ;;
  Ok (mk_circuit (num_qubits qc) (num_clbits qc) (data qc) true).

(** ** Specification *)

(** The mean amplitude of an [n]-qubit state. *)
Definition mean (n : nat) (phi : state) : R := (sum_pow2 n phi / 2 ^ n)%R.

(** Inversion about the mean: [2 mean - phi] on the register. *)
Definition reflect_mean (n : nat) (phi : state) : state :=
  fun i => if in_range n i then (2 * mean n phi - phi i)%R else 0%R.

(** The gates the zero reflection is made of, and the diffusion that
    follows the oracle in the operator. *)
Definition zero_reflection_gates (n : nat) : list gate :=
  map XGate (seq 0 n)
  ++ (if (n =? 1)%nat then [ZGate 0] else [HGate (n - 1); MCX (seq 0 (n - 1)) (n - 1); HGate (n - 1)])
  ++ map XGate (seq 0 n).

Definition diffusion_gates (n : nat) : list gate :=
  hadamards (rev (seq 0 n)) ++ zero_reflection_gates n ++ hadamards (seq 0 n).

(** Script lines 71 and 74: [oracle = grover_oracle(marked_states)] and
    [grover_op = GroverOperator(oracle)] (the drawing calls between them
    only render). *)
Definition build_grover_op (marked_states : marked_input) : result circuit :=
  oracle <- grover_oracle marked_states ;;
  GroverOperator oracle.

(** ** Construction *)

Lemma range_seq (n : nat) : forallb (fun q => q <? n)%nat (seq 0 n) = true.
Proof. apply forallb_forall. intros q Hq. apply in_seq in Hq. apply Nat.ltb_lt. lia. Qed.

Lemma gates_of_ops (gs : list gate) : gates_of (map Op gs) = Some (gs, false).
Proof. induction gs as [|g gs IH]; simpl; [reflexivity|]. now rewrite IH. Qed.

Lemma state_preparation_ok (n : nat) :
  state_preparation n = Ok (mk_circuit n 0 (map Op (hadamards (seq 0 n))) false).
Proof.
  unfold state_preparation. rewrite h_ok by apply range_seq.
  unfold with_data, hadamards; simpl. now rewrite map_map.
Qed.

Lemma inverse_ops (n c : nat) (gs : list gate) (p : bool) :
  inverse (mk_circuit n c (map Op gs) p) = Ok (mk_circuit n c (map Op (rev gs)) p).
Proof. unfold inverse; simpl. now rewrite gates_of_ops, xorb_false_r. Qed.

Lemma py_last_seq (n : nat) : (1 <= n)%nat -> py_last (seq 0 n) = Ok (n - 1)%nat.
Proof. intros Hn. unfold py_last. now rewrite (seq_last_split n Hn), rev_app_distr. Qed.

Lemma removelast_seq (n : nat) : (1 <= n)%nat -> removelast (seq 0 n) = seq 0 (n - 1).
Proof. intros Hn. rewrite (seq_last_split n Hn). apply removelast_last. Qed.

Lemma zero_reflection_ok (n : nat) :
  (1 <= n)%nat -> zero_reflection n = Ok (mk_circuit n 0 (map Op (zero_reflection_gates n)) false).
Proof.
  intros Hn. unfold zero_reflection, zero_reflection_gates.
  rewrite x_ok by apply range_seq. rewrite bind_Ok, length_seq.
  destruct (Nat.eqb_spec n 1) as [->|Hne].
  - reflexivity.
  - assert (Hlt : forallb (fun q => q <? n)%nat [n - 1] = true)
      by (simpl; rewrite andb_true_r; apply Nat.ltb_lt; lia).
    rewrite py_last_seq, bind_Ok by exact Hn.
    rewrite h_ok by exact Hlt. rewrite bind_Ok. unfold mcx.
    rewrite append_ok by (unfold append_check; cbn [instr_qubits gate_qubits num_qubits with_data];
      rewrite removelast_seq, <- seq_last_split by exact Hn; now rewrite range_seq, check_dups_seq).
    rewrite bind_Ok, h_ok by exact Hlt. rewrite bind_Ok, x_ok by apply range_seq.
    unfold with_data; simpl. rewrite removelast_seq by exact Hn.
    rewrite !map_app, !map_map, <- !app_assoc. simpl. now rewrite map_map.
Qed.

(** The operator built from a phase oracle: the oracle's gates followed
    by the diffusion, with global phase pi. *)
Lemma GroverOperator_ok (oracle : circuit) (f : Z -> bool) `{PhaseOracle oracle f} :
  GroverOperator oracle =
  Ok (mk_circuit (num_qubits oracle) 0
                 (map Op (po_gates ++ diffusion_gates (num_qubits oracle))) true).
Proof.
  pose proof po_width as Hw. pose proof po_clbits as Hc.
  pose proof (@po_data oracle f _) as Hd. unfold GroverOperator.
  rewrite state_preparation_ok, bind_Ok, inverse_ops, bind_Ok, zero_reflection_ok, bind_Ok
    by exact Hw.
  rewrite compose_ok by (simpl; lia). rewrite bind_Ok.
  rewrite compose_ok by (simpl; lia). rewrite bind_Ok.
  rewrite compose_ok by (simpl; lia). rewrite bind_Ok.
  rewrite compose_ok by (simpl; lia). rewrite bind_Ok.
  cbn [num_qubits num_clbits data QuantumCircuit app]. rewrite Hd.
  unfold diffusion_gates, hadamards. rewrite !map_app, !map_rev, <- !app_assoc. reflexivity.
Qed.

(** ** The reflection about zero *)

Lemma run_gates_mid (a m1 m2 b : list gate) (psi : state) :
  (forall phi, run_gates m1 phi ≡ run_gates m2 phi) ->
  run_gates (a ++ m1 ++ b) psi ≡ run_gates (a ++ m2 ++ b) psi.
Proof.
  intros Hm. rewrite !run_gates_app. apply run_gates_Proper, Hm.
Qed.

(** Both branches of [_zero_reflection] flip the phase of the basis states
    whose qubits are all 0. *)
Lemma run_zero_reflection_gates (n : nat) (chi : state) :
  (1 <= n)%nat ->
  run_gates (zero_reflection_gates n) chi ≡
  (fun i => sgn (forallb (fun q => negb (bit i q)) (seq 0 n)) (chi i)).
Proof.
  intros Hn. unfold zero_reflection_gates.
  etransitivity.
  { apply run_gates_mid with (m2 := [MCZ (seq 0 (n - 1)) (n - 1)]). intros phi.
    destruct (Nat.eqb_spec n 1) as [->|Hne].
    - intros i. cbn. now rewrite andb_true_r.
    - etransitivity; [apply H_MCX_H | reflexivity].
      rewrite in_seq. lia. }
  intros i. rewrite (run_open_controls n _ chi Hn (seq_NoDup n 0) i). f_equal.
  apply forallb_ext_in. intros q Hq.
  replace (existsb (Nat.eqb q) (seq 0 n)) with true; [now destruct (bit i q)|].
  symmetry. apply existsb_exists. exists q. split; [exact Hq | apply Nat.eqb_refl].
Qed.

(** In the register, all qubits 0 means the index 0. *)
Lemma all_qubits_zero (n : nat) (i : Z) :
  in_range n i = true -> forallb (fun q => negb (bit i q)) (seq 0 n) = (i =? 0)%Z.
Proof.
  intros Hr. apply Bool.eq_iff_eq_true. rewrite forallb_forall, Z.eqb_eq. split.
  - intros H. apply Z.bits_inj'. intros k Hk. rewrite Z.testbit_0_l.
    destruct (Z.ltb_spec k (Z.of_nat n)).
    + specialize (H (Z.to_nat k) ltac:(apply in_seq; lia)). unfold bit in H.
      rewrite Z2Nat.id in H by lia. now apply negb_true_iff in H.
    + now apply (proj1 (in_range_bits n i) Hr).
  - intros -> q _. unfold bit. now rewrite Z.testbit_0_l.
Qed.

Lemma zero_in_range (n : nat) : in_range n 0 = true.
Proof.
  unfold in_range. apply andb_true_iff. split; [reflexivity|].
  apply Z.ltb_lt. apply Z.pow_pos_nonneg; lia.
Qed.

(** On a state of the register, the reflection about zero is
    [chi - 2 chi(0) |0>]. *)
Lemma run_zero_reflection_supported (n : nat) (chi : state) :
  (1 <= n)%nat -> supported n chi ->
  run_gates (zero_reflection_gates n) chi ≡ lin 1 chi (-2 * chi 0%Z) (basis 0).
Proof.
  intros Hn Hs i. rewrite (run_zero_reflection_gates n chi Hn i). unfold lin, basis.
  destruct (in_range n i) eqn:Hr.
  - rewrite all_qubits_zero by exact Hr.
    destruct (Z.eqb_spec i 0) as [->|]; simpl; ring.
  - rewrite (Hs i Hr), sgn_0.
    destruct (Z.eqb_spec i 0) as [->|]; [now rewrite zero_in_range in Hr | ring].
Qed.

(** ** The diffusion: inversion about the mean, up to the global phase *)

Lemma diffusion_supported (n : nat) (phi : state) :
  (1 <= n)%nat -> supported n phi ->
  run_gates (diffusion_gates n) phi ≡ (fun i => - reflect_mean n phi i)%R.
Proof.
  intros Hn Hs i. unfold diffusion_gates. rewrite !run_gates_app.
  set (chi := run_gates (hadamards (rev (seq 0 n))) phi).
  assert (Hchi : supported n chi).
  { apply run_gates_supported; [|exact Hs]. unfold gates_in_range, hadamards.
    rewrite forallb_map_comp. apply forallb_forall. intros q Hq.
    apply in_rev, in_seq in Hq. simpl. rewrite andb_true_r. apply Nat.ltb_lt. lia. }
  rewrite (run_gates_Proper _ _ _ (run_zero_reflection_supported n chi Hn Hchi)).
  rewrite run_gates_lin. unfold lin.
  replace (run_gates (hadamards (seq 0 n)) chi i) with (phi i)
    by (symmetry; unfold chi; rewrite <- run_gates_app; apply run_hadamards_inverse).
  rewrite (run_hadamards_zero n i).
  unfold chi. rewrite run_hadamards_rev_sum by (intros j Hj; apply Z.testbit_0_l).
  rewrite (sum_pow2_ext n (fun y => phi (0 + y)%Z) phi) by (intros y _; now rewrite Z.add_0_l).
  unfold reflect_mean, mean. destruct (in_range n i) eqn:Hr.
  - unfold Rdiv. rewrite <- (inv_sqrt2_pow_twice n). ring.
  - rewrite (Hs i Hr). ring.
Qed.

(** ** The operator *)

Lemma run_GroverOperator (oracle G : circuit) (f : Z -> bool) `{PhaseOracle oracle f} :
  GroverOperator oracle = Ok G ->
  forall psi, supported (num_qubits oracle) psi ->
  run G psi ≡ reflect_mean (num_qubits oracle) (fun i => sgn (f i) (psi i)).
Proof.
  pose proof po_width as Hw. pose proof (@po_phase oracle f _) as Hp.
  rewrite (GroverOperator_ok oracle f). intros HG. injection HG as <-. intros psi Hs i.
  unfold run, neg_if. cbn [phase_pi data sgn]. rewrite run_instrs_ops, run_gates_app.
  rewrite (run_gates_Proper _ _ _ (Hp psi)).
  rewrite (diffusion_supported _ _ Hw); [ring|].
  intros j Hj. now rewrite (Hs j Hj), sgn_0.
Qed.

(** ** Repetition: [power] *)

Lemma iter_run_Proper (qc : circuit) (k : nat) :
  Proper (st_equiv ==> st_equiv) (Nat.iter k (run qc)).
Proof.
  induction k as [|k IH]; intros psi phi H; simpl; [exact H|]. apply run_Proper, IH, H.
Qed.

Lemma run_instrs_repeat (b : instr) (qc : circuit) (m : nat) :
  (forall phi, apply_instr b phi ≡ run qc phi) ->
  forall psi, run_instrs (repeat b m) psi ≡ Nat.iter m (run qc) psi.
Proof.
  intros Hb. induction m as [|m IH]; intros psi; [reflexivity|].
  change (run_instrs (repeat b (S m)) psi) with (run_instrs (repeat b m) (apply_instr b psi)).
  rewrite Nat.iter_succ_r. etransitivity; [apply IH|]. apply iter_run_Proper, Hb.
Qed.

(** [power] of a unitary circuit for [k >= 0]: [k] copies of its gate. *)
Lemma power_ok (name : string) (qc : circuit) (gs : list gate) (k : Z) :
  data qc = map Op gs -> (0 <= k)%Z ->
  power name qc k =
  Ok (mk_circuit (num_qubits qc) (num_clbits qc) (repeat (Block name gs (phase_pi qc)) (Z.to_nat k)) false).
Proof.
  intros Hd Hk. unfold power. replace (k <? 0)%Z with false by (symmetry; apply Z.ltb_ge; lia).
  destruct (Z.eqb_spec k 0) as [->|]; [reflexivity|].
  unfold to_gate. now rewrite Hd, gates_of_ops, bind_Ok, xorb_false_r.
Qed.

(** [qc.power(k)] of a circuit made of gates runs it [k] times; for
    [k = 0] it is the identity. *)
Lemma run_power (name : string) (qc pc : circuit) (gs : list gate) (k : nat) :
  data qc = map Op gs -> power name qc (Z.of_nat k) = Ok pc ->
  forall psi, run pc psi ≡ Nat.iter k (run qc) psi.
Proof.
  intros Hd. unfold power. destruct k as [|k].
  - cbn. intros Hp; injection Hp as <-. intros psi i. reflexivity.
  - replace (Z.of_nat (S k) <? 0)%Z with false by (symmetry; apply Z.ltb_ge; lia).
    replace (Z.of_nat (S k) =? 0)%Z with false by (symmetry; apply Z.eqb_neq; lia).
    unfold to_gate. rewrite Hd, gates_of_ops, bind_Ok, xorb_false_r, Nat2Z.id.
    intros Hp; injection Hp as <-. intros psi.
    intros i. unfold run at 1, neg_if. cbn [phase_pi data sgn].
    apply (run_instrs_repeat _ qc (S k)). intros phi j.
    unfold run. cbn [apply_instr]. now rewrite Hd, run_instrs_ops.
Qed.

(** What [build_grover_op] returns: the operator of the oracle, as wide. *)
Lemma build_grover_op_inv (m : marked_input) (G : circuit) :
  build_grover_op m = Ok G ->
  exists oracle, grover_oracle m = Ok oracle /\ GroverOperator oracle = Ok G /\
                 num_qubits G = num_qubits oracle.
Proof.
  unfold build_grover_op. destruct (grover_oracle m) as [oracle|e] eqn:Ho; [|discriminate].
  rewrite bind_Ok. intros HG. exists oracle. split; [reflexivity|]. split; [exact HG|].
  pose proof (grover_oracle_phase_oracle m oracle Ho) as po.
  rewrite (GroverOperator_ok oracle _) in HG. now injection HG as <-.
Qed.

(** The operator of the script's input. *)
Lemma script_build_grover_op :
  build_grover_op (MarkedList marked_states) =
  Ok (mk_circuit 3 0 (map Op (oracle_gates 3 marked_states ++ diffusion_gates 3)) true).
Proof. vm_compute. reflexivity. Qed.

(** ** Main theorem *)

(** C5: The Grover operator the script builds from its marked states
    (lines 71 and 74) maps a state [psi] of the register to the inversion
    about the mean of the phase-flipped state [(-1)^(f i) psi(i)], [f]
    the set the oracle marks: one amplitude-amplification round, the
    contract of spec section 4.2 (the operator's global phase pi cancels
    the sign of its zero reflection). *)
Theorem grover_operator_diffusion (m : marked_input) (G : circuit) :
  build_grover_op m = Ok G ->
  forall psi, supported (num_qubits G) psi ->
  run G psi ≡
  reflect_mean (num_qubits G) (fun i => sgn (phase_parity (num_qubits G) (as_list m) i) (psi i)).
Proof.
  intros HB. destruct (build_grover_op_inv m G HB) as (oracle & Ho & HG & ->).
  exact (@run_GroverOperator oracle G _ (grover_oracle_phase_oracle m oracle Ho) HG).
Qed.

Lemma grover_operator_diffusion_witness :
  exists G, build_grover_op (MarkedList marked_states) = Ok G /\
  supported (num_qubits G) (basis 0) /\
  run G (basis 0) ≡
  reflect_mean (num_qubits G)
    (fun i => sgn (phase_parity (num_qubits G) (as_list (MarkedList marked_states)) i) (basis 0 i)).
Proof.
  assert (Hs : supported 3 (basis 0)).
  { intros i Hi. unfold basis. destruct (Z.eqb_spec i 0) as [->|]; [discriminate Hi | reflexivity]. }
  eexists. split; [exact script_build_grover_op|]. split; [exact Hs|].
  exact (grover_operator_diffusion _ _ script_build_grover_op (basis 0) Hs).
Defined.

(** C25: [GroverOperator] on an oracle of no qubit raises [IndexError]:
    its zero reflection takes [qubits[-1]] of an empty list (the spec,
    section 4.2, names [InvalidInput] for this case).  The script never
    reaches it: every operator [build_grover_op] returns has at least two
    qubits, and every error of [build_grover_op] is the error of
    [grover_oracle], never one of [GroverOperator]. *)
Theorem GroverOperator_zero_width (m : marked_input) :
  (forall oracle, num_qubits oracle = 0%nat -> GroverOperator oracle = Err IndexError) /\
  match build_grover_op m with
  | Ok G => (2 <= num_qubits G)%nat
  | Err e => grover_oracle m = Err e
  end.
Proof.
  split; [intros oracle H; unfold GroverOperator; rewrite H; reflexivity|].
  unfold build_grover_op. destruct (grover_oracle m) as [oracle|e] eqn:Ho; [|reflexivity].
  pose proof (grover_oracle_phase_oracle m oracle Ho) as po.
  rewrite bind_Ok, (GroverOperator_ok oracle _). cbn [num_qubits].
  rewrite grover_oracle_cases in Ho. destruct (as_list m) as [|t ts]; [discriminate|].
  cbv zeta in Ho. destruct (Nat.leb_spec 2 (String.length t)); [|discriminate].
  injection Ho as <-. exact H.
Qed.

Lemma GroverOperator_zero_width_witness :
  num_qubits (QuantumCircuit 0) = 0%nat /\ GroverOperator (QuantumCircuit 0) = Err IndexError.
Proof.
  split; [reflexivity|].
  destruct (GroverOperator_zero_width (MarkedList marked_states)) as [H _].
  exact (H (QuantumCircuit 0) eq_refl).
Defined.

End GroverOp.
