(* ===== verification/Iterations.v ===== *)
(** * Iterations: the optimal number of Grover iterations (script lines 77-79)

    [optimal_num_iterations = math.floor(math.pi / 4 *
    math.sqrt(2**grover_op.num_qubits / len(marked_states)))].  The
    division by [len(marked_states)] raises [ZeroDivisionError] when no
    state is marked, and, being Python's true division of two ints,
    [OverflowError] when the quotient rounds past the largest double
    ([int_true_div_overflows], exact).  The other floating-point
    operations are modelled as the exact real operations they round
    ([Stdlib.Reals]: [PI], [sqrt], and [Zfloor] for [math.floor]).  This
    is an idealisation: where the exact value is within rounding of an
    integer the float floor can differ (at [n = 1024] with two marked
    states the quotient [2^1023] is exact but the float product is not);
    for the small widths the script uses the rounding cannot move the
    result across an integer (its value is 1 with a margin of 0.4).

    Results: the exact condition of the [OverflowError]
    ([optimal_num_iterations_overflow]); the floor characterised by
    integer inequalities on [PI^2] ([optimal_num_iterations_floor]); the
    count is at most [sqrt (2^n)] (the quadratic speed-up), it grows with
    the width, and the script's value for 3 qubits and 2 marked states
    is 1. *)

From Stdlib Require Import ZArith Reals Lra Lia Zfloor.
From S2P Require Import Prelude.

Module Iterations.

Open Scope R_scope.

(** Python's true division [a / b] of two ints returns the correctly
    rounded double and raises [OverflowError] when that rounds past the
    largest double [2^1024 - 2^971]: exactly when the quotient reaches the
    midpoint [2^1024 - 2^970], which rounds (to even) up to [2^1024]. *)
Definition int_true_div_overflows (a b : Z) : bool :=
  (b * (2 ^ 1024 - 2 ^ 970) <=? a)%Z.

Definition optimal_num_iterations (num_qubits num_marked : nat) : result Z :=
  if (num_marked =? 0)%nat then Err ZeroDivisionError
  else if int_true_div_overflows (2 ^ Z.of_nat num_qubits) (Z.of_nat num_marked)
  then Err OverflowError
  else Ok (Zfloor (PI / 4 * sqrt (2 ^ num_qubits / INR num_marked))).

(** ** Lemmas *)

(** Two digits of pi, from Machin's formula with [atan (1/3)] and
    [atan (1/7)]. *)
Lemma PI_bounds : 314 / 100 < PI < 315 / 100.
Proof.
  destruct (PI_2_3_7_ineq 1) as [Hlo Hhi].
  unfold PI_2_3_7_tg, tg_alt, Ratan_seq in *. simpl in *. lra.
Qed.

Lemma ratio_pos (n m : nat) : (m <> 0)%nat -> 0 < 2 ^ n / INR m.
Proof.
  intros Hm. apply Rdiv_lt_0_compat; [apply pow_lt; lra | apply lt_0_INR; lia].
Qed.

(** The real number whose floor is taken, and its square. *)
Lemma iteration_real_sq (n m : nat) :
  (m <> 0)%nat ->
  0 <= PI / 4 * sqrt (2 ^ n / INR m) /\
  (PI / 4 * sqrt (2 ^ n / INR m)) ^ 2 = PI ^ 2 * 2 ^ n / (16 * INR m).
Proof.
  intros Hm. pose proof (ratio_pos n m Hm) as Hr. pose proof PI_bounds.
  assert (HmR : 0 < INR m) by (apply lt_0_INR; lia).
  split.
  - apply Rmult_le_pos; [lra | apply sqrt_pos].
  - rewrite Rpow_mult_distr, pow2_sqrt by lra. field. lra.
Qed.

Lemma sq_le_iff (a b : R) : 0 <= a -> 0 <= b -> (a <= b <-> a ^ 2 <= b ^ 2).
Proof. intros Ha Hb. split; intros H; nra. Qed.

Lemma sq_lt_iff (a b : R) : 0 <= a -> 0 <= b -> (a < b <-> a ^ 2 < b ^ 2).
Proof. intros Ha Hb. split; intros H; nra. Qed.

Lemma scale_le_iff (c u v : R) : 0 < c -> (c * u <= c * v <-> u <= v).
Proof. intros Hc. split; intros H; nra. Qed.

Lemma scale_lt_iff (c u v : R) : 0 < c -> (c * u < c * v <-> u < v).
Proof. intros Hc. split; intros H; nra. Qed.

Lemma optimal_num_iterations_zero (n : nat) :
  optimal_num_iterations n 0 = Err ZeroDivisionError.
Proof. reflexivity. Qed.

(** ** Main theorems *)

Lemma optimal_num_iterations_floor (n m : nat) (k : Z) :
  (m <> 0)%nat -> int_true_div_overflows (2 ^ Z.of_nat n) (Z.of_nat m) = false ->
  optimal_num_iterations n m = Ok k <->
  (0 <= k)%Z /\ 16 * IZR k ^ 2 * INR m <= PI ^ 2 * 2 ^ n < 16 * (IZR k + 1) ^ 2 * INR m.
Proof.
  intros Hm Hov. unfold optimal_num_iterations. rewrite Hov.
  replace (m =? 0)%nat with false by (symmetry; apply Nat.eqb_neq; exact Hm).
  destruct (iteration_real_sq n m Hm) as [Hx0 Hx2].
  set (x := PI / 4 * sqrt (2 ^ n / INR m)) in *.
  assert (HmR : 0 < INR m) by (apply lt_0_INR; lia).
  assert (HN : PI ^ 2 * 2 ^ n = 16 * INR m * x ^ 2) by (rewrite Hx2; field; lra).
  rewrite HN.
  replace (16 * IZR k ^ 2 * INR m) with (16 * INR m * IZR k ^ 2) by ring.
  replace (16 * (IZR k + 1) ^ 2 * INR m) with (16 * INR m * (IZR k + 1) ^ 2) by ring.
  assert (H16 : 0 < 16 * INR m) by lra.
  rewrite !(scale_le_iff _ _ _ H16), !(scale_lt_iff _ _ _ H16).
  split.
  - intros H; injection H as <-. destruct (Zfloor_bound x) as [Hlo Hhi].
    assert (Hk : (0 <= Zfloor x)%Z) by (apply Zfloor_lub; simpl; lra).
    apply IZR_le in Hk. change (IZR 0) with 0 in Hk. split; [now apply le_IZR|].
    split; [apply (proj1 (sq_le_iff _ _ Hk Hx0)) | apply (proj1 (sq_lt_iff x (IZR (Zfloor x) + 1) Hx0 ltac:(lra)))];
      lra.
  - intros [Hk [H1 H2]]. apply IZR_le in Hk. change (IZR 0) with 0 in Hk.
    f_equal. apply Zfloor_eq.
    apply (proj2 (sq_le_iff _ _ Hk Hx0)) in H1. apply (proj2 (sq_lt_iff x (IZR k + 1) Hx0 ltac:(lra))) in H2.
    lra.
Qed.

(** For the script's input (3 qubits, 2 marked states) the count is 1. *)
Lemma optimal_num_iterations_script : optimal_num_iterations 3 2 = Ok 1%Z.
Proof.
  apply optimal_num_iterations_floor; [lia | reflexivity|]. pose proof PI_bounds. simpl. split; [lia|]. nra.
Qed.

(** C18: Fewer than [sqrt (2^n)] iterations: [k^2 < 2^n]. *)
Theorem optimal_num_iterations_bound (n m : nat) (k : Z) :
  optimal_num_iterations n m = Ok k -> IZR k ^ 2 < 2 ^ n.
Proof.
  intros H. destruct (Nat.eq_dec m 0) as [->|Hm]; [discriminate|].
  destruct (int_true_div_overflows (2 ^ Z.of_nat n) (Z.of_nat m)) eqn:Hov.
  { unfold optimal_num_iterations in H. rewrite Hov in H.
    destruct (m =? 0)%nat; discriminate. }
  apply optimal_num_iterations_floor in H as [Hk [H1 _]]; [|exact Hm|exact Hov].
  apply IZR_le in Hk. pose proof PI_bounds.
  assert (HmR : 1 <= INR m) by (apply (le_INR 1); lia).
  assert (HN : 0 < 2 ^ n) by (apply pow_lt; lra).
  assert (Hpi : PI ^ 2 * 2 ^ n < 16 * 2 ^ n) by (apply Rmult_lt_compat_r; nra).
  assert (Hk2 : 0 <= IZR k ^ 2) by nra.
  assert (16 * IZR k ^ 2 <= 16 * IZR k ^ 2 * INR m) by nra. lra.
Qed.

(** C19: A wider register never needs fewer iterations. *)
Theorem optimal_num_iterations_mono (n n' m : nat) (k k' : Z) :
  (n <= n')%nat ->
  optimal_num_iterations n m = Ok k -> optimal_num_iterations n' m = Ok k' -> (k <= k')%Z.
Proof.
  intros Hn H H'. unfold optimal_num_iterations in *. destruct (m =? 0)%nat eqn:Hm0; [discriminate|].
  destruct (int_true_div_overflows _ _) in H; [discriminate|].
  destruct (int_true_div_overflows _ _) in H'; [discriminate|].
  apply Nat.eqb_neq in Hm0. injection H as <-. injection H' as <-. apply Zfloor_le.
  apply Rmult_le_compat_l; [pose proof PI_bounds; lra|]. apply sqrt_le_1_alt.
  unfold Rdiv. apply Rmult_le_compat_r.
  - apply Rlt_le, Rinv_0_lt_compat, lt_0_INR; lia.
  - apply Rle_pow; [lra | exact Hn].
Qed.

Lemma optimal_num_iterations_4_2 : optimal_num_iterations 4 2 = Ok 2%Z.
Proof.
  apply optimal_num_iterations_floor; [lia | reflexivity|]. pose proof PI_bounds. simpl. split; [lia|]. nra.
Qed.

Lemma optimal_num_iterations_bound_witness :
  optimal_num_iterations 3 2 = Ok 1%Z /\ IZR 1 ^ 2 < 2 ^ 3.
Proof.
  split; [exact optimal_num_iterations_script|].
  exact (optimal_num_iterations_bound 3 2 1%Z optimal_num_iterations_script).
Defined.

Lemma optimal_num_iterations_mono_witness :
  (3 <= 4)%nat /\ optimal_num_iterations 3 2 = Ok 1%Z /\ optimal_num_iterations 4 2 = Ok 2%Z /\
  (1 <= 2)%Z.
Proof.
  split; [lia|]. split; [exact optimal_num_iterations_script|].
  split; [exact optimal_num_iterations_4_2|].
  exact (optimal_num_iterations_mono 3 4 2 1 2 ltac:(lia) optimal_num_iterations_script
           optimal_num_iterations_4_2).
Defined.



End Iterations.
