(* ===== verification/Amplification.v ===== *)
(** * Amplification: what repeated Grover operators do to the register

    The state the script's circuit reaches before [measure_all] is
    [Q^k H^n |0...0>], [Q = GroverOperator(oracle)].  Its amplitudes take
    two values only: [a] on the marked basis states (those the oracle
    flips) and [b] on the others ([two_level]).  One operator maps
    [(a, b)] to [amp_step (a, b)], the inversion about the mean after the
    phase flip, so [k] operators give [amplitudes k] and the probability of
    measuring a marked state is [M a_k^2] ([marked_probability]), [M] the
    number of marked states of the register.

    The recurrence has the closed form of the textbook analysis: with
    [sin theta = sqrt (M / N)], [a_k = sin ((2k+1) theta) / sqrt M], and
    the success probability is [sin^2 ((2k+1) theta)].

    The number of marked basis states is [len(marked_states)], the number
    the iteration count divides by, when the marked states are distinct
    bit strings of the register's width ([oracle_marks_length]); the
    duplicate and unequal-length findings of [Oracle] are the inputs on
    which the two differ.

    The lemmas are proved against the [PhaseOracle] interface; the main
    theorems are stated for the operator [build_grover_op] builds from
    the script's marked states. *)

From Stdlib Require Import ZArith Reals Lra Lia List String Bool Morphisms.
From S2P Require Import Prelude BitString Circuit GateLaws Oracle GroverOp.
Import ListNotations PyStr Circuit GateLaws Oracle GroverOp.
Open Scope qstate_scope.

Module Amplification.

Open Scope R_scope.

(** A state of the [n]-qubit register with amplitude [a] on the basis
    states [f] marks and [b] on the others. *)
Definition two_level (n : nat) (f : Z -> bool) (a b : R) : state :=
  fun i => if in_range n i then (if f i then a else b) else 0.

(** The number of basis states of the register [f] marks. *)
Definition marked_count (n : nat) (f : Z -> bool) : R :=
  sum_pow2 n (fun i => if f i then 1 else 0).

(** One Grover iteration on the two amplitudes, [N] basis states of which
    [M] are marked: the mean after the phase flip is [mu], and the
    inversion about it gives [2 mu + a] and [2 mu - b]. *)
Definition amp_step (N M : R) (ab : R * R) : R * R :=
  let '(a, b) := ab in
  let mu := (- a * M + b * (N - M)) / N in
  (2 * mu + a, 2 * mu - b).

(** The amplitudes after [k] iterations from the uniform superposition
    [H^n |0...0>], each amplitude [(1/sqrt 2)^n]. *)
Definition amplitudes (n : nat) (M : R) (k : nat) : R * R :=
  Nat.iter k (amp_step (2 ^ n) M) ((/ sqrt 2) ^ n, (/ sqrt 2) ^ n).

(** The probability that measuring the register gives a marked state. *)
Definition marked_probability (n : nat) (f : Z -> bool) (psi : state) : R :=
  sum_pow2 n (fun i => if f i then psi i ^ 2 else 0).

(** The total probability of a state of the register. *)
Definition norm2 (n : nat) (psi : state) : R := sum_pow2 n (fun i => psi i ^ 2).

(** The angle of the textbook analysis: [sin theta = sqrt (M / N)]. *)
Definition grover_angle (N M : R) : R := asin (sqrt (M / N)).

(** ** Lemmas *)

Lemma in_range_bounds (n : nat) (y : Z) :
  (0 <= y < 2 ^ Z.of_nat n)%Z -> in_range n y = true.
Proof. intros Hy. unfold in_range. apply andb_true_iff; split; [apply Z.leb_le | apply Z.ltb_lt]; lia. Qed.

Lemma two_level_supported (n : nat) (f : Z -> bool) (a b : R) : supported n (two_level n f a b).
Proof. intros i Hi. unfold two_level. now rewrite Hi. Qed.

(** The amplitudes after the phase flip add up to [- a M + b (N - M)]. *)
Lemma sum_two_level_flipped (n : nat) (f : Z -> bool) (a b : R) :
  sum_pow2 n (fun i => sgn (f i) (two_level n f a b i)) =
  - a * marked_count n f + b * (2 ^ n - marked_count n f).
Proof.
  rewrite (sum_pow2_ext n _ (fun i => (- a - b) * (if f i then 1 else 0) + b)).
  - rewrite sum_pow2_plus, sum_pow2_scale, sum_pow2_const. unfold marked_count. ring.
  - intros y Hy. unfold two_level. rewrite in_range_bounds by exact Hy.
    destruct (f y); simpl; ring.
Qed.

(** The same sum for the squares. *)
Lemma marked_probability_two_level (n : nat) (f : Z -> bool) (a b : R) :
  marked_probability n f (two_level n f a b) = marked_count n f * a ^ 2.
Proof.
  unfold marked_probability. rewrite (sum_pow2_ext n _ (fun i => a ^ 2 * (if f i then 1 else 0))).
  - rewrite sum_pow2_scale. unfold marked_count. ring.
  - intros y Hy. unfold two_level. rewrite in_range_bounds by exact Hy. destruct (f y); ring.
Qed.

(** The uniform superposition is a two-level state for every [f]. *)
Lemma uniform_two_level (n : nat) (f : Z -> bool) :
  run_gates (hadamards (seq 0 n)) (basis 0) ≡ two_level n f ((/ sqrt 2) ^ n) ((/ sqrt 2) ^ n).
Proof.
  intros i. rewrite run_hadamards_zero. unfold two_level. now destruct (in_range n i), (f i).
Qed.

(** ** Sums of indicators *)

Lemma sum_pow2_zero (n : nat) : sum_pow2 n (fun _ => 0) = 0.
Proof. rewrite sum_pow2_const. ring. Qed.

(** A single basis state of the register is counted once. *)
Lemma sum_pow2_delta (n : nat) : forall (v : Z),
  (0 <= v < 2 ^ Z.of_nat n)%Z -> sum_pow2 n (fun i => if (i =? v)%Z then 1 else 0) = 1.
Proof.
  induction n as [|k IH]; intros v Hv; cbn [sum_pow2].
  - replace v with 0%Z by (simpl in Hv; lia). reflexivity.
  - assert (Hk : (2 ^ Z.of_nat (S k) = 2 * 2 ^ Z.of_nat k)%Z)
      by (rewrite Nat2Z.inj_succ, Z.pow_succ_r; lia).
    destruct (Z.ltb_spec v (2 ^ Z.of_nat k)) as [Hlt|Hge].
    + rewrite IH by lia.
      rewrite (sum_pow2_ext k _ (fun _ => 0)); [rewrite sum_pow2_zero; ring|].
      intros y Hy. destruct (Z.eqb_spec (y + 2 ^ Z.of_nat k) v); [lia | reflexivity].
    + rewrite (sum_pow2_ext k (fun i => if (i =? v)%Z then 1 else 0) (fun _ => 0)).
      * rewrite sum_pow2_zero, Rplus_0_l.
        transitivity (sum_pow2 k (fun i => if (i =? v - 2 ^ Z.of_nat k)%Z then 1 else 0));
          [|apply IH; lia].
        apply sum_pow2_ext. intros y _.
        destruct (Z.eqb_spec (y + 2 ^ Z.of_nat k) v), (Z.eqb_spec y (v - 2 ^ Z.of_nat k));
          reflexivity || lia.
      * intros y Hy. destruct (Z.eqb_spec y v); [lia | reflexivity].
Qed.

(** Distinct indices of the register are counted once each. *)
Lemma sum_pow2_members (n : nat) (vals : list Z) :
  NoDup vals -> Forall (fun v => 0 <= v < 2 ^ Z.of_nat n)%Z vals ->
  sum_pow2 n (fun i => if existsb (Z.eqb i) vals then 1 else 0) = INR (List.length vals).
Proof.
  intros Hnd Hr. induction Hnd as [|v vs Hv Hnd IH]; cbn [existsb List.length].
  - apply sum_pow2_zero.
  - inversion Hr as [|? ? Hv0 Hvs]; subst.
    rewrite (sum_pow2_ext n _ (fun i => (if (i =? v)%Z then 1 else 0) +
                                       (if existsb (Z.eqb i) vs then 1 else 0))).
    + rewrite sum_pow2_plus, sum_pow2_delta, IH by assumption. rewrite S_INR. ring.
    + intros y _. destruct (Z.eqb_spec y v) as [->|]; simpl; [|ring].
      replace (existsb (Z.eqb v) vs) with false; [ring|].
      symmetry. apply Bool.not_true_iff_false. rewrite existsb_exists.
      intros (w & Hw & Hvw). apply Z.eqb_eq in Hvw. subst. contradiction.
Qed.

(** A bit string of length [n] reads as a number below [2^n]. *)
Lemma bin_value_range (t : string) :
  is_bitstring t = true -> (0 <= bin_value t < 2 ^ Z.of_nat (String.length t))%Z.
Proof. intros Hb. rewrite <- marked_index_binary by exact Hb. apply marked_index_range. Qed.

(** The number of basis states [phase_parity] marks, for well-formed,
    distinct marked states: their number. *)
Lemma marked_count_distinct (n : nat) (ts : list string) :
  Forall (fun t => is_bitstring t = true /\ String.length t = n) ts ->
  NoDup (map bin_value ts) ->
  marked_count n (phase_parity n ts) = INR (List.length ts).
Proof.
  intros Hwf Hnd. unfold marked_count.
  rewrite (sum_pow2_ext n _ (fun i => if existsb (Z.eqb i) (map bin_value ts) then 1 else 0)).
  - rewrite sum_pow2_members, length_map; [reflexivity | exact Hnd|].
    apply Forall_map. eapply Forall_impl; [|exact Hwf].
    intros t [Hb Hlen]. rewrite <- Hlen. now apply bin_value_range.
  - intros y Hy. rewrite (phase_parity_marks n ts y Hwf Hnd); [reflexivity|].
    now apply in_range_bounds.
Qed.

#[export] Instance marked_probability_Proper (n : nat) (f : Z -> bool) :
  Proper (st_equiv ==> eq) (marked_probability n f).
Proof. intros psi phi E. unfold marked_probability. apply sum_pow2_ext. intros y _. now rewrite E. Qed.

#[export] Instance norm2_Proper (n : nat) : Proper (st_equiv ==> eq) (norm2 n).
Proof. intros psi phi E. unfold norm2. apply sum_pow2_ext. intros y _. now rewrite E. Qed.

#[export] Instance two_level_Proper (n : nat) (f : Z -> bool) :
  Proper (eq ==> eq ==> st_equiv) (two_level n f).
Proof. intros a a' -> b b' -> i. reflexivity. Qed.

Section Oracle.

Context (oracle G : circuit) (f : Z -> bool) `{PhaseOracle oracle f}.
Hypothesis HG : GroverOperator oracle = Ok G.

Let n := num_qubits oracle.

(** One operator on a two-level state is [amp_step]. *)
Lemma run_two_level (a b : R) :
  run G (two_level n f a b) ≡
  two_level n f (fst (amp_step (2 ^ n) (marked_count n f) (a, b)))
                (snd (amp_step (2 ^ n) (marked_count n f) (a, b))).
Proof.
  intros i. rewrite (run_GroverOperator oracle G f HG _ (two_level_supported n f a b) i).
  fold n. unfold reflect_mean, mean. rewrite sum_two_level_flipped.
  assert (HN : 0 < 2 ^ n) by (apply pow_lt; lra).
  unfold two_level, amp_step, sgn; simpl.
  destruct (in_range n i), (f i); [field | field | reflexivity | reflexivity]; lra.
Qed.

(** [k] operators on a two-level state iterate [amp_step]. *)
Lemma iter_two_level (k : nat) (a b : R) :
  Nat.iter k (run G) (two_level n f a b) ≡
  two_level n f (fst (Nat.iter k (amp_step (2 ^ n) (marked_count n f)) (a, b)))
                (snd (Nat.iter k (amp_step (2 ^ n) (marked_count n f)) (a, b))).
Proof.
  induction k as [|k IH]; intros i; [reflexivity|]. rewrite !Nat.iter_succ.
  rewrite (run_Proper G _ _ IH i).
  destruct (Nat.iter k (amp_step (2 ^ n) (marked_count n f)) (a, b)). apply run_two_level.
Qed.

(** From the uniform superposition. *)
Lemma iter_uniform (k : nat) :
  Nat.iter k (run G) (run_gates (hadamards (seq 0 n)) (basis 0)) ≡
  two_level n f (fst (amplitudes n (marked_count n f) k)) (snd (amplitudes n (marked_count n f) k)).
Proof.
  intros i. rewrite (iter_run_Proper G k _ _ (uniform_two_level n f) i). apply iter_two_level.
Qed.

End Oracle.

(** ** The closed form *)

Lemma sqrt_pow_2 (n : nat) : sqrt (2 ^ n) = sqrt 2 ^ n.
Proof.
  induction n as [|n IH]; simpl; [exact sqrt_1|].
  rewrite sqrt_mult by (try apply pow_le; lra). now rewrite IH.
Qed.

Lemma uniform_amplitude (n : nat) : (/ sqrt 2) ^ n = / sqrt (2 ^ n).
Proof. now rewrite pow_inv, sqrt_pow_2. Qed.

Section Angle.

Context (N M : R).
Hypothesis HM : 0 < M < N.

Let p := sqrt M.
Let q := sqrt (N - M).
Let r := sqrt N.
Let theta := grover_angle N M.

Lemma angle_facts :
  0 < p /\ 0 < q /\ 0 < r /\ p * p = M /\ q * q = N - M /\ r * r = N /\
  sin theta = p / r /\ cos theta = q / r.
Proof.
  assert (Hp : 0 < p) by (apply sqrt_lt_R0; lra).
  assert (Hq : 0 < q) by (apply sqrt_lt_R0; lra).
  assert (Hr : 0 < r) by (apply sqrt_lt_R0; lra).
  assert (Hx : -1 <= sqrt (M / N) <= 1).
  { split; [pose proof (sqrt_pos (M / N)); lra|].
    rewrite <- sqrt_1. apply sqrt_le_1_alt. unfold Rdiv. rewrite <- (Rinv_r N) by lra. apply Rmult_le_compat_r; [apply Rlt_le, Rinv_0_lt_compat|]; lra. }
  unfold theta, grover_angle. rewrite sin_asin, cos_asin by exact Hx.
  rewrite Rsqr_sqrt by (apply Rlt_le, Rdiv_lt_0_compat; lra).
  replace (1 - M / N) with ((N - M) / N) by (field; lra).
  rewrite !sqrt_div_alt by lra.
  repeat split; try assumption; apply sqrt_sqrt; lra.
Qed.

Lemma sin_2theta : sin (2 * theta) = 2 * p * q / N.
Proof.
  destruct angle_facts as (Hp & Hq & Hr & _ & _ & HrN & Hs & Hc).
  rewrite sin_2a, Hs, Hc, <- HrN. field. lra.
Qed.

Lemma cos_2theta : cos (2 * theta) = 1 - 2 * M / N.
Proof.
  destruct angle_facts as (Hp & Hq & Hr & HpM & _ & HrN & Hs & _).
  rewrite cos_2a_sin, Hs, <- HrN, <- HpM. field. lra.
Qed.

(** An iteration turns the amplitudes by the angle [2 theta]. *)
Lemma amp_step_rotate (x : R) :
  amp_step N M (sin x / p, cos x / q) = (sin (x + 2 * theta) / p, cos (x + 2 * theta) / q).
Proof.
  destruct angle_facts as (Hp & Hq & Hr & HpM & HqK & _ & _ & _).
  rewrite sin_plus, cos_plus, sin_2theta, cos_2theta. unfold amp_step.
  rewrite <- HqK. replace N with (p * p + q * q) by lra. rewrite <- HpM.
  f_equal; field; nra.
Qed.

Lemma iter_amp_step (k : nat) :
  Nat.iter k (amp_step N M) (/ r, / r) =
  (sin ((2 * INR k + 1) * theta) / p, cos ((2 * INR k + 1) * theta) / q).
Proof.
  destruct angle_facts as (Hp & Hq & Hr & _ & _ & _ & Hs & Hc).
  induction k as [|k IH].
  - change (Nat.iter 0 (amp_step N M) (/ r, / r)) with (/ r, / r). cbn [INR].
    rewrite Rmult_0_r, Rplus_0_l, Rmult_1_l, Hs, Hc.
    f_equal; field; lra.
  - rewrite Nat.iter_succ, IH, amp_step_rotate, S_INR. f_equal; f_equal; f_equal; ring.
Qed.

End Angle.

(** The success probability after [k] iterations, [M a_k^2]. *)
Lemma amplitudes_success (n : nat) (M : R) (k : nat) :
  0 < M < 2 ^ n ->
  M * fst (amplitudes n M k) ^ 2 = sin ((2 * INR k + 1) * grover_angle (2 ^ n) M) ^ 2.
Proof.
  intros HM. unfold amplitudes. rewrite uniform_amplitude, (iter_amp_step _ _ HM k). cbn [fst].
  destruct (angle_facts _ _ HM) as (Hp & _ & _ & HpM & _).
  rewrite <- HpM at 1. field. lra.
Qed.

(** ["011"] and ["100"]: two of the eight basis states are marked. *)
Lemma script_marked_count : marked_count 3 (phase_parity 3 marked_states) = 2.
Proof. unfold marked_count. cbn [sum_pow2]. vm_compute (phase_parity _ _ _). lra. Qed.

(** The uniform superposition after [k] operators built by the script. *)
Lemma build_iter_uniform (m : marked_input) (G : circuit) (k : nat) :
  build_grover_op m = Ok G ->
  Nat.iter k (run G) (run_gates (hadamards (seq 0 (num_qubits G))) (basis 0)) ≡
  two_level (num_qubits G) (phase_parity (num_qubits G) (as_list m))
    (fst (amplitudes (num_qubits G) (marked_count (num_qubits G) (phase_parity (num_qubits G) (as_list m))) k))
    (snd (amplitudes (num_qubits G) (marked_count (num_qubits G) (phase_parity (num_qubits G) (as_list m))) k)).
Proof.
  intros HB. destruct (build_grover_op_inv m G HB) as (oracle & Ho & HG & ->).
  exact (@iter_uniform oracle G _ (grover_oracle_phase_oracle m oracle Ho) HG k).
Qed.

(** ** Main theorems

    [G] is the operator the script builds from its marked states
    ([build_grover_op], script lines 71 and 74); [f] is the set the
    oracle marks, [phase_parity]. *)

Section Theorems.

Context (m : marked_input) (G : circuit).
Hypothesis HB : build_grover_op m = Ok G.

(** C8: After [k] Grover operators on the uniform superposition the
    register is in a two-level state: amplitude [a_k] on every marked
    basis state and [b_k] on every other one, [(a_k, b_k)] the [k]-th
    iterate of the inversion about the mean ([amp_step]) from
    [(2^(-n/2), 2^(-n/2))]. *)
Theorem grover_iterations_two_level (k : nat) :
  Nat.iter k (run G) (run_gates (hadamards (seq 0 (num_qubits G))) (basis 0)) ≡
  two_level (num_qubits G) (phase_parity (num_qubits G) (as_list m))
    (fst (amplitudes (num_qubits G) (marked_count (num_qubits G) (phase_parity (num_qubits G) (as_list m))) k))
    (snd (amplitudes (num_qubits G) (marked_count (num_qubits G) (phase_parity (num_qubits G) (as_list m))) k)).
Proof. exact (build_iter_uniform m G k HB). Qed.

(** C6: With [M] of the [N = 2^n] basis states marked, [0 < M < N], the
    probability of measuring a marked state after [k] Grover operators
    is [sin^2 ((2k+1) theta)], [sin theta = sqrt (M / N)]. *)
Theorem grover_success_probability (k : nat) :
  0 < marked_count (num_qubits G) (phase_parity (num_qubits G) (as_list m)) < 2 ^ num_qubits G ->
  marked_probability (num_qubits G) (phase_parity (num_qubits G) (as_list m))
    (Nat.iter k (run G) (run_gates (hadamards (seq 0 (num_qubits G))) (basis 0))) =
  sin ((2 * INR k + 1) *
       grover_angle (2 ^ num_qubits G)
         (marked_count (num_qubits G) (phase_parity (num_qubits G) (as_list m)))) ^ 2.
Proof.
  intros HM. rewrite (build_iter_uniform m G k HB), marked_probability_two_level.
  exact (amplitudes_success _ _ k HM).
Qed.

End Theorems.

Lemma grover_iterations_two_level_witness :
  exists G, build_grover_op (MarkedList marked_states) = Ok G /\
  Nat.iter 1 (run G) (run_gates (hadamards (seq 0 (num_qubits G))) (basis 0)) ≡
  two_level (num_qubits G) (phase_parity (num_qubits G) marked_states)
    (fst (amplitudes (num_qubits G) (marked_count (num_qubits G) (phase_parity (num_qubits G) marked_states)) 1))
    (snd (amplitudes (num_qubits G) (marked_count (num_qubits G) (phase_parity (num_qubits G) marked_states)) 1)).
Proof.
  eexists. split; [exact script_build_grover_op|].
  exact (grover_iterations_two_level _ _ script_build_grover_op 1).
Defined.

Lemma grover_success_probability_witness :
  exists G, build_grover_op (MarkedList marked_states) = Ok G /\
  0 < marked_count (num_qubits G) (phase_parity (num_qubits G) marked_states) < 2 ^ num_qubits G /\
  marked_probability (num_qubits G) (phase_parity (num_qubits G) marked_states)
    (Nat.iter 1 (run G) (run_gates (hadamards (seq 0 (num_qubits G))) (basis 0))) =
  sin ((2 * INR 1 + 1) *
       grover_angle (2 ^ num_qubits G)
         (marked_count (num_qubits G) (phase_parity (num_qubits G) marked_states))) ^ 2.
Proof.
  assert (HM : 0 < marked_count 3 (phase_parity 3 marked_states) < 2 ^ 3)
    by (rewrite script_marked_count; simpl; lra).
  eexists. split; [exact script_build_grover_op|]. split; [exact HM|].
  exact (grover_success_probability _ _ script_build_grover_op 1 HM).
Defined.

(** C10: On well-formed input (distinct bit strings, all as long as the
    first), the oracle circuit flips the sign of exactly
    [len(marked_states)] basis states of the register: the set [f] whose
    amplitudes its unitary negates has [len(marked_states)] elements,
    the number the iteration count divides by. *)
Theorem oracle_marks_length (ts : list string) (qc : circuit) :
  grover_oracle (MarkedList ts) = Ok qc ->
  Forall (fun t => is_bitstring t = true /\ String.length t = num_qubits qc) ts ->
  NoDup (map bin_value ts) ->
  exists f, (forall psi, run qc psi ≡ (fun i => sgn (f i) (psi i))) /\
            marked_count (num_qubits qc) f = INR (List.length ts).
Proof.
  intros Hqc Hwf Hnd. exists (phase_parity (num_qubits qc) ts). split.
  - exact (run_grover_oracle _ _ Hqc).
  - exact (marked_count_distinct _ ts Hwf Hnd).
Qed.

Lemma oracle_marks_length_witness :
  grover_oracle (MarkedList marked_states) = Ok script_oracle /\
  Forall (fun t => is_bitstring t = true /\ String.length t = num_qubits script_oracle)
         marked_states /\
  NoDup (map bin_value marked_states) /\
  exists f, (forall psi, run script_oracle psi ≡ (fun i => sgn (f i) (psi i))) /\
            marked_count (num_qubits script_oracle) f = INR (List.length marked_states).
Proof.
  assert (Hwf : Forall (fun t => is_bitstring t = true /\ String.length t = num_qubits script_oracle)
                       marked_states) by (repeat constructor).
  assert (Hnd : NoDup (map bin_value marked_states))
    by (vm_compute; constructor; [intros [H|[]]; discriminate | repeat constructor; intros []]).
  split; [exact script_oracle_built|]. split; [exact Hwf|]. split; [exact Hnd|].
  exact (oracle_marks_length marked_states script_oracle script_oracle_built Hwf Hnd).
Defined.

End Amplification.
