(* ===== verification/Pipeline.v ===== *)
(** * Pipeline: the script's search circuit (script lines 71-86)

    [marked_states = ["011", "100"]], the oracle, [grover_op =
    GroverOperator(oracle)], the iteration count, and the circuit
    [qc = QuantumCircuit(n); qc.h(range(n));
    qc.compose(grover_op.power(k), inplace=True); qc.measure_all()],
    composed in [grover_circuit] as the script composes them, each
    library call returning its error where Python would raise.

    [grover_circuit_state] gives the state the circuit prepares for any
    list of marked states (the two-level state of [Amplification]);
    [grover_circuit_success] the probability of measuring a marked state
    for any list of distinct bit strings of one length;
    [script_distribution] is the end-to-end result for the script's input:
    the outcomes [011] and [100] (indices 3 and 4) have probability 1/2
    each and every other outcome probability 0; [script_circuit_structure]
    the circuit itself as the spec counts it.  The sampler and the runtime
    statements (lines 89-102) are in [Sampler] and [Runtime];
    [probability] is the distribution the sampler draws its shots from. *)

From Stdlib Require Import ZArith Reals Lra Lia List String Bool Morphisms.
From S2P Require Import Prelude BitString Circuit GateLaws Oracle GroverOp Iterations Amplification.
Import ListNotations PyStr Circuit GateLaws Oracle GroverOp Iterations Amplification.
Open Scope qstate_scope.

Module Pipeline.

(** Script lines 71-86, from the marked list to the measured circuit. *)
Definition grover_circuit (marked_states : list string) : result circuit :=
  grover_op <- build_grover_op (MarkedList marked_states) ;;
  k <- optimal_num_iterations (num_qubits grover_op) (List.length marked_states) ;;
  qc <- h (QuantumCircuit (num_qubits grover_op)) (seq 0 (num_qubits grover_op)) ;;
  grover_pow <- power "Q" grover_op k ;;
  qc <- compose qc grover_pow ;;
  Ok (measure_all qc).

(** The probability that the measured outcome is one of [vals]. *)
Definition measured_mass (qc : circuit) (vals : list Z) : R :=
  fold_right (fun v acc => (probability qc v + acc)%R) 0%R vals.

(** ** Lemmas *)

Lemma measured_mass_const (qc : circuit) (vals : list Z) (c : R) :
  (forall v, In v vals -> probability qc v = c) -> measured_mass qc vals = (INR (List.length vals) * c)%R.
Proof.
  induction vals as [|v vs IH]; intros Hc; simpl; [ring|].
  rewrite (Hc v (or_introl eq_refl)), IH by (intros w Hw; apply Hc; now right).
  destruct (List.length vs); simpl; ring.
Qed.

Lemma run_instrs_measures (n c : nat) (psi : state) :
  run_instrs (Barrier (seq 0 n) :: map (fun q => Measure q (c + q)) (seq 0 n)) psi = psi.
Proof.
  unfold run_instrs. cbn [fold_left apply_instr].
  generalize (seq 0 n). intros qs. revert psi. induction qs as [|q qs IH]; intros psi; [reflexivity|].
  apply IH.
Qed.

(** Barriers and measurements leave the amplitudes as they are. *)
Lemma run_measure_all (qc : circuit) (psi : state) : run (measure_all qc) psi = run qc psi.
Proof. unfold run, measure_all. cbn [data phase_pi]. now rewrite run_instrs_app, run_instrs_measures. Qed.

Lemma optimal_num_iterations_nonneg (n m : nat) (k : Z) :
  optimal_num_iterations n m = Ok k -> (0 <= k)%Z.
Proof.
  intros H. destruct (Nat.eq_dec m 0) as [->|Hm]; [discriminate|].
  destruct (int_true_div_overflows (2 ^ Z.of_nat n) (Z.of_nat m)) eqn:Hov.
  - unfold optimal_num_iterations in H. rewrite Hov in H. destruct (m =? 0)%nat; discriminate.
  - now apply (optimal_num_iterations_floor n m k Hm Hov) in H as [Hk _].
Qed.

(** The circuit built from a phase oracle and a count [k]. *)
Lemma grover_circuit_ok (ms : list string) (oracle : circuit) (k : Z) :
  grover_oracle (MarkedList ms) = Ok oracle ->
  optimal_num_iterations (num_qubits oracle) (List.length ms) = Ok k ->
  forall (po : PhaseOracle oracle (phase_parity (num_qubits oracle) ms)),
  grover_circuit ms =
  Ok (measure_all
        (mk_circuit (num_qubits oracle) 0
           (map Op (hadamards (seq 0 (num_qubits oracle))) ++
            repeat (Block "Q" (@po_gates _ _ po ++ diffusion_gates (num_qubits oracle)) true)
                   (Z.to_nat k))
           false)).
Proof.
  intros Ho Hk po. unfold grover_circuit, build_grover_op.
  rewrite Ho, bind_Ok, (GroverOperator_ok oracle _), bind_Ok.
  cbn [num_qubits num_clbits phase_pi data]. rewrite Hk, bind_Ok.
  change (h (QuantumCircuit (num_qubits oracle)) (seq 0 (num_qubits oracle)))
    with (state_preparation (num_qubits oracle)).
  rewrite state_preparation_ok, bind_Ok.
  rewrite (power_ok "Q" (mk_circuit (num_qubits oracle) 0 (map Op (po_gates ++ diffusion_gates (num_qubits oracle))) true)
    _ k eq_refl (optimal_num_iterations_nonneg _ _ _ Hk)). cbn [num_qubits num_clbits phase_pi].
  rewrite bind_Ok, compose_ok by (simpl; lia). reflexivity.
Qed.

(** The state the circuit prepares, given the oracle's interface. *)
Lemma final_state_grover (ms : list string) (oracle : circuit) (k : Z)
  (po : PhaseOracle oracle (phase_parity (num_qubits oracle) ms)) :
  final_state
    (measure_all
       (mk_circuit (num_qubits oracle) 0
          (map Op (hadamards (seq 0 (num_qubits oracle))) ++
           repeat (Block "Q" (@po_gates _ _ po ++ diffusion_gates (num_qubits oracle)) true)
                  (Z.to_nat k))
          false)) ≡
  two_level (num_qubits oracle) (phase_parity (num_qubits oracle) ms)
    (fst (amplitudes (num_qubits oracle) (marked_count (num_qubits oracle) (phase_parity (num_qubits oracle) ms)) (Z.to_nat k)))
    (snd (amplitudes (num_qubits oracle) (marked_count (num_qubits oracle) (phase_parity (num_qubits oracle) ms)) (Z.to_nat k))).
Proof.
  intros i. unfold final_state. rewrite run_measure_all. unfold run at 1, neg_if.
  cbn [data phase_pi sgn]. rewrite run_instrs_app, run_instrs_ops.
  rewrite (run_instrs_repeat _ (mk_circuit (num_qubits oracle) 0
             (map Op (po_gates ++ diffusion_gates (num_qubits oracle))) true)).
  - exact (iter_uniform oracle _ _ (GroverOperator_ok oracle _) (Z.to_nat k) i).
  - intros phi j. unfold run. cbn [apply_instr data phase_pi]. now rewrite run_instrs_ops.
Qed.

(** [grover_circuit] fails exactly where its first failing call fails. *)
Lemma grover_circuit_run (ms : list string) (qc : circuit) :
  grover_circuit ms = Ok qc ->
  exists k, optimal_num_iterations (num_qubits qc) (List.length ms) = Ok k /\
  final_state qc ≡
  two_level (num_qubits qc) (phase_parity (num_qubits qc) ms)
    (fst (amplitudes (num_qubits qc) (marked_count (num_qubits qc) (phase_parity (num_qubits qc) ms)) (Z.to_nat k)))
    (snd (amplitudes (num_qubits qc) (marked_count (num_qubits qc) (phase_parity (num_qubits qc) ms)) (Z.to_nat k))).
Proof.
  intros H. destruct (grover_oracle (MarkedList ms)) as [oracle|e] eqn:Ho;
    [|unfold grover_circuit, build_grover_op in H; now rewrite Ho in H].
  pose proof (grover_oracle_phase_oracle _ _ Ho) as po. cbn [as_list] in po.
  destruct (optimal_num_iterations (num_qubits oracle) (List.length ms)) as [k|e] eqn:Hk.
  - rewrite (grover_circuit_ok ms oracle k Ho Hk po) in H. injection H as <-.
    exists k. split; [exact Hk|]. exact (final_state_grover ms oracle k po).
  - unfold grover_circuit, build_grover_op in H.
    rewrite Ho, bind_Ok, (GroverOperator_ok oracle _), bind_Ok in H.
    cbn [num_qubits] in H. now rewrite Hk in H.
Qed.

(** The probability of a marked outcome, for well-formed input. *)
Lemma grover_circuit_success_run (ms : list string) (qc : circuit) :
  grover_circuit ms = Ok qc ->
  Forall (fun t => is_bitstring t = true /\ String.length t = num_qubits qc) ms ->
  NoDup (map bin_value ms) ->
  (0 < INR (List.length ms) < 2 ^ num_qubits qc)%R ->
  exists k, optimal_num_iterations (num_qubits qc) (List.length ms) = Ok k /\
  measured_mass qc (map bin_value ms) =
  (sin ((2 * INR (Z.to_nat k) + 1) * grover_angle (2 ^ num_qubits qc) (INR (List.length ms))) ^ 2)%R.
Proof.
  intros H Hwf Hnd HM. destruct (grover_circuit_run ms qc H) as (k & Hk & Hst).
  exists k. split; [exact Hk|].
  rewrite (marked_count_distinct _ ms Hwf Hnd) in Hst.
  rewrite <- (amplitudes_success _ _ (Z.to_nat k) HM), measured_mass_const with
    (c := (fst (amplitudes (num_qubits qc) (INR (List.length ms)) (Z.to_nat k)) ^ 2)%R).
  - now rewrite length_map.
  - intros v Hv. unfold probability. rewrite (Hst v). unfold two_level.
    apply in_map_iff in Hv as (t & <- & Ht).
    pose proof (proj1 (Forall_forall _ _) Hwf t Ht) as [Hb Hlen].
    assert (Hr : in_range (num_qubits qc) (bin_value t) = true)
      by (apply in_range_bounds; rewrite <- Hlen; now apply bin_value_range).
    rewrite Hr, (phase_parity_marks _ ms _ Hwf Hnd Hr).
    replace (existsb (Z.eqb (bin_value t)) (map bin_value ms)) with true; [reflexivity|].
    symmetry. apply existsb_exists. exists (bin_value t). split; [now apply in_map | apply Z.eqb_refl].
Qed.

(** ** The script's input *)

Lemma script_amplitudes : amplitudes 3 2 1 = (2 * (/ sqrt 2) ^ 3, 0).
Proof.
  unfold amplitudes. rewrite Nat.iter_succ. change (Nat.iter 0 _ ?x) with x. cbn [amp_step].
  pose proof (sqrt_lt_R0 2 ltac:(lra)). f_equal; field; lra.
Qed.

(** On the register, the oracle of ["011"] and ["100"] marks 3 and 4. *)
Lemma script_marked (i : Z) :
  in_range 3 i = true -> phase_parity 3 marked_states i = (i =? 3)%Z || (i =? 4)%Z.
Proof.
  unfold in_range. intros Hr. apply andb_true_iff in Hr as [H1 H2].
  apply Z.leb_le in H1. apply Z.ltb_lt in H2. change (2 ^ Z.of_nat 3)%Z with 8%Z in H2.
  assert (Hi : (i = 0 \/ i = 1 \/ i = 2 \/ i = 3 \/ i = 4 \/ i = 5 \/ i = 6 \/ i = 7)%Z) by lia.
  repeat destruct Hi as [->|Hi]; try (subst; vm_compute; reflexivity).
Qed.

Lemma script_distribution_run :
  exists qc, grover_circuit marked_states = Ok qc /\ num_qubits qc = 3%nat /\
  optimal_num_iterations 3 (List.length marked_states) = Ok 1%Z /\
  forall i, probability qc i = if (i =? 3)%Z || (i =? 4)%Z then 1 / 2 else 0.
Proof.
  pose proof script_oracle_phase_oracle as po.
  eexists. split; [exact (grover_circuit_ok marked_states script_oracle 1 script_oracle_built
                            optimal_num_iterations_script po)|].
  split; [reflexivity|]. split; [exact optimal_num_iterations_script|].
  intros i. unfold probability. rewrite (final_state_grover marked_states script_oracle 1 po i).
  cbn [num_qubits script_oracle]. change (Z.to_nat 1) with 1%nat.
  rewrite script_marked_count, script_amplitudes. cbn [fst snd]. unfold two_level.
  destruct (in_range 3 i) eqn:Hr.
  - rewrite script_marked by exact Hr. destruct ((i =? 3)%Z || (i =? 4)%Z).
    + rewrite Rpow_mult_distr, inv_sqrt2_pow_sq. simpl. field.
    + simpl. ring.
  - replace ((i =? 3)%Z || (i =? 4)%Z) with false; [simpl; ring|].
    symmetry. apply orb_false_iff. split; apply Z.eqb_neq; intros ->; discriminate Hr.
Qed.

(** The gates under [map Op] are determined by the instructions. *)
Lemma map_Op_inj (gs gs' : list gate) : map Op gs = map Op gs' -> gs = gs'.
Proof.
  revert gs'. induction gs as [|g gs IH]; intros [|g' gs'] H; try discriminate; [reflexivity|].
  injection H as -> H. f_equal. now apply IH.
Qed.

(** C1: End to end, for the script's input [["011", "100"]]: the
    circuit is built without error on three qubits, runs one Grover
    iteration, and measuring it gives [011] (index 3) and [100] (index 4)
    with probability 1/2 each and any other outcome with probability 0:
    the marked states are found with certainty. *)
Theorem script_distribution :
  exists qc, grover_circuit marked_states = Ok qc /\ num_qubits qc = 3%nat /\
  optimal_num_iterations 3 (List.length marked_states) = Ok 1%Z /\
  forall i, probability qc i = if (i =? 3)%Z || (i =? 4)%Z then 1 / 2 else 0.
Proof. exact script_distribution_run. Qed.

(** C11: The structure of the script's circuit, as the spec's end-to-end
    scenario counts it: three Hadamard gates (the superposition layer),
    one block of the Grover operator holding one application of the
    oracle (the gates [grover_oracle] appends for ["011"] and ["100"]) and
    one diffusion, then [measure_all]'s barrier and three measurements,
    qubit [q] into classical bit [q]. *)
Theorem script_circuit_structure :
  exists qc, grover_circuit marked_states = Ok qc /\ num_clbits qc = 3%nat /\
  data qc = [Op (HGate 0); Op (HGate 1); Op (HGate 2);
             Block "Q" (oracle_gates 3 marked_states ++ diffusion_gates 3) true;
             Barrier [0; 1; 2]; Measure 0 0; Measure 1 1; Measure 2 2]%nat.
Proof.
  pose proof script_oracle_phase_oracle as po.
  assert (Hg : @po_gates script_oracle (phase_parity (num_qubits script_oracle) marked_states) po =
               oracle_gates 3 marked_states).
  { apply map_Op_inj. exact (eq_sym (@po_data _ _ po)). }
  eexists. split; [exact (grover_circuit_ok marked_states script_oracle 1 script_oracle_built
                            optimal_num_iterations_script po)|].
  rewrite Hg. split; reflexivity.
Qed.

(** C9: For any marked list on which the script's circuit is built, it
    prepares (before [measure_all]) the two-level state of
    [Amplification]: [k] Grover iterations from the uniform superposition,
    [k] the count of [optimal_num_iterations] for the width and the number
    of listed states, amplitude [a_k] on the states the oracle marks and
    [b_k] on the others. *)
Theorem grover_circuit_state (ms : list string) (qc : circuit) :
  grover_circuit ms = Ok qc ->
  exists k, optimal_num_iterations (num_qubits qc) (List.length ms) = Ok k /\
  final_state qc ≡
  two_level (num_qubits qc) (phase_parity (num_qubits qc) ms)
    (fst (amplitudes (num_qubits qc) (marked_count (num_qubits qc) (phase_parity (num_qubits qc) ms)) (Z.to_nat k)))
    (snd (amplitudes (num_qubits qc) (marked_count (num_qubits qc) (phase_parity (num_qubits qc) ms)) (Z.to_nat k))).
Proof. exact (grover_circuit_run ms qc). Qed.

Lemma grover_circuit_state_witness :
  exists qc, grover_circuit marked_states = Ok qc /\
  exists k, optimal_num_iterations (num_qubits qc) (List.length marked_states) = Ok k /\
  final_state qc ≡
  two_level (num_qubits qc) (phase_parity (num_qubits qc) marked_states)
    (fst (amplitudes (num_qubits qc) (marked_count (num_qubits qc) (phase_parity (num_qubits qc) marked_states)) (Z.to_nat k)))
    (snd (amplitudes (num_qubits qc) (marked_count (num_qubits qc) (phase_parity (num_qubits qc) marked_states)) (Z.to_nat k))).
Proof.
  pose proof (grover_circuit_ok marked_states script_oracle 1 script_oracle_built
                optimal_num_iterations_script script_oracle_phase_oracle) as H.
  eexists. split; [exact H|]. exact (grover_circuit_state _ _ H).
Defined.

(** C2: For any list of distinct bit strings of one length [n], with
    [0 < M < 2^n] of them, the circuit the script builds is measured as one
    of the marked states with probability [sin^2 ((2k+1) theta)], where
    [sin theta = sqrt (M / 2^n)] and [k] is the count
    [optimal_num_iterations] computes. *)
Theorem grover_circuit_success (ms : list string) (qc : circuit) :
  grover_circuit ms = Ok qc ->
  Forall (fun t => is_bitstring t = true /\ String.length t = num_qubits qc) ms ->
  NoDup (map bin_value ms) ->
  (0 < INR (List.length ms) < 2 ^ num_qubits qc)%R ->
  exists k, optimal_num_iterations (num_qubits qc) (List.length ms) = Ok k /\
  measured_mass qc (map bin_value ms) =
  (sin ((2 * INR (Z.to_nat k) + 1) * grover_angle (2 ^ num_qubits qc) (INR (List.length ms))) ^ 2)%R.
Proof. exact (grover_circuit_success_run ms qc). Qed.

Lemma grover_circuit_success_witness :
  exists qc, grover_circuit marked_states = Ok qc /\
  Forall (fun t => is_bitstring t = true /\ String.length t = num_qubits qc) marked_states /\
  NoDup (map bin_value marked_states) /\
  (0 < INR (List.length marked_states) < 2 ^ num_qubits qc)%R /\
  exists k, optimal_num_iterations (num_qubits qc) (List.length marked_states) = Ok k /\
  measured_mass qc (map bin_value marked_states) =
  (sin ((2 * INR (Z.to_nat k) + 1) * grover_angle (2 ^ num_qubits qc) (INR (List.length marked_states))) ^ 2)%R.
Proof.
  pose proof (grover_circuit_ok marked_states script_oracle 1 script_oracle_built
                optimal_num_iterations_script script_oracle_phase_oracle) as H.
  assert (Hwf : Forall (fun t => is_bitstring t = true /\ String.length t = 3%nat) marked_states)
    by (repeat constructor).
  assert (Hnd : NoDup (map bin_value marked_states))
    by (vm_compute; constructor; [intros [Hc|[]]; discriminate | repeat constructor; intros []]).
  assert (HM : (0 < INR (List.length marked_states) < 2 ^ 3)%R) by (simpl; lra).
  eexists. split; [exact H|]. split; [exact Hwf|]. split; [exact Hnd|]. split; [exact HM|].
  exact (grover_circuit_success _ _ H Hwf Hnd HM).
Defined.

End Pipeline.
