(* ===== verification/ClassicalSearch.v ===== *)
(** * ClassicalSearch: the classical search the script starts with (lines 1-23)

    [my_list = rand.sample(range(0, 10), 10)] is a random permutation of
    [0 .. 9]; the draw is the environment's, so the theorems hold for every
    permutation ([is_sample]).  [the_oracle] compares its input with the
    winner [7]; the loop over [enumerate(my_list)] calls it on each entry
    until it answers [True], prints the index and the number of calls, and
    breaks.  The state of the loop is what it prints and the number of
    oracle calls made so far ([search_state]); the calls are counted so the
    printed count can be compared with the real one.

    The loop is modelled twice: as a function ([search_loop]) and as a
    step relation on configurations ([loop_step], one iteration per
    step, in the style of a small-step semantics).

    Results: the loop is [list_find] of stdpp; on every sample the winner
    is found, at its index, after exactly [index + 1 <= 10] calls, and the
    printed count is the number of calls made.  Along every run of the
    step relation the invariant "calls made = index reached" holds
    ([loop_invariant_holds], by induction on runs). *)

From stdpp Require Import base list numbers relations.

Module ClassicalSearch.

(** What the script prints. *)
Inductive event : Type :=
  | PrintList (l : list Z)          (* print(my_list) *)
  | WinnerFound (index : nat)       (* print(f'winner found at index {index}') *)
  | CallsUsed (calls : nat).        (* print(f'{index + 1} call to the Oracle used') *)

Record search_state : Type := mk_search {
  output : list event;
  oracle_calls : nat
}.

(** [the_oracle(input)]. *)
Definition the_oracle (input : Z) : bool :=
  let winner := 7%Z in
  if Z.eqb input winner then true else false.

(** One call to the oracle, counted. *)
Definition call_oracle (st : search_state) (input : Z) : bool * search_state :=
  (the_oracle input, mk_search (output st) (S (oracle_calls st))).

Definition emit (st : search_state) (e : event) : search_state :=
  mk_search (output st ++ [e]) (oracle_calls st).

(** [for index, trial_number in enumerate(my_list, index)]: the loop
    from position [index] on, with its [break]. *)
Fixpoint search_loop (index : nat) (l : list Z) (st : search_state) : search_state :=
  match l with
  | [] => st
  | trial_number :: l' =>
      let '(found, st) := call_oracle st trial_number in
      if found
      then emit (emit st (WinnerFound index)) (CallsUsed (index + 1))
      else search_loop (S index) l' st
  end.

(** Lines 5-23: print the sample, then search it. *)
Definition classical_search (my_list : list Z) : search_state :=
  search_loop 0 my_list (mk_search [PrintList my_list] 0).

(** [rand.sample(range(0, 10), 10)]: some permutation of [0 .. 9]. *)
Definition is_sample (my_list : list Z) : Prop :=
  my_list ≡ₚ Z.of_nat <$> seq 0 10.

(** The winner: the value [the_oracle] accepts. *)
Definition is_winner (x : Z) : Prop := the_oracle x = true.

(** ** The loop as a state machine

    The [for ... break] loop, one iteration per step: a running
    configuration holds the index [enumerate] gives next, the entries
    left, and the state; the loop stops when the oracle answers [True]
    (after the two prints and the [break]) or when the list is
    exhausted. *)
Inductive config : Type :=
  | Running (index : nat) (rest : list Z) (st : search_state)
  | Done (st : search_state).

Inductive loop_step : config -> config -> Prop :=
  | step_miss index trial_number rest st :
      the_oracle trial_number = false ->
      loop_step (Running index (trial_number :: rest) st)
                (Running (S index) rest (snd (call_oracle st trial_number)))
  | step_hit index trial_number rest st :
      the_oracle trial_number = true ->
      loop_step (Running index (trial_number :: rest) st)
                (Done (emit (emit (snd (call_oracle st trial_number)) (WinnerFound index))
                            (CallsUsed (index + 1))))
  | step_exhausted index st :
      loop_step (Running index [] st) (Done st).

(** The configuration after [print(my_list)]. *)
Definition initial_config (my_list : list Z) : config :=
  Running 0 my_list (mk_search [PrintList my_list] 0).

(** ** Lemmas *)

Lemma the_oracle_spec (x : Z) : the_oracle x = true <-> x = 7%Z.
Proof. unfold the_oracle. destruct (Z.eqb_spec x 7); split; congruence. Qed.

(** The loop is stdpp's [list_find] of the oracle, with the calls it
    makes: [i + 1] when the winner is at [i], all of them otherwise. *)
Lemma search_loop_list_find (l : list Z) : forall (index : nat) (st : search_state),
  search_loop index l st =
  match list_find is_winner l with
  | Some (i, _) =>
      mk_search (output st ++ [WinnerFound (index + i); CallsUsed (index + i + 1)])
                (oracle_calls st + i + 1)
  | None => mk_search (output st) (oracle_calls st + length l)
  end.
Proof.
  induction l as [|t l IH]; intros index st; simpl.
  - destruct st; simpl. f_equal. lia.
  - case_decide as Hw; unfold is_winner in Hw.
    + rewrite Hw. unfold emit; simpl.
      rewrite <- app_assoc, !Nat.add_0_r. f_equal. lia.
    + apply not_true_is_false in Hw. rewrite Hw, IH. simpl.
      destruct (list_find is_winner l) as [[i x]|]; simpl; f_equal; try lia.
      replace (index + S i) with (S (index + i)) by lia.
      replace (S (index + i) + 1) with (S (index + i + 1)) by lia. reflexivity.
Qed.

Lemma classical_search_eq (my_list : list Z) :
  classical_search my_list =
  match list_find is_winner my_list with
  | Some (i, _) => mk_search [PrintList my_list; WinnerFound i; CallsUsed (i + 1)] (i + 1)
  | None => mk_search [PrintList my_list] (length my_list)
  end.
Proof.
  unfold classical_search. rewrite search_loop_list_find. simpl.
  now destruct (list_find is_winner my_list) as [[i x]|].
Qed.

(** What the loop keeps between iterations: the calls made are the
    index reached, the entries left are the list from that index on, and
    only the list has been printed. *)
Lemma loop_invariant (my_list : list Z) (c : config) :
  rtc loop_step (initial_config my_list) c ->
  forall index rest st, c = Running index rest st ->
  oracle_calls st = index /\ rest = drop index my_list /\ output st = [PrintList my_list].
Proof.
  intros Hrun.
  refine (rtc_ind_r (fun c => forall index rest st, c = Running index rest st ->
            oracle_calls st = index /\ rest = drop index my_list /\ output st = [PrintList my_list])
            (initial_config my_list) _ _ c Hrun).
  - intros index rest st Hc. injection Hc as <- <- <-. auto.
  - intros c2 c3 _ Hstep IH index rest st Hc.
    inversion Hstep as [i t rest0 st0 Ht E2 E3| |]; subst; try discriminate.
    injection E3 as <- <- <-.
    destruct (IH _ _ _ eq_refl) as (Hcalls & Hrest & Hout). simpl.
    split; [lia|]. split; [|exact Hout].
    replace (S i) with (i + 1)%nat by lia. rewrite <- drop_drop, <- Hrest. reflexivity.
Qed.

(** The loop on a sample. *)
Lemma classical_search_on_sample (my_list : list Z) :
  is_sample my_list ->
  exists i, my_list !! i = Some 7%Z /\ (i < 10)%nat /\
  classical_search my_list =
    mk_search [PrintList my_list; WinnerFound i; CallsUsed (i + 1)] (i + 1).
Proof.
  intros Hs. unfold is_sample in Hs. rewrite classical_search_eq.
  assert (H7 : (7%Z) ∈ my_list).
  { rewrite Hs. apply list_elem_of_fmap. exists 7%nat. split; [reflexivity|]. apply elem_of_seq. lia. }
  destruct (list_find_elem_of is_winner my_list 7%Z H7 eq_refl) as [[i x] Hf].
  rewrite Hf. apply list_find_Some in Hf as (Hi & Hx & _).
  apply the_oracle_spec in Hx as ->. exists i. split; [exact Hi|]. split; [|reflexivity].
  apply lookup_lt_Some in Hi. rewrite (Permutation_length Hs), length_fmap, length_seq in Hi.
  exact Hi.
Qed.

(** ** Main theorems *)

(** C26: The classical loop is a linear search: it prints the list and,
    when some entry satisfies the oracle, the index [i] of the first such
    entry and [i + 1] calls, having called the oracle [i + 1] times;
    otherwise it prints nothing more, having called it once per entry.
    The index is the one stdpp's [list_find] returns. *)
Theorem classical_search_list_find (my_list : list Z) :
  classical_search my_list =
  match list_find is_winner my_list with
  | Some (i, _) => mk_search [PrintList my_list; WinnerFound i; CallsUsed (i + 1)] (i + 1)
  | None => mk_search [PrintList my_list] (length my_list)
  end.
Proof. exact (classical_search_eq my_list). Qed.

(** C27: On every sample [rand.sample(range(0, 10), 10)] can draw, the
    loop finds the winner 7 at its index [i] in the list, after exactly
    [i + 1 <= 10] oracle calls, and the number it prints is the number of
    calls it made. *)
Theorem classical_search_sample (my_list : list Z) :
  is_sample my_list ->
  exists i, my_list !! i = Some 7%Z /\ (i < 10)%nat /\
  classical_search my_list =
    mk_search [PrintList my_list; WinnerFound i; CallsUsed (i + 1)] (i + 1).
Proof. exact (classical_search_on_sample my_list). Qed.

Lemma classical_search_sample_witness :
  is_sample [3; 1; 4; 0; 5; 9; 2; 6; 8; 7]%Z /\
  exists i, [3; 1; 4; 0; 5; 9; 2; 6; 8; 7]%Z !! i = Some 7%Z /\ (i < 10)%nat /\
  classical_search [3; 1; 4; 0; 5; 9; 2; 6; 8; 7]%Z =
    mk_search [PrintList [3; 1; 4; 0; 5; 9; 2; 6; 8; 7]%Z; WinnerFound i; CallsUsed (i + 1)] (i + 1).
Proof.
  assert (Hs : is_sample [3; 1; 4; 0; 5; 9; 2; 6; 8; 7]%Z) by (unfold is_sample; apply (bool_decide_unpack _); vm_compute; reflexivity).
  split; [exact Hs|]. exact (classical_search_sample _ Hs).
Defined.

(** C28: Along every run from the start, a running configuration has made
    as many oracle calls as the index it has reached, has left exactly
    the entries from that index on, and has printed only the list: the
    printed [index + 1] is the count of calls. *)
Theorem loop_invariant_holds (my_list : list Z) (index : nat) (rest : list Z) (st : search_state) :
  rtc loop_step (initial_config my_list) (Running index rest st) ->
  oracle_calls st = index /\ rest = drop index my_list /\ output st = [PrintList my_list].
Proof. intros H. exact (loop_invariant my_list _ H index rest st eq_refl). Qed.

Lemma loop_invariant_holds_witness :
  rtc loop_step (initial_config [7%Z]) (Running 0 [7%Z] (mk_search [PrintList [7%Z]] 0)) /\
  (oracle_calls (mk_search [PrintList [7%Z]] 0) = 0%nat /\ [7%Z] = drop 0 [7%Z] /\
   output (mk_search [PrintList [7%Z]] 0) = [PrintList [7%Z]]).
Proof.
  assert (H : rtc loop_step (initial_config [7%Z]) (Running 0 [7%Z] (mk_search [PrintList [7%Z]] 0)))
    by apply rtc_refl.
  split; [exact H|]. exact (loop_invariant_holds _ _ _ _ H).
Defined.

End ClassicalSearch.
