(* ===== verification/Sampler.v ===== *)
(** * Sampler: the keys of the sampled distribution (script lines 97-99)

    [quasi_dists[0]] is keyed by the measured outcomes as integers, and
    [binary_probabilities()] turns each key into the bit string of the
    classical register, [format(key, '0nb')]: bit [n-1] first, bit 0
    last ([to_bitstring]).  The values are those of the finite run the
    backend made; [Shots] models them.

    Lemmas: reading a key's string back with [int(s, 2)] gives the key
    modulo [2^n] ([bin_value_to_bitstring]), and the circuit of lines
    77-86 measures every qubit into a bit of its own register
    ([grover_circuit_clbits]). *)

From Stdlib Require Import ZArith Reals Lra Lia List String Ascii Bool.
From S2P Require Import Prelude BitString Circuit GateLaws Oracle GroverOp Iterations Amplification Pipeline.
Import ListNotations PyStr Circuit Oracle GroverOp Iterations Amplification Pipeline.

Module Sampler.

(** [format(key, '0nb')]: the [n] low bits of [key], the highest first. *)
Fixpoint to_bitstring (n : nat) (key : Z) : string :=
  match n with
  | O => EmptyString
  | S k => String (if Z.testbit key (Z.of_nat k) then "1" else "0")%char (to_bitstring k key)
  end.

(** [dist.binary_probabilities()] for a register of [n] bits. *)
Definition binary_probabilities (n : nat) (dist : list (Z * R)) : list (string * R) :=
  map (fun '(key, p) => (to_bitstring n key, p)) dist.

(** ** Lemmas: the bit-string round trip *)

Lemma length_to_bitstring (n : nat) (key : Z) : String.length (to_bitstring n key) = n.
Proof. induction n as [|k IH]; simpl; congruence. Qed.

Lemma to_bitstring_is_bitstring (n : nat) (key : Z) : is_bitstring (to_bitstring n key) = true.
Proof.
  induction n as [|k IH]; [reflexivity|]. unfold is_bitstring in *. simpl.
  rewrite IH, andb_true_r. now destruct (Z.testbit key (Z.of_nat k)).
Qed.

(** The step of [int(s, 2)]: the accumulator is shifted past the rest. *)
Lemma bin_fold_shift (l : list ascii) : forall (acc : Z),
  fold_left (fun acc c => 2 * acc + if (c =? "1")%char then 1 else 0)%Z l acc =
  (acc * 2 ^ Z.of_nat (List.length l) +
   fold_left (fun acc c => 2 * acc + if (c =? "1")%char then 1 else 0)%Z l 0)%Z.
Proof.
  induction l as [|c l IH]; intros acc; cbn [fold_left List.length].
  - simpl. lia.
  - rewrite IH. rewrite (IH (2 * 0 + _)%Z). rewrite Nat2Z.inj_succ, Z.pow_succ_r by lia.
    destruct (c =? "1")%char; lia.
Qed.

Lemma bin_value_cons (c : ascii) (s : string) :
  bin_value (String c s) =
  ((if (c =? "1")%char then 1 else 0) * 2 ^ Z.of_nat (String.length s) + bin_value s)%Z.
Proof.
  unfold bin_value. cbn [list_ascii_of_string fold_left].
  rewrite bin_fold_shift, length_list_ascii. destruct (c =? "1")%char; lia.
Qed.

(** Reading the key's string back gives the key modulo [2^n]. *)
Lemma bin_value_to_bitstring (n : nat) (key : Z) :
  bin_value (to_bitstring n key) = (key mod 2 ^ Z.of_nat n)%Z.
Proof.
  induction n as [|k IH]; [simpl; now rewrite Z.mod_1_r|]. cbn [to_bitstring].
  rewrite bin_value_cons, IH, length_to_bitstring.
  rewrite Nat2Z.inj_succ.
  replace (2 ^ Z.succ (Z.of_nat k))%Z with (2 ^ Z.of_nat k * 2)%Z by (rewrite Z.pow_succ_r; lia).
  rewrite Z.rem_mul_r by (try apply Z.pow_nonzero; lia).
  pose proof (Z.testbit_spec' key (Z.of_nat k) ltac:(lia)) as Hb.
  destruct (Z.testbit key (Z.of_nat k)); cbn [Z.b2z] in Hb; rewrite <- Hb;
    cbv [Ascii.eqb Bool.eqb]; lia.
Qed.

(** ** Lemmas: the measured register *)

(** The register of the measured circuit is as wide as its qubits. *)
Lemma grover_circuit_clbits (ms : list string) (qc : circuit) :
  grover_circuit ms = Ok qc -> num_clbits qc = num_qubits qc.
Proof.
  unfold grover_circuit. intros H. inv_bind. unfold power in Ha2.
  destruct (a0 <? 0)%Z; [discriminate|].
  destruct (a0 =? 0)%Z; [|unfold to_gate in Ha2; destruct (gates_of _) as [[? ?]|]; [|discriminate]];
    inv_bind; unfold compose in Ha3; destruct (_ && _)%bool eqn:Hle; try discriminate;
    inv_bind; apply andb_true_iff in Hle as [_ Hc]; apply Nat.leb_le in Hc;
    rewrite h_ok in Ha1 by apply range_seq; inv_bind; simpl in *; lia.
Qed.

End Sampler.
