(* ===== verification/Visualization.v ===== *)
(** * Visualization: the bars [plot_distribution] draws (script line 99)

    [plot_distribution(sim_dist.binary_probabilities())] with its default
    [sort='asc'] takes the keys of the dict, sorts them as Python sorts
    strings (code point by code point, a shorter prefix first), and draws
    one bar per key with the dict's value for it ([data_orig[key]], 0 for
    a key the dict lacks).  [plot_bars] is that list of labelled bars;
    the rendering itself ([plt.show()], colours, figure size) is output
    only and is not modelled.

    Lemmas: on bit strings of one width Python's string order is the
    order of the outcomes they encode ([compare_to_bitstring]), so
    [sorted_labels] of the keys of an [n]-bit register lists the outcomes
    that occur among them once each, in increasing order
    ([sorted_labels_keys]); and the lookup of a key's string is the
    lookup of the key ([dict_get_bitstrings]).  [Shots] applies them to
    the dict of a finite run. *)

From Stdlib Require Import ZArith Reals Lia List String Ascii Bool.
From S2P Require Import Prelude BitString Circuit Amplification Sampler.
Import ListNotations PyStr Circuit Amplification Sampler.

Module Visualization.

(** [data_orig[key]] on the dict the plot receives: the value of the
    key, [None] when the key is absent. *)
Fixpoint dict_get (key : string) (d : list (string * R)) : option R :=
  match d with
  | [] => None
  | (k, v) :: d' => if String.eqb k key then Some v else dict_get key d'
  end.

(** One step of [sorted(set_of_keys)]: a label inserted in Python's
    string order, and dropped if it is already there (the set). *)
Fixpoint insert_label (s : string) (l : list string) : list string :=
  match l with
  | [] => [s]
  | t :: l' =>
      match String.compare s t with
      | Lt => s :: l
      | Eq => l
      | Gt => t :: insert_label s l'
      end
  end.

(** [sorted(functools.reduce(lambda x, y: x.union(y.keys()), data, set()))]
    for the one dict the script plots. *)
Definition sorted_labels (ls : list string) : list string :=
  fold_right insert_label [] ls.

(** [plot_distribution(data)], [sort='asc']: a bar per sorted label, of
    height [data_orig[key]], 0 for a missing key. *)
Definition plot_bars (d : list (string * R)) : list (string * R) :=
  map (fun l => (l, match dict_get l d with Some v => v | None => 0%R end))
      (sorted_labels (map fst d)).

(** ** Lemmas: Python's string order on bit strings *)

Lemma is_bitstring_cons (c : ascii) (s : string) :
  is_bitstring (String c s) = true ->
  ((c = "0")%char \/ (c = "1")%char) /\ is_bitstring s = true.
Proof.
  unfold is_bitstring. cbn [list_ascii_of_string forallb].
  intros [Hc Hs]%andb_true_iff. split; [|exact Hs].
  apply orb_true_iff in Hc as [Hc|Hc]; apply Ascii.eqb_eq in Hc; auto.
Qed.

(** On bit strings of one length, Python's string order is the order of
    their values in binary. *)
Lemma compare_bin_value (s : string) : forall (t : string),
  is_bitstring s = true -> is_bitstring t = true -> String.length s = String.length t ->
  String.compare s t = Z.compare (bin_value s) (bin_value t).
Proof.
  induction s as [|c s IH]; intros [|d t] Hs Ht Hl; try discriminate; [reflexivity|].
  apply is_bitstring_cons in Hs as [Hc Hs], Ht as [Hd Ht].
  injection Hl as Hl. rewrite !bin_value_cons, <- Hl.
  pose proof (bin_value_range s Hs) as Rs. pose proof (bin_value_range t Ht) as Rt.
  rewrite <- Hl in Rt. specialize (IH t Hs Ht Hl).
  cbn [String.compare].
  destruct Hc as [-> | ->], Hd as [-> | ->]; cbn [Ascii.compare Ascii.eqb Bool.eqb N_of_ascii N.compare];
    simpl Ascii.compare; simpl Ascii.eqb.
  - rewrite IH. now rewrite !Z.mul_0_l, !Z.add_0_l.
  - symmetry. apply Z.compare_lt_iff. lia.
  - symmetry. apply Z.compare_gt_iff. lia.
  - rewrite IH. now rewrite Z.add_compare_mono_l.
Qed.

(** The strings of two keys compare as the keys modulo [2^n]. *)
Lemma compare_to_bitstring (n : nat) (a b : Z) :
  String.compare (to_bitstring n a) (to_bitstring n b) =
  Z.compare (a mod 2 ^ Z.of_nat n) (b mod 2 ^ Z.of_nat n).
Proof.
  rewrite compare_bin_value by
    (rewrite ?length_to_bitstring; auto using to_bitstring_is_bitstring).
  now rewrite !bin_value_to_bitstring.
Qed.

Lemma compare_keys (n j j' : nat) :
  (j < 2 ^ n)%nat -> (j' < 2 ^ n)%nat ->
  String.compare (to_bitstring n (Z.of_nat j)) (to_bitstring n (Z.of_nat j')) = Nat.compare j j'.
Proof.
  intros Hj Hj'. rewrite compare_to_bitstring, !Z.mod_small, Nat2Z.inj_compare; [reflexivity| |];
    rewrite <- (Nat2Z.inj_pow 2); lia.
Qed.

(** ** Lemmas: sorting and looking up *)

Lemma key_nat_bound (n : nat) (k : Z) :
  (0 <= k < 2 ^ Z.of_nat n)%Z -> (Z.to_nat k < 2 ^ n)%nat.
Proof.
  intros Hk. apply Nat2Z.inj_lt. rewrite Z2Nat.id, Nat2Z.inj_pow by lia. exact (proj2 Hk).
Qed.

(** A label smaller than every label of the list goes first. *)
Lemma insert_label_front (n k : nat) (l : list nat) :
  (k < 2 ^ n)%nat -> (forall j, In j l -> k < j < 2 ^ n)%nat ->
  insert_label (to_bitstring n (Z.of_nat k)) (map (fun j => to_bitstring n (Z.of_nat j)) l) =
  to_bitstring n (Z.of_nat k) :: map (fun j => to_bitstring n (Z.of_nat j)) l.
Proof.
  destruct l as [|j l]; intros Hk Hl; [reflexivity|]. cbn [map insert_label].
  destruct (Hl j (or_introl eq_refl)) as [Hkj Hj].
  rewrite compare_keys, (proj2 (Nat.compare_lt_iff k j)) by lia. reflexivity.
Qed.

(** Inserting the string of [k] into the strings of the outcomes [P]
    selects, in increasing order, gives the strings of [k] and [P]. *)
Lemma insert_label_filter (n k : nat) (P : nat -> bool) : forall (len s : nat),
  (s + len <= 2 ^ n)%nat -> (s <= k < s + len)%nat ->
  insert_label (to_bitstring n (Z.of_nat k))
               (map (fun j => to_bitstring n (Z.of_nat j)) (filter P (seq s len))) =
  map (fun j => to_bitstring n (Z.of_nat j)) (filter (fun j => Nat.eqb j k || P j) (seq s len)).
Proof.
  induction len as [|len IH]; intros s Hs Hk; [lia|]. cbn [seq filter].
  destruct (Nat.eqb_spec s k) as [<- | Hne]; cbn [orb].
  - assert (Hrest : filter (fun j => Nat.eqb j s || P j) (seq (S s) len) = filter P (seq (S s) len)).
    { apply filter_ext_in. intros j Hj. apply in_seq in Hj.
      replace (Nat.eqb j s) with false by (symmetry; apply Nat.eqb_neq; lia). reflexivity. }
    rewrite Hrest. destruct (P s); cbn [map].
    + cbn [insert_label]. rewrite compare_keys, Nat.compare_refl by lia. reflexivity.
    + apply insert_label_front; [lia|]. intros j Hj. apply filter_In in Hj as [Hj _].
      apply in_seq in Hj. lia.
  - destruct (P s); cbn [map]; [|apply IH; lia].
    cbn [insert_label]. rewrite compare_keys, (proj2 (Nat.compare_gt_iff k s)) by lia.
    rewrite IH by lia. reflexivity.
Qed.

(** [sorted(...)] of the keys of an [n]-bit register, as strings: the
    outcomes that occur among the keys, each once, in increasing order. *)
Lemma sorted_labels_keys (n : nat) (ks : list Z) :
  Forall (fun k => 0 <= k < 2 ^ Z.of_nat n)%Z ks ->
  sorted_labels (map (to_bitstring n) ks) =
  map (fun j => to_bitstring n (Z.of_nat j))
      (filter (fun j => existsb (Z.eqb (Z.of_nat j)) ks) (seq 0 (2 ^ n))).
Proof.
  induction 1 as [|k ks Hk Hks IH].
  - cbn. induction (seq 0 (2 ^ n)) as [|j l IHl]; [reflexivity | exact IHl].
  - cbn [map sorted_labels fold_right]. fold (sorted_labels (map (to_bitstring n) ks)).
    rewrite IH. pose proof (key_nat_bound n k Hk) as Hb.
    replace k with (Z.of_nat (Z.to_nat k)) at 1 by lia.
    rewrite insert_label_filter by lia. f_equal. apply filter_ext. intros j. cbn [existsb].
    f_equal. destruct (Nat.eqb_spec j (Z.to_nat k)), (Z.eqb_spec (Z.of_nat j) k); lia.
Qed.

(** [data_orig[key]] on a dict keyed by the strings of [n]-bit keys is
    the lookup of the key itself. *)
Lemma dict_get_bitstrings {A : Type} (n : nat) (f : Z * A -> R) (d : list (Z * A)) (key : Z) :
  Forall (fun kc => 0 <= fst kc < 2 ^ Z.of_nat n)%Z d -> (0 <= key < 2 ^ Z.of_nat n)%Z ->
  dict_get (to_bitstring n key) (map (fun kc => (to_bitstring n (fst kc), f kc)) d) =
  option_map f (find (fun kc => (fst kc =? key)%Z) d).
Proof.
  induction 1 as [|[k c] d Hk Hd IH]; intros Hkey; [reflexivity|]. cbn [map dict_get find fst] in *.
  destruct (String.eqb_spec (to_bitstring n k) (to_bitstring n key)) as [E | E];
    destruct (Z.eqb_spec k key) as [-> | Hne]; [reflexivity | | congruence | now apply IH].
  apply (f_equal bin_value) in E. rewrite !bin_value_to_bitstring, !Z.mod_small in E by lia.
  contradiction.
Qed.

(** ** Main theorems *)

End Visualization.
