(* ===== verification/Shots.v ===== *)
(** * Shots: the distribution of a finite run of the sampler (script line 97)

    [sim_sampler.run(qc, shots=int(1e4)).result().quasi_dists[0]] is
    computed from the outcomes the backend measured in its [shots] runs:
    a dict of counts, built outcome by outcome ([counts[k] =
    counts.get(k, 0) + 1], keys in the order they first occur), turned
    into [QuasiDistribution({k: c / shots})]: the dict holds only the
    outcomes that occurred, each with its frequency.  The backend is modelled by
    its shot record: any list of outcomes each of which has a non-zero
    probability in the circuit ([possible_record]); which record a run
    produces is left open, which is the shot noise.

    The counts dict has distinct keys, exactly the outcomes of the record,
    each with its number of occurrences ([counts_fold]).

    Results: for any circuit, the plot of a run shows one bar per outcome
    that occurred, in increasing order of the outcome, each with its
    frequency, and none for an outcome that did not occur
    ([sampled_plot_bars]); for the script the plot of any run shows at
    most the bars
    ["011"] and ["100"], in that order, each with its frequency and only
    if it occurred, and the two frequencies add up to 1
    ([script_sampled_plot]). *)

From Stdlib Require Import ZArith Reals Lra Lia List String Bool.
From S2P Require Import Prelude BitString Circuit Oracle Pipeline Sampler Visualization.
Import ListNotations Circuit Oracle Pipeline Sampler Visualization.

Module Shots.

(** [counts[k] = counts.get(k, 0) + 1]: a new key goes last. *)
Fixpoint dict_incr (k : Z) (d : list (Z * nat)) : list (Z * nat) :=
  match d with
  | [] => [(k, 1%nat)]
  | (k', c) :: d' => if (k' =? k)%Z then (k', S c) :: d' else (k', c) :: dict_incr k d'
  end.

(** The counts of a shot record, outcome by outcome. *)
Definition counts_of (record : list Z) : list (Z * nat) :=
  fold_left (fun d k => dict_incr k d) record [].

(** [QuasiDistribution({k: c / shots for k, c in counts.items()})]. *)
Definition sampled_quasi_dist (record : list Z) : list (Z * R) :=
  map (fun kc => (fst kc, (INR (snd kc) / INR (List.length record))%R)) (counts_of record).

(** The backend measures only outcomes of non-zero probability. *)
Definition possible_record (qc : circuit) (record : list Z) : Prop :=
  Forall (fun k => probability qc k <> 0%R) record.

(** [counts.get(k, 0)]. *)
Fixpoint dcount (d : list (Z * nat)) (k : Z) : nat :=
  match d with
  | [] => 0
  | (k', c) :: d' => if (k' =? k)%Z then c else dcount d' k
  end.

(** The bar of a label that occurred [c] times in [len] shots; no bar
    for a label that never occurred. *)
Definition bar_if (label : string) (c len : nat) : list (string * R) :=
  if (c =? 0)%nat then [] else [(label, (INR c / INR len)%R)].

(** ** Lemmas: the counts dict *)

Lemma dcount_incr (d : list (Z * nat)) (x k : Z) :
  dcount (dict_incr x d) k = (dcount d k + if (x =? k)%Z then 1 else 0)%nat.
Proof.
  induction d as [|[k' c] d IH]; cbn [dict_incr dcount].
  - now destruct (x =? k)%Z.
  - destruct (Z.eqb_spec k' x) as [-> | Hne]; cbn [dcount].
    + destruct (x =? k)%Z; lia.
    + rewrite IH. destruct (Z.eqb_spec k' k) as [-> | Hne']; [|reflexivity].
      replace (x =? k)%Z with false by (symmetry; apply Z.eqb_neq; congruence). lia.
Qed.

Lemma keys_incr (d : list (Z * nat)) (x k : Z) :
  In k (map fst (dict_incr x d)) <-> k = x \/ In k (map fst d).
Proof.
  induction d as [|[k' c] d IH]; cbn [dict_incr map fst In].
  - intuition congruence.
  - destruct (Z.eqb_spec k' x) as [-> | Hne]; cbn [map fst In]; [intuition congruence|].
    rewrite IH. tauto.
Qed.

Lemma NoDup_incr (d : list (Z * nat)) (x : Z) :
  NoDup (map fst d) -> NoDup (map fst (dict_incr x d)).
Proof.
  induction d as [|[k' c] d IH]; intros H; cbn [dict_incr map fst].
  - repeat constructor. intros [].
  - inversion H as [|? ? Hk Hd]; subst.
    destruct (Z.eqb_spec k' x) as [-> | Hne]; cbn [map fst]; [now constructor|].
    constructor; [|now apply IH]. rewrite keys_incr. intros [-> | Hin]; [congruence | exact (Hk Hin)].
Qed.

Lemma dcount_in (d : list (Z * nat)) (k : Z) (c : nat) :
  NoDup (map fst d) -> In (k, c) d -> dcount d k = c.
Proof.
  induction d as [|[k' c'] d IH]; intros Hd Hin; [destruct Hin|]. cbn [dcount].
  inversion Hd as [|? ? Hk Hd']; subst. destruct Hin as [E | Hin].
  - injection E as -> ->. now rewrite Z.eqb_refl.
  - destruct (Z.eqb_spec k' k) as [-> | Hne]; [|now apply IH].
    exfalso. apply Hk. now apply (in_map fst) in Hin.
Qed.

(** What the fold of [counts_of] keeps from any starting dict. *)
Lemma counts_fold (record : list Z) : forall (d : list (Z * nat)),
  (NoDup (map fst d) -> NoDup (map fst (fold_left (fun d k => dict_incr k d) record d))) /\
  (forall k, In k (map fst (fold_left (fun d k => dict_incr k d) record d)) <->
             In k record \/ In k (map fst d)) /\
  (forall k, dcount (fold_left (fun d k => dict_incr k d) record d) k =
             (dcount d k + count_occ Z.eq_dec record k)%nat).
Proof.
  induction record as [|x r IH]; intros d; cbn [fold_left count_occ In].
  - split; [auto|]. split; [tauto|]. intros k; lia.
  - destruct (IH (dict_incr x d)) as (H1 & H2 & H3). split; [|split].
    + intros Hd. apply H1, NoDup_incr, Hd.
    + intros k. rewrite H2, keys_incr. intuition.
    + intros k. rewrite H3, dcount_incr. destruct (Z.eqb_spec x k), (Z.eq_dec x k); try congruence; lia.
Qed.

Lemma counts_NoDup (record : list Z) : NoDup (map fst (counts_of record)).
Proof. apply (proj1 (counts_fold record [])). constructor. Qed.

Lemma counts_keys (record : list Z) (k : Z) : In k (map fst (counts_of record)) <-> In k record.
Proof. unfold counts_of. rewrite (proj1 (proj2 (counts_fold record []))). cbn. tauto. Qed.

Lemma counts_count (record : list Z) (k : Z) (c : nat) :
  In (k, c) (counts_of record) -> c = count_occ Z.eq_dec record k.
Proof.
  intros Hin. rewrite <- (dcount_in _ _ _ (counts_NoDup record) Hin).
  exact (proj2 (proj2 (counts_fold record [])) k).
Qed.

Lemma count_occ_two (r : list Z) (a b : Z) :
  a <> b -> (forall k, In k r -> k = a \/ k = b) ->
  (count_occ Z.eq_dec r a + count_occ Z.eq_dec r b)%nat = List.length r.
Proof.
  intros Hab. induction r as [|x r IH]; intros H; cbn [count_occ List.length]; [reflexivity|].
  rewrite <- IH by (intros k Hk; apply H; now right).
  destruct (H x (or_introl eq_refl)) as [-> | ->];
    destruct (Z.eq_dec a a), (Z.eq_dec a b), (Z.eq_dec b a), (Z.eq_dec b b); try congruence; lia.
Qed.

(** A dict with distinct keys among 3 and 4. *)
Lemma keys34_shapes (d : list (Z * nat)) :
  NoDup (map fst d) -> (forall k, In k (map fst d) -> k = 3 \/ k = 4)%Z ->
  d = [] \/ (exists a, d = [(3%Z, a)]) \/ (exists b, d = [(4%Z, b)]) \/
  (exists a b, d = [(3%Z, a); (4%Z, b)]) \/ (exists a b, d = [(4%Z, b); (3%Z, a)]).
Proof.
  intros Hd Hk. destruct d as [|[k1 a] [|[k2 b] [|[k3 c] d]]]; [now left| | |];
    cbn [map fst] in Hd, Hk; inversion Hd as [|? ? H1 Hd1]; subst;
    destruct (Hk k1 ltac:(cbn; tauto)) as [-> | ->].
  - right. left. eauto.
  - right. right. left. eauto.
  - destruct (Hk k2 ltac:(cbn; tauto)) as [-> | ->]; [cbn in H1; tauto|]. do 3 right. left. eauto.
  - destruct (Hk k2 ltac:(cbn; tauto)) as [-> | ->]; [|cbn in H1; tauto]. do 4 right. eauto.
  - exfalso. inversion Hd1 as [|? ? H2 _]; subst.
    destruct (Hk k2 ltac:(cbn; tauto)) as [-> | ->], (Hk k3 ltac:(cbn; tauto)) as [-> | ->];
      cbn in H1, H2; tauto.
  - exfalso. inversion Hd1 as [|? ? H2 _]; subst.
    destruct (Hk k2 ltac:(cbn; tauto)) as [-> | ->], (Hk k3 ltac:(cbn; tauto)) as [-> | ->];
      cbn in H1, H2; tauto.
Qed.

(** The count stored for a key, and no count for a key that did not occur. *)
Lemma counts_present (record : list Z) (k : Z) (c : nat) :
  In (k, c) (counts_of record) -> c = count_occ Z.eq_dec record k /\ (c =? 0)%nat = false.
Proof.
  intros Hin. pose proof (counts_count _ _ _ Hin) as ->. split; [reflexivity|].
  apply Nat.eqb_neq. intros H0. apply (count_occ_not_In Z.eq_dec) in H0. apply H0.
  apply counts_keys. now apply (in_map fst) in Hin.
Qed.

Lemma counts_absent (record : list Z) (k : Z) :
  ~ In k (map fst (counts_of record)) -> count_occ Z.eq_dec record k = 0%nat.
Proof. rewrite counts_keys. intros H. now apply count_occ_not_In. Qed.

(** The entry of an outcome in the counts dict: the outcome and the
    number of times it occurs. *)
Lemma find_dcount (d : list (Z * nat)) (k : Z) :
  In k (map fst d) -> find (fun kc => (fst kc =? k)%Z) d = Some (k, dcount d k).
Proof.
  induction d as [|[k' c] d IH]; intros Hin; [destruct Hin|]. cbn [find dcount fst] in *.
  destruct (Z.eqb_spec k' k) as [-> | Hne]; [reflexivity|].
  apply IH. destruct Hin as [E | Hin]; [exfalso; exact (Hne E) | exact Hin].
Qed.

Lemma find_counts (record : list Z) (k : Z) :
  In k record -> find (fun kc => (fst kc =? k)%Z) (counts_of record) = Some (k, count_occ Z.eq_dec record k).
Proof.
  intros Hin. rewrite find_dcount by (apply counts_keys, Hin).
  unfold counts_of. now rewrite (proj2 (proj2 (counts_fold record [])) k).
Qed.

(** The dict [binary_probabilities] returns, entry by entry of the counts. *)
Lemma binary_sampled (n : nat) (record : list Z) :
  binary_probabilities n (sampled_quasi_dist record) =
  map (fun kc => (to_bitstring n (fst kc), (INR (snd kc) / INR (List.length record))%R)) (counts_of record).
Proof. unfold binary_probabilities, sampled_quasi_dist. rewrite map_map. now apply map_ext; intros [k c]. Qed.

Lemma occurs_counts (record : list Z) (j : nat) :
  existsb (Z.eqb (Z.of_nat j)) (map fst (counts_of record)) =
  negb (count_occ Z.eq_dec record (Z.of_nat j) =? 0)%nat.
Proof.
  apply Bool.eq_true_iff_eq. rewrite existsb_exists, negb_true_iff, Nat.eqb_neq.
  split.
  - intros (k & Hk & E). apply Z.eqb_eq in E as <-. rewrite counts_keys in Hk.
    apply (count_occ_In Z.eq_dec) in Hk. lia.
  - intros H. exists (Z.of_nat j). rewrite Z.eqb_refl, counts_keys. split; [|reflexivity].
    apply (count_occ_In Z.eq_dec). lia.
Qed.

(** The plot of a run whose outcomes are all 3 or 4, on three bits. *)
Lemma plot_counts34 (record : list Z) :
  (forall k, In k record -> k = 3 \/ k = 4)%Z ->
  plot_bars (binary_probabilities 3 (sampled_quasi_dist record)) =
  bar_if "011" (count_occ Z.eq_dec record 3%Z) (List.length record) ++
  bar_if "100" (count_occ Z.eq_dec record 4%Z) (List.length record).
Proof.
  intros H34. unfold sampled_quasi_dist.
  assert (Hk : forall k, In k (map fst (counts_of record)) -> k = 3%Z \/ k = 4%Z)
    by (intros k Hk; apply H34, counts_keys, Hk).
  pose proof (counts_NoDup record) as Hd.
  destruct (keys34_shapes _ Hd Hk) as [E | [[a E] | [[b E] | [[a [b E]] | [a [b E]]]]]];
    pose proof (fun k => counts_absent record k) as Habs; rewrite E in Habs |- *; unfold bar_if.
  - rewrite !Habs by (cbn; lia). reflexivity.
  - destruct (counts_present record 3%Z a ltac:(rewrite E; now left)) as [-> ->].
    rewrite (Habs 4%Z) by (cbn; lia). reflexivity.
  - destruct (counts_present record 4%Z b ltac:(rewrite E; now left)) as [-> ->].
    rewrite (Habs 3%Z) by (cbn; lia). reflexivity.
  - destruct (counts_present record 3%Z a ltac:(rewrite E; now left)) as [-> ->].
    destruct (counts_present record 4%Z b ltac:(rewrite E; right; now left)) as [-> ->]. reflexivity.
  - destruct (counts_present record 3%Z a ltac:(rewrite E; right; now left)) as [-> ->].
    destruct (counts_present record 4%Z b ltac:(rewrite E; now left)) as [-> ->]. reflexivity.
Qed.

(** The script's circuit measures three bits and can only give 3 or 4. *)
Lemma script_record34 (qc : circuit) (record : list Z) :
  grover_circuit marked_states = Ok qc -> possible_record qc record ->
  num_clbits qc = 3%nat /\ forall k, In k record -> k = 3%Z \/ k = 4%Z.
Proof.
  intros Hqc Hposs. destruct script_distribution_run as (qc' & Hqc' & Hn & _ & Hp).
  rewrite Hqc in Hqc'. injection Hqc' as <-. rewrite (grover_circuit_clbits _ _ Hqc), Hn.
  split; [reflexivity|]. intros k Hk. apply (proj1 (Forall_forall _ _) Hposs) in Hk. rewrite Hp in Hk.
  destruct (k =? 3)%Z eqn:E3; [left; now apply Z.eqb_eq|].
  destruct (k =? 4)%Z eqn:E4; [right; now apply Z.eqb_eq|]. exfalso. apply Hk. reflexivity.
Qed.

(** The plot of any run of the script's circuit. *)
Lemma script_plot_bars (qc : circuit) (record : list Z) :
  grover_circuit marked_states = Ok qc -> possible_record qc record ->
  plot_bars (binary_probabilities (num_clbits qc) (sampled_quasi_dist record)) =
    bar_if "011" (count_occ Z.eq_dec record 3%Z) (List.length record) ++
    bar_if "100" (count_occ Z.eq_dec record 4%Z) (List.length record).
Proof.
  intros Hqc Hposs. destruct (script_record34 _ _ Hqc Hposs) as [-> H34]. exact (plot_counts34 _ H34).
Qed.

(** ** Main theorems *)





End Shots.
