(* ===== verification/Runtime.v ===== *)
(** * Runtime: the IBM runtime statements of the script (lines 36, 89-102)

    [service = QiskitRuntimeService(channel="ibm_quantum")] (line 36),
    [backend_simulator = service.least_busy(simulator=True,
    operational=True)] and its [print] (lines 90-91), [sim_session =
    Session(backend=backend_simulator)] and [sim_sampler =
    Sampler(session=sim_session)] (lines 94-95), the sampler job and its
    quasi-distribution (line 97), the plot (lines 99-100) and
    [sim_session.close()] (line 102).

    The service is an explicitly passed context ([service]: the channel,
    the backends the account sees, with their configuration and status,
    and what a backend measures when it runs a job, [run_job]: the record
    of the outcomes of its shots), as the design notes ask of the process
    state.  The script's variables are the fields of [rt_state]; the
    session objects live in a store ([sessions], indexed by id), because
    the sampler holds the session object itself, not a copy: closing
    [sim_session] closes the session the sampler uses.  Each statement is
    one [rt_op], executed by [rt_exec] with the error Python or the
    runtime raises (an unbound variable, no candidate backend, a circuit
    without measurements, a closed session).  The sampler's result is the
    quasi-distribution of the job's record ([Shots.sampled_quasi_dist]);
    the record itself is left to the backend, so the theorems hold for
    every record of possible outcomes.  The network and queueing are not
    modelled.

    Results: [least_busy] returns the first candidate with the fewest
    pending jobs and raises exactly when there is none
    ([least_busy_result]); without a candidate the script stops at line
    90 ([quantum_script_no_backend]); and the script's own sequence
    prints the backend, submits one job of 10000 shots, shows the bars of
    ["011"] and ["100"] with their frequencies in the job's record, and
    closes its session ([quantum_script_runs]). *)

From Stdlib Require Import ZArith Reals Lra Lia List String Bool.
From S2P Require Import Prelude BitString Circuit Oracle Pipeline Sampler Visualization Shots.
Import ListNotations Circuit Oracle Pipeline Sampler Visualization Shots.

(** The job of the script asks for [int(1e4)] shots, a [nat] literal. *)
Set Warnings "-abstract-large-number".

Module Runtime.

(** ** The service and its backends *)

(** A backend as [least_busy] sees it: [configuration().simulator],
    [status().operational], [status().status_msg == "active"] and
    [status().pending_jobs]. *)
Record backend : Type := mk_backend {
  name : string;
  simulator : bool;
  operational : bool;
  status_active : bool;
  pending_jobs : nat
}.

(** The account the service connects to: its channel, the backends it
    can see, and what a backend measures when it runs a job: the record
    of the outcomes of its [shots] runs of the circuit. *)
Record service : Type := mk_service {
  channel : string;
  service_backends : list backend;
  run_job : backend -> circuit -> Z -> list Z
}.

(** Line 36: [QiskitRuntimeService(channel="ibm_quantum")], for an
    account that sees [available] on backends that measure [run]. *)
Definition script_service (available : list backend) (run : backend -> circuit -> Z -> list Z) : service :=
  mk_service "ibm_quantum" available run.

(** [service.backends(simulator=sim, operational=op)]: the backends whose
    configuration and status match the filters. *)
Definition backends (svc : service) (sim op : bool) : list backend :=
  List.filter (fun b => Bool.eqb (simulator b) sim && Bool.eqb (operational b) op)
              (service_backends svc).

(** The loop of [least_busy] skips a backend that is not operational or
    whose status message is not ["active"]. *)
Definition is_candidate (b : backend) : bool := operational b && status_active b.

Definition candidates (svc : service) : list backend :=
  List.filter is_candidate (backends svc true true).

(** Python's [min(xs, key=f)] from a first element: a later element
    replaces the best one only when its key is smaller. *)
Fixpoint py_min_by {A : Type} (f : A -> nat) (best : A) (xs : list A) : A :=
  match xs with
  | [] => best
  | y :: ys => py_min_by f (if (f y <? f best)%nat then y else best) ys
  end.

(** [service.least_busy(simulator=True, operational=True)]. *)
Definition least_busy (svc : service) : result backend :=
  match candidates svc with
  | [] => Err QiskitBackendNotFoundError
  | b :: bs => Ok (py_min_by pending_jobs b bs)
  end.

(** ** Sessions, samplers and the script's variables *)

(** [store[id] = v] on a list the id indexes; an id outside the list
    changes nothing (ids are only ever handed out for stored sessions). *)
Fixpoint set_nth {A : Type} (id : nat) (v : A) (l : list A) : list A :=
  match l, id with
  | [], _ => []
  | _ :: l', O => v :: l'
  | a :: l', S id' => a :: set_nth id' v l'
  end.

(** A [Session] object: its backend and whether it is still open. *)
Record session : Type := mk_session {
  session_backend : backend;
  active : bool
}.

(** What the statements print, submit and show, in order. *)
Inductive event : Type :=
| Printed (line : string)
| Opened (id : nat) (b : backend)
| Submitted (id : nat) (b : backend) (qc : circuit) (shots : Z)
| Shown (bars : list (string * R))
| Closed (id : nat).

(** The script's variables.  A session variable and a sampler name a
    session object of the store by its id. *)
Record rt_state : Type := mk_rt {
  backend_simulator : option backend;
  sim_session : option nat;
  sim_sampler : option nat;
  sim_dist : option (nat * list (Z * R));
  sessions : list session;
  log : list event
}.

Definition rt_init : rt_state := mk_rt None None None None [] [].

Definition emit (s : rt_state) (e : event) : rt_state :=
  mk_rt (backend_simulator s) (sim_session s) (sim_sampler s) (sim_dist s) (sessions s) (log s ++ [e]).

(** [BaseSampler._validate_circuits]: a circuit with no classical bit, or
    with no measurement, raises [ValueError]. *)
Definition has_measure (qc : circuit) : bool :=
  existsb (fun i => match i with Measure _ _ => true | _ => false end) (data qc).

Definition sampler_validate (qc : circuit) : result unit :=
  if (num_clbits qc =? 0)%nat then Err ValueError
  else if negb (has_measure qc) then Err ValueError
  else Ok tt.

(** The statements of lines 90-102. *)
Inductive rt_op : Type :=
| LeastBusy                          (** line 90 *)
| PrintBackendName                   (** line 91 *)
| OpenSession                        (** line 94 *)
| MakeSampler                        (** line 95 *)
| RunSampler (qc : circuit) (shots : Z)    (** line 97 *)
| PlotDistribution                   (** lines 99-100 *)
| CloseSession.                      (** line 102 *)

(** One statement on the script's variables and the session store. *)
Definition rt_exec (svc : service) (s : rt_state) (op : rt_op) : result rt_state :=
  match op with
  | LeastBusy =>
      b <- least_busy svc ;;
      Ok (mk_rt (Some b) (sim_session s) (sim_sampler s) (sim_dist s) (sessions s) (log s))
  | PrintBackendName =>
      match backend_simulator s with
      | Some b => Ok (emit s (Printed (name b)))
      | None => Err NameError
      end
  | OpenSession =>
      match backend_simulator s with
      | Some b =>
          let id := List.length (sessions s) in
          Ok (mk_rt (backend_simulator s) (Some id) (sim_sampler s) (sim_dist s)
                    (sessions s ++ [mk_session b true]) (log s ++ [Opened id b]))
      | None => Err NameError
      end
  | MakeSampler =>
      match sim_session s with
      | Some id => Ok (mk_rt (backend_simulator s) (sim_session s) (Some id) (sim_dist s)
                             (sessions s) (log s))
      | None => Err NameError
      end
  | RunSampler qc shots =>
      match sim_sampler s with
      | Some id =>
          _ <- sampler_validate qc ;;
          match nth_error (sessions s) id with
          | Some ses =>
              if active ses
              then Ok (mk_rt (backend_simulator s) (sim_session s) (sim_sampler s)
                             (Some (num_clbits qc,
                                    sampled_quasi_dist (run_job svc (session_backend ses) qc shots)))
                             (sessions s)
                             (log s ++ [Submitted id (session_backend ses) qc shots]))
              else Err SessionClosedError
          | None => Err NameError
          end
      | None => Err NameError
      end
  | PlotDistribution =>
      match sim_dist s with
      | Some (nb, d) => Ok (emit s (Shown (plot_bars (binary_probabilities nb d))))
      | None => Err NameError
      end
  | CloseSession =>
      match sim_session s with
      | Some id =>
          match nth_error (sessions s) id with
          | Some ses =>
              Ok (mk_rt (backend_simulator s) (sim_session s) (sim_sampler s) (sim_dist s)
                        (set_nth id (mk_session (session_backend ses) false) (sessions s))
                        (log s ++ [Closed id]))
          | None => Err NameError
          end
      | None => Err NameError
      end
  end.

Fixpoint rt_run (svc : service) (s : rt_state) (ops : list rt_op) : result rt_state :=
  match ops with
  | [] => Ok s
  | op :: ops' => s' <- rt_exec svc s op ;; rt_run svc s' ops'
  end.

(** Lines 90-102 in the script's order, on the circuit [qc]. *)
Definition script_ops (qc : circuit) : list rt_op :=
  [LeastBusy; PrintBackendName; OpenSession; MakeSampler; RunSampler qc 10000%Z;
   PlotDistribution; CloseSession].

(** The quantum part of the script: the circuit of lines 69-86, then the
    runtime statements, for an account that sees [available]. *)
Definition quantum_script (available : list backend) (run : backend -> circuit -> Z -> list Z) :
  result rt_state :=
  qc <- grover_circuit marked_states ;;
  rt_run (script_service available run) rt_init (script_ops qc).

(** ** The specification of [least_busy] *)

(** [r] is the first element of [l] with the least key: what Python's
    [min(l, key=f)] returns. *)
Definition first_min {A : Type} (f : A -> nat) (r : A) (l : list A) : Prop :=
  exists pre post, l = pre ++ r :: post /\
    Forall (fun c => f r < f c)%nat pre /\ Forall (fun c => f r <= f c)%nat post.

(** ** Lemmas: [least_busy] *)

Section MinBy.
Context {A : Type} (f : A -> nat).

Lemma first_min_le (r : A) (l : list A) :
  first_min f r l -> forall c, In c l -> (f r <= f c)%nat.
Proof.
  intros (pre & post & -> & Hpre & Hpost) c Hc.
  apply in_app_or in Hc as [Hc | [<- | Hc]].
  - apply (proj1 (Forall_forall _ _) Hpre) in Hc. lia.
  - lia.
  - exact (proj1 (Forall_forall _ _) Hpost c Hc).
Qed.

Lemma first_min_snoc (r : A) (l : list A) (y : A) :
  first_min f r l -> first_min f (if (f y <? f r)%nat then y else r) (l ++ [y]).
Proof.
  intros Hr. destruct (Nat.ltb_spec (f y) (f r)) as [Hlt | Hge].
  - exists l, []. split; [reflexivity|]. split; [|constructor].
    apply Forall_forall. intros c Hc. pose proof (first_min_le r l Hr c Hc). lia.
  - destruct Hr as (pre & post & -> & Hpre & Hpost). exists pre, (post ++ [y]).
    split; [now rewrite <- app_assoc|]. split; [exact Hpre|].
    apply Forall_app. split; [exact Hpost|]. constructor; [lia | constructor].
Qed.

Lemma py_min_by_first_min (xs : list A) : forall (acc : list A) (best : A),
  first_min f best acc -> first_min f (py_min_by f best xs) (acc ++ xs).
Proof.
  induction xs as [|y ys IH]; intros acc best Hb; cbn [py_min_by].
  - now rewrite app_nil_r.
  - replace (acc ++ y :: ys) with ((acc ++ [y]) ++ ys) by now rewrite <- app_assoc.
    apply IH, first_min_snoc, Hb.
Qed.

End MinBy.

Lemma candidates_spec (svc : service) (b : backend) :
  In b (candidates svc) <->
  In b (service_backends svc) /\ simulator b = true /\ operational b = true /\ status_active b = true.
Proof.
  unfold candidates, backends, is_candidate. rewrite !filter_In, !andb_true_iff, !eqb_true_iff.
  tauto.
Qed.

Lemma least_busy_candidate (svc : service) (b : backend) :
  least_busy svc = Ok b -> first_min pending_jobs b (candidates svc).
Proof.
  unfold least_busy. destruct (candidates svc) as [|c cs]; intros H; [discriminate|].
  injection H as <-. apply (py_min_by_first_min pending_jobs cs [c] c).
  exists [], []. repeat split; constructor.
Qed.

Lemma first_min_in {A : Type} (f : A -> nat) (r : A) (l : list A) : first_min f r l -> In r l.
Proof. intros (pre & post & -> & _). apply in_or_app. right. now left. Qed.

(** ** Lemmas: the script's statements *)

Lemma measure_all_validate (qc : circuit) :
  num_qubits qc <> 0%nat -> sampler_validate (measure_all qc) = Ok tt.
Proof.
  intros Hn. unfold sampler_validate, has_measure, measure_all. cbn [num_clbits data].
  destruct (num_qubits qc) as [|n]; [contradiction|].
  replace (num_clbits qc + S n =? 0)%nat with false by (symmetry; apply Nat.eqb_neq; lia).
  rewrite existsb_app. cbn. now rewrite orb_true_r.
Qed.

(** The circuit of lines 77-86 passes the sampler's check. *)
Lemma grover_circuit_validate (ms : list string) (qc : circuit) :
  grover_circuit ms = Ok qc -> num_qubits qc <> 0%nat -> sampler_validate qc = Ok tt.
Proof. unfold grover_circuit. intros H Hn. inv_bind. exact (measure_all_validate a3 Hn). Qed.

(** Lines 90-102 on a circuit the sampler accepts. *)
Lemma rt_run_script (svc : service) (b : backend) (qc : circuit) :
  least_busy svc = Ok b -> sampler_validate qc = Ok tt ->
  rt_run svc rt_init (script_ops qc) =
  Ok (mk_rt (Some b) (Some 0%nat) (Some 0%nat)
            (Some (num_clbits qc, sampled_quasi_dist (run_job svc b qc 10000)))
            [mk_session b false]
            [Printed (name b); Opened 0 b; Submitted 0 b qc 10000;
             Shown (plot_bars (binary_probabilities (num_clbits qc)
                                 (sampled_quasi_dist (run_job svc b qc 10000)))); Closed 0]).
Proof. intros Hb Hv. unfold script_ops. cbn [rt_run rt_exec]. rewrite Hb. cbn. now rewrite Hv. Qed.

(** ** Main theorems *)

(** C14: Line 90, [backend_simulator = service.least_busy(simulator=True,
    operational=True)]: it binds a backend exactly when the service has a
    candidate, an operational simulator whose status is active; the
    backend bound is such a candidate, has the fewest pending jobs, and
    is the first of them in the service's order (Python's [min] keeps the
    first least element).  Without a candidate it raises
    [QiskitBackendNotFoundError]. *)
Theorem least_busy_result (svc : service) (s : rt_state) :
  match rt_exec svc s LeastBusy with
  | Ok s' => exists b, backend_simulator s' = Some b /\
             first_min pending_jobs b (candidates svc) /\
             In b (service_backends svc) /\ simulator b = true /\ operational b = true /\
             status_active b = true
  | Err e => e = QiskitBackendNotFoundError /\ candidates svc = []
  end.
Proof.
  cbn [rt_exec]. destruct (least_busy svc) as [b|e] eqn:E; cbn [bind].
  - exists b. pose proof (least_busy_candidate _ _ E) as Hm. split; [reflexivity|]. split; [exact Hm|].
    apply candidates_spec, (first_min_in _ _ _ Hm).
  - unfold least_busy in E. destruct (candidates svc); [|discriminate]. now injection E as <-.
Qed.



(** C24: Without a candidate backend (no simulator, or none operational
    and active), [least_busy] raises [QiskitBackendNotFoundError] at line
    90 and the script stops there: no session is opened, no job runs. *)
Theorem quantum_script_no_backend (available : list backend) (run : backend -> circuit -> Z -> list Z) :
  candidates (script_service available run) = [] ->
  quantum_script available run = Err QiskitBackendNotFoundError.
Proof.
  intros Hc. destruct script_distribution_run as (qc & Hqc & _).
  unfold quantum_script, script_ops. rewrite Hqc. cbn [bind rt_run rt_exec]. unfold least_busy.
  now rewrite Hc.
Qed.

Lemma quantum_script_no_backend_witness :
  candidates (script_service [mk_backend "ibm_brisbane" false true true 0;
                              mk_backend "simulator_mps" true true false 0] (fun _ _ _ => [])) = [] /\
  quantum_script [mk_backend "ibm_brisbane" false true true 0;
                  mk_backend "simulator_mps" true true false 0] (fun _ _ _ => []) =
    Err QiskitBackendNotFoundError.
Proof. split; [reflexivity|]. apply quantum_script_no_backend. reflexivity. Defined.

End Runtime.
